(** * Pirate whack-a-mole: the battle model, the round controller and the
      event queue between them

    A shallow embedding of [pirate-final.py]: the fleet and fortress that
    the pygame loop mutates, the [HardwareThread] that runs the rounds,
    and the queue of game events between the two.

    Numbers.  Ship health is a Python [int] and is a [Z] here.  The score
    and the fortress health start as [int] and take half-point steps, and
    time stamps are [float]; all three are rationals [Q] here.  Halves of
    small integers are exact in binary64, so nothing is lost on scores and
    health; for time stamps the rounding of a float subtraction is not
    modelled.

    Objects.  A ship object is identified with its position in
    [ENEMY_FLEET]: [get_current_target_ship] returns that position and a
    mutation of the returned object is an update of the list there.

    Threads.  One loop iteration of the controller, and the handling of
    one event by the pygame loop, is one step; the two threads interleave
    at that grain, in any order.  Within a step [self.running] and the
    battle globals are read once.  The two statements of [stop] are one
    step each.

    Device.  The input device is part of the world the controller runs
    in, and is absent from it when [__init__] did not get to assign
    [self.dev]: evaluating [self.dev.read()] then fails without touching
    any hardware. *)

From Stdlib Require Import ZArith QArith Qminmax Lia Lqa Bool String.
From stdpp Require Import base option list gmap.

Open Scope Z_scope.

(* ------------------------------------------------------------------ *)
(** ** Python numbers *)

Module Py.

(** [a > b], [a >= b] and [a <= b] on numbers. *)
Definition gt (a b : Q) : bool := negb (Qle_bool a b).
Definition ge (a b : Q) : bool := Qle_bool b a.
Definition le (a b : Q) : bool := Qle_bool a b.

(** [max(a, b)] keeps its first argument unless the second is greater;
    [min(a, b)] keeps its first argument unless the second is smaller. *)
Definition max (a b : Q) : Q := if gt b a then b else a.
Definition min (a b : Q) : Q := if gt a b then b else a.

(** [int(x)] truncates towards zero. *)
Definition int (x : Q) : Z := Z.quot (Qnum x) (Zpos (Qden x)).

Lemma gt_true (a b : Q) : gt a b = true <-> (b < a)%Q.
Proof.
  unfold gt. rewrite negb_true_iff, <- not_true_iff_false, Qle_bool_iff.
  split; [apply Qnot_le_lt | apply Qlt_not_le].
Qed.

Lemma gt_false (a b : Q) : gt a b = false <-> (a <= b)%Q.
Proof. unfold gt. rewrite negb_false_iff. apply Qle_bool_iff. Qed.

Lemma ge_true (a b : Q) : ge a b = true <-> (b <= a)%Q.
Proof. apply Qle_bool_iff. Qed.

Lemma le_true (a b : Q) : le a b = true <-> (a <= b)%Q.
Proof. apply Qle_bool_iff. Qed.

Lemma le_false (a b : Q) : le a b = false <-> (b < a)%Q.
Proof.
  unfold le. rewrite <- not_true_iff_false, Qle_bool_iff.
  split; [apply Qnot_le_lt | apply Qlt_not_le].
Qed.

Lemma max_cases (a b : Q) :
  ((a < b)%Q /\ max a b = b) \/ ((b <= a)%Q /\ max a b = a).
Proof.
  unfold max. destruct (gt b a) eqn:E.
  - left. split; [by apply gt_true | done].
  - right. split; [by apply gt_false | done].
Qed.

Lemma min_cases (a b : Q) :
  ((b < a)%Q /\ min a b = b) \/ ((a <= b)%Q /\ min a b = a).
Proof.
  unfold min. destruct (gt a b) eqn:E.
  - left. split; [by apply gt_true | done].
  - right. split; [by apply gt_false | done].
Qed.

Lemma max_Qmax (a b : Q) : (max a b == Qmax a b)%Q.
Proof.
  destruct (max_cases a b) as [[H ->]|[H ->]].
  - symmetry. apply Q.max_r. by apply Qlt_le_weak.
  - symmetry. by apply Q.max_l.
Qed.

Lemma min_Qmin (a b : Q) : (min a b == Qmin a b)%Q.
Proof.
  destruct (min_cases a b) as [[H ->]|[H ->]].
  - symmetry. apply Q.min_r. by apply Qlt_le_weak.
  - symmetry. by apply Q.min_l.
Qed.

End Py.

(* ------------------------------------------------------------------ *)
(** ** Battle model *)

(** The three sprites a ship switches between. *)
Inductive Sprite := full | half | destroyed.

(** [EnemyShip], without the pygame surfaces, rectangle and position. *)
Record EnemyShip := mkShip {
  name : string;
  max_health : Z;
  current_health : Z;
  is_destroyed : bool;
  image : Sprite
}.

(** [EnemyShip.__init__]. *)
Definition EnemyShip_init (n : string) (mh : Z) : EnemyShip :=
  {| name := n; max_health := mh; current_health := mh;
     is_destroyed := false; image := full |}.

(** [get_current_sprite].  The ratio divides by [max_health], a positive
    literal for every ship built from [SHIP_DATA].  It is the exact
    quotient here.  The source divides the two [int]s in binary64, which
    decides the test against 0.5 as the exact quotient does for every
    [max_health] below 2^53, those of [SHIP_DATA] among them; beyond, a
    ratio just above one half can round down to it. *)
Definition get_current_sprite (s : EnemyShip) : Sprite :=
  if is_destroyed s then destroyed
  else
    let health_ratio := (inject_Z (current_health s) / inject_Z (max_health s))%Q in
    if Py.le health_ratio (1#2) then half else full.

(** What [take_damage] returns. *)
Inductive DamageResult := SHIP_DESTROYED | SHIP_HIT.

(** [take_damage]: the ship after the call and the returned value. *)
Definition take_damage (s : EnemyShip) : EnemyShip * option DamageResult :=
  if negb (is_destroyed s) then
    let s1 := {| name := name s; max_health := max_health s;
                 current_health := current_health s - 1;
                 is_destroyed := is_destroyed s; image := image s |} in
    let s2 := {| name := name s1; max_health := max_health s1;
                 current_health := current_health s1;
                 is_destroyed := is_destroyed s1;
                 image := get_current_sprite s1 |} in
    if current_health s2 <=? 0 then
      ({| name := name s2; max_health := max_health s2;
          current_health := current_health s2;
          is_destroyed := true; image := image s2 |}, Some SHIP_DESTROYED)
    else (s2, Some SHIP_HIT)
  else (s, None).

(** [SHIP_DATA], names and hit points. *)
Definition SHIP_DATA : list (string * Z) :=
  [ ("Sloop"%string, 5); ("Brigantine"%string, 10); ("Frigate"%string, 15);
    ("Man-of-War"%string, 15); ("Dreadnought (Boss)"%string, 5) ].

(** [PLAYER_FORTRESS], a dict with the two keys [health] and [max_health]. *)
Record Fortress := mkFortress {
  health : Q;
  fortress_max_health : Q
}.

(** The two globals the pygame loop and the controller share. *)
Record Battle := mkBattle {
  ENEMY_FLEET : list EnemyShip;
  PLAYER_FORTRESS : Fortress
}.

(** The module-level initial values. *)
Definition Battle_globals : Battle :=
  {| ENEMY_FLEET := [];
     PLAYER_FORTRESS := {| health := 10; fortress_max_health := 10 |} |}.

(** [initialize_fleet_structure]: one ship per row of [SHIP_DATA]. *)
Definition initialize_fleet_structure (b : Battle) : Battle :=
  {| ENEMY_FLEET := map (fun row => EnemyShip_init (fst row) (snd row)) SHIP_DATA;
     PLAYER_FORTRESS := PLAYER_FORTRESS b |}.

(** The body of the loop of [reset_game_for_new_round]. *)
Definition reset_ship (s : EnemyShip) : EnemyShip :=
  {| name := name s; max_health := max_health s;
     current_health := max_health s; is_destroyed := false; image := full |}.

(** [reset_game_for_new_round]; an empty fleet returns early. *)
Definition reset_game_for_new_round (b : Battle) : Battle :=
  match ENEMY_FLEET b with
  | [] => b
  | _ =>
      {| ENEMY_FLEET := map reset_ship (ENEMY_FLEET b);
         PLAYER_FORTRESS :=
           {| health := fortress_max_health (PLAYER_FORTRESS b);
              fortress_max_health := fortress_max_health (PLAYER_FORTRESS b) |} |}
  end.

(** [get_current_target_ship]: the position of the first ship that is not
    destroyed, [None] when there is none. *)
Fixpoint get_current_target_ship (fleet : list EnemyShip) : option nat :=
  match fleet with
  | [] => None
  | ship :: rest =>
      if negb (is_destroyed ship) then Some 0%nat
      else option_map S (get_current_target_ship rest)
  end.

(* ------------------------------------------------------------------ *)
(** ** Game events and the queue *)

(** The dicts put on the queue, by their [type] key; [MOLE_SPAWN] carries
    [index], the hit, miss and game-over events carry [score]. *)
Inductive GameEvent :=
| START_SCREEN
| COUNTDOWN_FINISHED
| MOLE_SPAWN (index : Z)
| MOLE_ESCAPED
| PLAYER_HIT (score : Q)
| PLAYER_MISS (score : Q)
| GAME_OVER (score : Q).

(** [queue.Queue]: [put] appends at the back, [get_nowait] takes from the
    front and raises [queue.Empty] ([None]) on an empty queue. *)
Module Queue.

Definition t := list GameEvent.

Definition put (q : t) (e : GameEvent) : t := q ++ [e].

Definition get_nowait (q : t) : option (GameEvent * t) :=
  match q with
  | [] => None
  | e :: q' => Some (e, q')
  end.

Definition empty (q : t) : bool :=
  match q with [] => true | _ => false end.

End Queue.

(* ------------------------------------------------------------------ *)
(** ** The pygame loop: consuming events *)

(** A cannonball in flight: towards the ship at a fleet position ([HIT])
    or from it towards the player ([MISS]). *)
Inductive Effect := HIT (ship : nat) | MISS (ship : nat).

(** The battle globals and the locals of [main] that events change. *)
Record Main := mkMain {
  battle : Battle;
  game_running : bool;
  game_over : bool;
  last_game_score : Z;
  all_sprites : list Effect
}.

(** The state of [main] when its loop starts. *)
Definition Main_init (b : Battle) : Main :=
  {| battle := b; game_running := false; game_over := false;
     last_game_score := 0; all_sprites := [] |}.

Definition heal (f : Fortress) : Fortress :=
  {| health := Py.min (health f + (1#2)) (fortress_max_health f);
     fortress_max_health := fortress_max_health f |}.

Definition damage (f : Fortress) : Fortress :=
  {| health := Py.max 0 (health f - 1);
     fortress_max_health := fortress_max_health f |}.

(** One branch of the [if]/[elif] chain on [event['type']]. *)
Definition process_event (m : Main) (event : GameEvent) : Main :=
  match event with
  | START_SCREEN =>
      {| battle := battle m; game_running := false; game_over := false;
         last_game_score := 0; all_sprites := [] |}
  | COUNTDOWN_FINISHED =>
      {| battle := battle m; game_running := true; game_over := game_over m;
         last_game_score := last_game_score m; all_sprites := all_sprites m |}
  | PLAYER_HIT _ =>
      match get_current_target_ship (ENEMY_FLEET (battle m)) with
      | Some current_ship =>
          {| battle :=
               {| ENEMY_FLEET :=
                    alter (fun s => fst (take_damage s)) current_ship
                          (ENEMY_FLEET (battle m));
                  PLAYER_FORTRESS := heal (PLAYER_FORTRESS (battle m)) |};
             game_running := game_running m; game_over := game_over m;
             last_game_score := last_game_score m;
             all_sprites := all_sprites m ++ [HIT current_ship] |}
      | None => m
      end
  | PLAYER_MISS _ | MOLE_ESCAPED =>
      match get_current_target_ship (ENEMY_FLEET (battle m)) with
      | Some current_ship =>
          if Py.gt (health (PLAYER_FORTRESS (battle m))) 0 then
            {| battle :=
                 {| ENEMY_FLEET := ENEMY_FLEET (battle m);
                    PLAYER_FORTRESS := damage (PLAYER_FORTRESS (battle m)) |};
               game_running := game_running m; game_over := game_over m;
               last_game_score := last_game_score m;
               all_sprites := all_sprites m ++ [MISS current_ship] |}
          else m
      | None => m
      end
  | GAME_OVER score =>
      {| battle := battle m; game_running := game_running m; game_over := true;
         last_game_score := Py.int score; all_sprites := all_sprites m |}
  | MOLE_SPAWN _ => m
  end.

(** Events handled one after the other, oldest first. *)
Definition process_events (m : Main) (events : list GameEvent) : Main :=
  fold_left process_event events m.

(** The win/loss test after the queue is drained. *)
Definition check_win_loss (m : Main) : Main :=
  if game_running m &&
     (Py.le (health (PLAYER_FORTRESS (battle m))) 0 ||
      bool_decide (get_current_target_ship (ENEMY_FLEET (battle m)) = None))
  then {| battle := battle m; game_running := game_running m; game_over := true;
          last_game_score := last_game_score m; all_sprites := all_sprites m |}
  else m.

(* ------------------------------------------------------------------ *)
(** ** The round controller *)

(** Constants of the module. *)
Definition NUM_LIGHTS : Z := 9.
Definition PIXELS_PER_BUTTON : Z := 4.
Definition NUM_PIXELS : Z := NUM_LIGHTS * PIXELS_PER_BUTTON.
Definition GAME_DURATION : Q := 30.
Definition MOLE_DURATION : Q := 1.
Definition PENALTY_FLASH_DURATION : Q := 2 # 10.
Definition COUNTDOWN_FLASH_DURATION : Q := 1 # 2.
Definition MOLE_COLOR : Z * Z * Z := (0, 255, 0).

(** The key codes and the event type the controller compares against.
    They come from [evdev.ecodes] when the import succeeds and from the
    placeholder class otherwise. *)
Record Ecodes := mkEcodes {
  KEY_1 : Z; KEY_2 : Z; KEY_3 : Z; KEY_4 : Z; KEY_5 : Z;
  KEY_6 : Z; KEY_7 : Z; KEY_8 : Z; KEY_9 : Z;
  EV_KEY : Z
}.

(** The placeholder class [ecodes] of the [except ImportError] branch. *)
Definition placeholder_ecodes : Ecodes :=
  {| KEY_1 := 1; KEY_2 := 2; KEY_3 := 3; KEY_4 := 4; KEY_5 := 5;
     KEY_6 := 6; KEY_7 := 7; KEY_8 := 8; KEY_9 := 9; EV_KEY := 1 |}.

(** An input event as [evdev] yields it. *)
Record InputEvent := mkInputEvent {
  type : Z;
  code : Z;
  value : Z
}.

(** What one call of [self.dev.read()] gives: the events of the batch, or
    one of the exceptions the controller catches ([IOError],
    [BlockingIOError], or [AttributeError] when [self.dev] was never
    assigned).  The generator raises before it yields anything. *)
Inductive ReadResult :=
| Events (events : list InputEvent)
| ReadError.

(** The calls the controller makes on the light strip and the device, and
    its sleeps, in the order made. *)
Inductive HwCall :=
| set_all (r g b : Z) (brightness : option Q)
| set_pixel (i r g b : Z) (brightness : option Q)
| show
| dev_read
| sleep (seconds : Q).

(** The outside of the controller: what the successive calls of
    [time.time()] and [random.randint(0, NUM_LIGHTS - 1)] return, and the
    input device: [None] when [__init__] did not get to assign
    [self.dev], otherwise what the successive calls of [self.dev.read()]
    return. *)
Record World := mkWorld {
  time_time : nat -> Q;
  random_randint : nat -> Z;
  dev : option (nat -> ReadResult)
}.

(** What evaluating [self.dev.read()] for the [n]-th time gives.  With
    no [self.dev] the attribute lookup raises [AttributeError], which the
    controller catches like a failed read: no device is touched and no
    event is ever received. *)
Definition dev_read_result (w : World) (n : nat) : ReadResult :=
  match dev w with
  | Some reads => reads n
  | None => ReadError
  end.

(** The call the device sees when [self.dev.read()] is evaluated: none
    when there is no device. *)
Definition dev_call (w : World) : list HwCall :=
  match dev w with
  | Some _ => [dev_read]
  | None => []
  end.

Definition has_dev (w : World) : bool :=
  match dev w with Some _ => true | None => false end.

Arguments dev_read_result : simpl never.
Arguments dev_call : simpl never.

(** Where [run] stands between two iterations of its loops. *)
Inductive Phase :=
| RoundSetup
| AwaitStart
| Active
| AwaitAck (keys_pressed : nat)
| Exited.

#[global] Instance Phase_eq_dec : EqDecision Phase.
Proof. solve_decision. Defined.

(** The fields of [HardwareThread], then the position of [run], the
    number of times each source of the world was asked so far ([polls]
    counts the evaluations of [self.dev.read()], with or without a
    device), and the calls made on the hardware. *)
Record HardwareThread := mkThread {
  event_queue : Queue.t;
  running : bool;
  is_available : bool;
  score : Q;
  active_mole_light_index : option Z;
  last_mole_time : Q;
  game_start_time : Q;
  pc : Phase;
  ticks : nat;
  draws : nat;
  polls : nat;
  hw_log : list HwCall
}.

Definition set_running (t : HardwareThread) (v : bool) : HardwareThread :=
  mkThread (event_queue t) v (is_available t) (score t)
           (active_mole_light_index t) (last_mole_time t) (game_start_time t)
           (pc t) (ticks t) (draws t) (polls t) (hw_log t).

Definition set_score (t : HardwareThread) (v : Q) : HardwareThread :=
  mkThread (event_queue t) (running t) (is_available t) v
           (active_mole_light_index t) (last_mole_time t) (game_start_time t)
           (pc t) (ticks t) (draws t) (polls t) (hw_log t).

Definition set_active_mole_light_index (t : HardwareThread) (v : option Z)
  : HardwareThread :=
  mkThread (event_queue t) (running t) (is_available t) (score t)
           v (last_mole_time t) (game_start_time t)
           (pc t) (ticks t) (draws t) (polls t) (hw_log t).

Definition set_pc (t : HardwareThread) (v : Phase) : HardwareThread :=
  mkThread (event_queue t) (running t) (is_available t) (score t)
           (active_mole_light_index t) (last_mole_time t) (game_start_time t)
           v (ticks t) (draws t) (polls t) (hw_log t).

(** [self.event_queue.put(e)]. *)
Definition put (t : HardwareThread) (e : GameEvent) : HardwareThread :=
  mkThread (Queue.put (event_queue t) e) (running t) (is_available t) (score t)
           (active_mole_light_index t) (last_mole_time t) (game_start_time t)
           (pc t) (ticks t) (draws t) (polls t) (hw_log t).

(** Calls on the strip, and sleeps, recorded in order. *)
Definition hw (t : HardwareThread) (calls : list HwCall) : HardwareThread :=
  mkThread (event_queue t) (running t) (is_available t) (score t)
           (active_mole_light_index t) (last_mole_time t) (game_start_time t)
           (pc t) (ticks t) (draws t) (polls t) (hw_log t ++ calls).

(** How far [__init__] gets in its hardware setup. *)
Inductive SetupOutcome :=
| plasma_failed        (* the strip cannot be driven *)
| device_not_found     (* [InputDevice(device_path)] raises [FileNotFoundError] *)
| device_opened.       (* the device opens and [F_GETFL] answers *)

(** Whether [__init__] got to assign [self.dev]. *)
Definition dev_assigned (o : SetupOutcome) : bool :=
  match o with
  | device_opened => true
  | plasma_failed | device_not_found => false
  end.

(** [HardwareThread.__init__].  [is_available] is set to [True] only as
    the last statement of the [try] block.  With the device open the
    block goes on to evaluate [os.O.NONBLOCK]; the module [os] has no
    attribute [O], so this raises [AttributeError], the broad [except]
    catches it, and the assignment is not reached on any path. *)
Definition HardwareThread_init (o : SetupOutcome) (q : Queue.t) : HardwareThread :=
  {| event_queue := q;
     running := true;
     is_available := false;
     score := 0;
     active_mole_light_index := None;
     last_mole_time := 0;
     game_start_time := 0;
     pc := RoundSetup;
     ticks := 0; draws := 0; polls := 0;
     hw_log := match o with
               | plasma_failed => []
               | device_not_found | device_opened =>
                   [set_all 0 0 0 None; show]
               end |}.

Section Controller.

Variable ecodes : Ecodes.
Variable world : World.

(** [KEY_TO_LIGHT_INDEX]; in a dict display a later entry wins over an
    earlier one with the same key. *)
Definition KEY_TO_LIGHT_INDEX : gmap Z Z :=
  <[KEY_9 ecodes := 8]> (<[KEY_8 ecodes := 7]> (<[KEY_7 ecodes := 6]>
  (<[KEY_6 ecodes := 5]> (<[KEY_5 ecodes := 4]> (<[KEY_4 ecodes := 3]>
  (<[KEY_3 ecodes := 2]> (<[KEY_2 ecodes := 1]> (<[KEY_1 ecodes := 0]> ∅)))))))).

(** [time.time()]. *)
Definition now (t : HardwareThread) : Q * HardwareThread :=
  (time_time world (ticks t),
   mkThread (event_queue t) (running t) (is_available t) (score t)
            (active_mole_light_index t) (last_mole_time t) (game_start_time t)
            (pc t) (S (ticks t)) (draws t) (polls t) (hw_log t)).

(** [random.randint(0, NUM_LIGHTS - 1)]. *)
Definition randint (t : HardwareThread) : Z * HardwareThread :=
  (random_randint world (draws t),
   mkThread (event_queue t) (running t) (is_available t) (score t)
            (active_mole_light_index t) (last_mole_time t) (game_start_time t)
            (pc t) (ticks t) (S (draws t)) (polls t) (hw_log t)).

(** [self.dev.read()]. *)
Definition read (t : HardwareThread) : ReadResult * HardwareThread :=
  (dev_read_result world (polls t),
   mkThread (event_queue t) (running t) (is_available t) (score t)
            (active_mole_light_index t) (last_mole_time t) (game_start_time t)
            (pc t) (ticks t) (draws t) (S (polls t)) (hw_log t ++ dev_call world)).

Definition set_last_mole_time (t : HardwareThread) (v : Q) : HardwareThread :=
  mkThread (event_queue t) (running t) (is_available t) (score t)
           (active_mole_light_index t) v (game_start_time t)
           (pc t) (ticks t) (draws t) (polls t) (hw_log t).

Definition set_game_start_time (t : HardwareThread) (v : Q) : HardwareThread :=
  mkThread (event_queue t) (running t) (is_available t) (score t)
           (active_mole_light_index t) (last_mole_time t) v
           (pc t) (ticks t) (draws t) (polls t) (hw_log t).

(** [get_pixel_indices_for_light], as the range the callers loop over. *)
Definition get_pixel_indices_for_light (light_index : Z) : list Z :=
  seqZ (light_index * PIXELS_PER_BUTTON) PIXELS_PER_BUTTON.

Definition light_up_mole (t : HardwareThread) (light_index : Z) : HardwareThread :=
  if is_available t then
    hw t (map (fun i => set_pixel i (MOLE_COLOR.1.1) (MOLE_COLOR.1.2) (MOLE_COLOR.2)
                                  (Some (1#4)))
              (get_pixel_indices_for_light light_index) ++ [show])
  else t.

Definition turn_off_mole (t : HardwareThread) (light_index : option Z)
  : HardwareThread :=
  match light_index with
  | Some i =>
      if is_available t then
        hw t (map (fun p => set_pixel p 0 0 0 (Some (1#4)))
                  (get_pixel_indices_for_light i) ++ [show])
      else t
  | None => t
  end.

Definition light_up_all_red (t : HardwareThread) : HardwareThread :=
  if is_available t then
    hw t [set_all 255 0 0 (Some (1#4)); show; sleep PENALTY_FLASH_DURATION;
          set_all 0 0 0 (Some (1#4)); show]
  else t.

(** One turn of the [for i in range(3, 0, -1)] loop of the countdown. *)
Definition countdown_flash (t : HardwareThread) (i : Z) : HardwareThread :=
  let t := light_up_mole t (i - 1) in
  let t := hw t [sleep COUNTDOWN_FLASH_DURATION] in
  let t := turn_off_mole t (Some (i - 1)) in
  hw t [sleep COUNTDOWN_FLASH_DURATION].

Definition countdown_sequence (t : HardwareThread) : HardwareThread :=
  let t :=
    if is_available t then
      let t := hw t [set_all 0 0 255 (Some (1#4)); show;
                     sleep (COUNTDOWN_FLASH_DURATION * 2);
                     set_all 0 0 0 (Some (1#4));
                     sleep COUNTDOWN_FLASH_DURATION] in
      fold_left countdown_flash [3; 2; 1] t
    else t in
  put t COUNTDOWN_FINISHED.

Definition spawn_next_mole (t : HardwareThread) : HardwareThread :=
  let t := turn_off_mole t (active_mole_light_index t) in
  let '(new_mole_index, t) := randint t in
  let t := set_active_mole_light_index t (Some new_mole_index) in
  let t := light_up_mole t new_mole_index in
  let '(time, t) := now t in
  let t := set_last_mole_time t time in
  put t (MOLE_SPAWN new_mole_index).

(** [stop], called from the main thread while [run] loops: its two
    statements, between which the controller may take steps. *)
Definition stop_set_running (t : HardwareThread) : HardwareThread :=
  set_running t false.

Definition stop_clear_strip (t : HardwareThread) : HardwareThread :=
  if is_available t then hw t [set_all 0 0 0 None; show] else t.

(** The whole call, with no controller step in between. *)
Definition stop (t : HardwareThread) : HardwareThread :=
  stop_clear_strip (stop_set_running t).

(** *** The loops of [run], one iteration at a time *)

Definition is_key_down (event : InputEvent) : bool :=
  (type event =? EV_KEY ecodes) && (value event =? 1).

Definition is_start_press (event : InputEvent) : bool :=
  (type event =? EV_KEY ecodes) && (value event =? 1)
  && (code event =? KEY_5 ecodes).

(** The top of the outer loop, up to the wait for the start button. *)
Definition round_setup (b : Battle) (t : HardwareThread) : Battle * HardwareThread :=
  let b := reset_game_for_new_round b in
  let t := set_score t 0 in
  let t := set_active_mole_light_index t None in
  let t := put t START_SCREEN in
  let t := turn_off_mole t (active_mole_light_index t) in
  let t := match KEY_TO_LIGHT_INDEX !! KEY_5 ecodes with
           | Some i => light_up_mole t i
           | None => t      (* not reached: the key is in the dict *)
           end in
  (b, set_pc t AwaitStart).

(** One iteration of the wait for the start button.  When the batch has
    a press of key 5 the wait ends, the countdown runs and the round
    starts. *)
Definition await_start (t : HardwareThread) : HardwareThread :=
  if running t then
    let '(r, t) := read t in
    let start_pressed :=
      match r with
      | Events events => existsb is_start_press events
      | ReadError => false
      end in
    if start_pressed then
      let t := countdown_sequence t in
      let '(time, t) := now t in
      let t := set_game_start_time t time in
      set_pc t Active
    else t
  else set_pc t Exited.

(** The test that ends the inner loop. *)
Definition round_end_check (b : Battle) (t : HardwareThread) (current_time : Q) : bool :=
  let time_elapsed := (current_time - game_start_time t)%Q in
  Py.ge time_elapsed GAME_DURATION
  || Py.le (health (PLAYER_FORTRESS b)) 0
  || bool_decide (get_current_target_ship (ENEMY_FLEET b) = None).

(** Step 1 of the inner loop: the mole timer. *)
Definition mole_timer (t : HardwareThread) (current_time : Q) : HardwareThread :=
  if bool_decide (active_mole_light_index t = None)
     || Py.gt (current_time - last_mole_time t)%Q MOLE_DURATION
  then
    let t := if bool_decide (active_mole_light_index t <> None)
             then put t MOLE_ESCAPED else t in
    spawn_next_mole t
  else t.

(** The body of [for event in self.dev.read()] in the inner loop. *)
Definition handle_key (t : HardwareThread) (event : InputEvent) : HardwareThread :=
  if is_key_down event then
    match active_mole_light_index t, KEY_TO_LIGHT_INDEX !! code event with
    | Some active, Some pressed_light_index =>
        if pressed_light_index =? active then
          let t := set_score t (score t + 1)%Q in
          let t := put t (PLAYER_HIT (score t)) in
          spawn_next_mole t
        else
          let t := set_score t (Py.max 0 (score t - (1#2))%Q) in
          let t := light_up_all_red t in
          let t := put t (PLAYER_MISS (score t)) in
          spawn_next_mole t
    | _, _ => t
    end
  else t.

Definition handle_keys (t : HardwareThread) (events : list InputEvent)
  : HardwareThread :=
  fold_left handle_key events t.

(** Step 2 of the inner loop: read input. *)
Definition read_input (t : HardwareThread) : HardwareThread :=
  if is_available t then
    let '(r, t) := read t in
    match r with
    | Events events => handle_keys t events
    | ReadError => t
    end
  else t.

(** What follows the inner loop, up to the wait for the key presses. *)
Definition game_over_cleanup (t : HardwareThread) : HardwareThread :=
  let t := turn_off_mole t (active_mole_light_index t) in
  let t := if is_available t
           then hw t [set_all 255 255 255 (Some (1#4)); show] else t in
  let t := put t (GAME_OVER (score t)) in
  set_pc t (AwaitAck 0).

(** One iteration of the inner loop, or its exit. *)
Definition active_iteration (b : Battle) (t : HardwareThread) : HardwareThread :=
  if running t then
    let '(current_time, t) := now t in
    if round_end_check b t current_time then game_over_cleanup t
    else
      let t := mole_timer t current_time in
      read_input t
  else game_over_cleanup t.

Definition keys_needed : nat := 2.

(** One iteration of the wait for the key presses, or its exit.  The
    [break] leaves the batch at its first key-down event. *)
Definition await_ack (t : HardwareThread) (keys_pressed : nat) : HardwareThread :=
  if (keys_pressed <? keys_needed)%nat && running t then
    let '(r, t) := read t in
    match r with
    | Events events =>
        if existsb is_key_down events
        then set_pc t (AwaitAck (keys_pressed + 1))
        else t
    | ReadError => hw t [sleep (5 # 100)]
    end
  else if negb (running t) then set_pc t Exited
  else
    let t := if is_available t
             then hw t [set_all 0 0 0 (Some (1#4)); show] else t in
    set_pc t RoundSetup.

(** [run], one loop iteration per step. *)
Definition step (s : Battle * HardwareThread) : Battle * HardwareThread :=
  let '(b, t) := s in
  match pc t with
  | RoundSetup => if running t then round_setup b t else (b, set_pc t Exited)
  | AwaitStart => (b, await_start t)
  | Active => (b, active_iteration b t)
  | AwaitAck keys_pressed => (b, await_ack t keys_pressed)
  | Exited => (b, t)
  end.

End Controller.

(* ------------------------------------------------------------------ *)
(** ** The two threads together *)

(** The pygame loop and the controller, sharing the battle globals (held
    in [main]) and the queue (held in [thread]). *)
Record System := mkSystem {
  main : Main;
  thread : HardwareThread
}.

(** What may happen next: the controller runs one loop iteration, the
    pygame loop takes one event off the queue and handles it, the pygame
    loop runs its win/loss test, or the main thread runs one of the two
    statements of [stop]: [self.running = False] ([stop_thread]) or the
    clearing of the strip ([stop_thread_clear]). *)
Inductive Action :=
| controller_step | consume | win_loss_check | stop_thread | stop_thread_clear.

Definition set_battle (m : Main) (b : Battle) : Main :=
  {| battle := b; game_running := game_running m; game_over := game_over m;
     last_game_score := last_game_score m; all_sprites := all_sprites m |}.

Definition set_event_queue (t : HardwareThread) (q : Queue.t) : HardwareThread :=
  mkThread q (running t) (is_available t) (score t)
           (active_mole_light_index t) (last_mole_time t) (game_start_time t)
           (pc t) (ticks t) (draws t) (polls t) (hw_log t).

Section Threads.

Variable ecodes : Ecodes.
Variable world : World.

(** One action; the event the pygame loop took off the queue, if any,
    is returned next to the new state. *)
Definition sys_step (s : System) (a : Action) : System * option GameEvent :=
  match a with
  | controller_step =>
      let '(b, t) := step ecodes world (battle (main s), thread s) in
      ({| main := set_battle (main s) b; thread := t |}, None)
  | consume =>
      match Queue.get_nowait (event_queue (thread s)) with
      | Some (event, q) =>
          ({| main := process_event (main s) event;
              thread := set_event_queue (thread s) q |}, Some event)
      | None => (s, None)
      end
  | win_loss_check =>
      ({| main := check_win_loss (main s); thread := thread s |}, None)
  | stop_thread =>
      ({| main := main s; thread := stop_set_running (thread s) |}, None)
  | stop_thread_clear =>
      ({| main := main s; thread := stop_clear_strip (thread s) |}, None)
  end.

(** A schedule of actions; the events consumed along it, oldest first. *)
Fixpoint sys_run (s : System) (actions : list Action) : System * list GameEvent :=
  match actions with
  | [] => (s, [])
  | a :: rest =>
      let '(s1, e) := sys_step s a in
      let '(s2, es) := sys_run s1 rest in
      (s2, match e with Some e => e :: es | None => es end)
  end.

End Threads.

(** The state [main] reaches before its loop: the fleet is built, then
    the controller is created on the empty queue.  The world this
    controller runs in has a device exactly when the setup assigned
    [self.dev]: [has_dev world = dev_assigned o]. *)
Definition sys_init (o : SetupOutcome) : System :=
  {| main := Main_init (initialize_fleet_structure Battle_globals);
     thread := HardwareThread_init o [] |}.

(* ------------------------------------------------------------------ *)
(** * Properties *)

(** ** The current target *)

Lemma get_current_target_ship_Some (fleet : list EnemyShip) (i : nat) :
  get_current_target_ship fleet = Some i <->
  (exists ship, fleet !! i = Some ship /\ is_destroyed ship = false) /\
  (forall j ship, (j < i)%nat -> fleet !! j = Some ship -> is_destroyed ship = true).
Proof.
  revert i. induction fleet as [|s rest IH]; intros i; simpl.
  - split; [done | intros [[ship [H _]] _]; done].
  - destruct (is_destroyed s) eqn:D; simpl.
    + destruct i as [|i].
      * split.
        -- destruct (get_current_target_ship rest); done.
        -- intros [[ship [H Hd]] _]. simpl in H. congruence.
      * split.
        -- intros H. destruct (get_current_target_ship rest) as [k|] eqn:E; [|done].
           simpl in H. assert (k = i) as -> by congruence.
           destruct (proj1 (IH i) eq_refl) as [Hex Hlt]. split; [done|].
           intros [|j] ship Hj Hl; simpl in Hl; [congruence|].
           eapply Hlt; [|done]. lia.
        -- intros [Hex Hlt].
           rewrite (proj2 (IH i)); [done|]. split; [done|].
           intros j ship Hj Hl. apply (Hlt (S j) ship); [lia|done].
    + split.
      * intros [= <-]. split; [by exists s|]. intros; lia.
      * intros [_ Hlt]. destruct i as [|i]; [done|].
        specialize (Hlt 0%nat s). simpl in Hlt. rewrite Hlt in D; [done|lia|done].
Qed.

Lemma get_current_target_ship_None (fleet : list EnemyShip) :
  get_current_target_ship fleet = None <->
  Forall (fun ship => is_destroyed ship = true) fleet.
Proof.
  induction fleet as [|s rest IH]; simpl.
  - split; [constructor | done].
  - destruct (is_destroyed s) eqn:D; simpl.
    + destruct (get_current_target_ship rest) as [k|] eqn:E; simpl.
      * split; [done|]. intros H. inversion H; subst.
        by apply IH in H3.
      * split; [|done]. intros _. constructor; [done | by apply IH].
    + split; [done|]. intros H. inversion H; subst. congruence.
Qed.

(** ** Damage, healing and the handling of one event *)

(** Every ship has a positive [max_health], as every row of [SHIP_DATA]
    has; [get_current_sprite] divides by it. *)
Definition fleet_ok (fleet : list EnemyShip) : Prop :=
  Forall (fun ship => 0 < max_health ship) fleet.

Lemma take_damage_afloat (s : EnemyShip) :
  is_destroyed s = false ->
  let s' := fst (take_damage s) in
  name s' = name s /\ max_health s' = max_health s /\
  current_health s' = current_health s - 1 /\
  is_destroyed s' = (current_health s - 1 <=? 0).
Proof.
  intros D. unfold take_damage. rewrite D. simpl.
  destruct (current_health s - 1 <=? 0) eqn:E; simpl; rewrite ?D; done.
Qed.

Lemma take_damage_sunk (s : EnemyShip) :
  is_destroyed s = true -> take_damage s = (s, None).
Proof. intros D. unfold take_damage. by rewrite D. Qed.

(** Changing the current target: it stays the target while it is afloat,
    and the search moves past it once it is destroyed. *)
Lemma get_current_target_ship_alter (f : EnemyShip -> EnemyShip)
      (fleet : list EnemyShip) (i : nat) (ship : EnemyShip) :
  get_current_target_ship fleet = Some i ->
  fleet !! i = Some ship ->
  get_current_target_ship (alter f i fleet) =
    if is_destroyed (f ship)
    then option_map (fun k => (S i + k)%nat)
                    (get_current_target_ship (drop (S i) fleet))
    else Some i.
Proof.
  revert i. induction fleet as [|s rest IH]; intros i Ht Hl; [done|].
  simpl in Ht. destruct (is_destroyed s) eqn:D; simpl in Ht.
  - destruct (get_current_target_ship rest) as [k|] eqn:E; [|done].
    simpl in Ht. injection Ht as <-. simpl in Hl.
    change (alter f (S k) (s :: rest)) with (s :: alter f k rest).
    simpl. rewrite D. simpl. rewrite (IH k eq_refl Hl).
    destruct (is_destroyed (f ship)); [|done].
    destruct (get_current_target_ship (drop (S k) rest)); done.
  - injection Ht as <-. simpl in Hl. injection Hl as ->.
    simpl. destruct (is_destroyed (f ship)) eqn:D'; simpl; [|done].
    rewrite drop_0. destruct (get_current_target_ship rest); done.
Qed.

Lemma heal_spec (f : Fortress) :
  (health (heal f) == Qmin (health f + (1#2)) (fortress_max_health f))%Q /\
  fortress_max_health (heal f) = fortress_max_health f.
Proof. split; [apply Py.min_Qmin | done]. Qed.

Lemma damage_spec (f : Fortress) :
  (health (damage f) == Qmax 0 (health f - 1))%Q /\
  fortress_max_health (damage f) = fortress_max_health f.
Proof. split; [apply Py.max_Qmax | done]. Qed.

(** C3.  What the pygame loop does with one event.  On a [PLAYER_HIT],
    when a ship is still afloat, the first such ship loses exactly one
    point of health and is marked destroyed exactly when that brings it to
    0 or below, after which the current target is the next ship afloat
    behind it; the fortress gains 0.5 up to its maximum.  On a
    [PLAYER_MISS] or [MOLE_ESCAPED], when a ship is still afloat and the
    fortress health is positive, the fortress loses 1 down to 0 and the
    fleet is untouched.  When the guard fails the state is unchanged. *)
Theorem C3_event_consumption (m : Main) (sc : Q) :
  fleet_ok (ENEMY_FLEET (battle m)) ->
  let fleet := ENEMY_FLEET (battle m) in
  let fort := PLAYER_FORTRESS (battle m) in
  (forall i, get_current_target_ship fleet = Some i ->
     let m' := process_event m (PLAYER_HIT sc) in
     exists ship ship',
       fleet !! i = Some ship /\ is_destroyed ship = false /\
       ENEMY_FLEET (battle m') = <[i := ship']> fleet /\
       name ship' = name ship /\ max_health ship' = max_health ship /\
       current_health ship' = current_health ship - 1 /\
       (is_destroyed ship' = true <-> current_health ship' <= 0) /\
       get_current_target_ship (ENEMY_FLEET (battle m')) =
         (if is_destroyed ship'
          then option_map (fun k => (S i + k)%nat)
                          (get_current_target_ship (drop (S i) fleet))
          else Some i) /\
       (health (PLAYER_FORTRESS (battle m'))
          == Qmin (health fort + (1#2)) (fortress_max_health fort))%Q /\
       fortress_max_health (PLAYER_FORTRESS (battle m')) = fortress_max_health fort)
  /\ (get_current_target_ship fleet = None ->
      process_event m (PLAYER_HIT sc) = m)
  /\ (forall event, event = PLAYER_MISS sc \/ event = MOLE_ESCAPED ->
      let m' := process_event m event in
      (get_current_target_ship fleet <> None /\ (0 < health fort)%Q ->
         ENEMY_FLEET (battle m') = fleet /\
         (health (PLAYER_FORTRESS (battle m')) == Qmax 0 (health fort - 1))%Q /\
         fortress_max_health (PLAYER_FORTRESS (battle m')) = fortress_max_health fort)
      /\ (get_current_target_ship fleet = None \/ (health fort <= 0)%Q -> m' = m)).
Proof.
  intros _ fleet fort. split; [|split].
  - intros i Hi m'.
    destruct (proj1 (get_current_target_ship_Some fleet i) Hi) as [[ship [Hl D]] _].
    exists ship, (fst (take_damage ship)).
    destruct (take_damage_afloat ship D) as (Hn & Hm & Hc & Hd).
    assert (ENEMY_FLEET (battle m')
            = alter (fun s => fst (take_damage s)) i fleet) as Hfleet.
    { subst m'. simpl. fold fleet. by rewrite Hi. }
    assert (PLAYER_FORTRESS (battle m') = heal fort) as Hfort.
    { subst m'. simpl. fold fleet. by rewrite Hi. }
    repeat split; try done.
    + rewrite Hfleet. apply list_eq. intros j.
      destruct (decide (j = i)) as [->|Hne].
      * rewrite list_lookup_alter_eq, Hl. simpl.
        rewrite list_lookup_insert_eq; [done|]. by eapply lookup_lt_Some.
      * rewrite list_lookup_alter_ne by done.
        by rewrite list_lookup_insert_ne by done.
    + rewrite Hd, Hc. intros H. by apply Z.leb_le.
    + rewrite Hd, Hc. intros H. by apply Z.leb_le.
    + rewrite Hfleet.
      apply (get_current_target_ship_alter
               (fun s => fst (take_damage s)) fleet i ship Hi Hl).
    + rewrite Hfort. apply heal_spec.
    + by rewrite Hfort.
  - intros Hn. simpl. fold fleet. by rewrite Hn.
  - intros event Hev m'. split.
    + intros [Ht Hh].
      destruct (get_current_target_ship fleet) as [i|] eqn:Hi; [|done].
      assert (m' = {| battle := {| ENEMY_FLEET := fleet; PLAYER_FORTRESS := damage fort |};
                      game_running := game_running m; game_over := game_over m;
                      last_game_score := last_game_score m;
                      all_sprites := all_sprites m ++ [MISS i] |}) as ->.
      { subst m'. apply Py.gt_true in Hh.
        destruct Hev as [-> | ->]; simpl; fold fleet fort; by rewrite Hi, Hh. }
      simpl. split; [done|]. apply damage_spec.
    + intros Hg. subst m'.
      destruct Hev as [-> | ->]; simpl; fold fleet fort;
        (destruct (get_current_target_ship fleet) as [i|] eqn:Hi; [|done]);
        (destruct Hg as [Hg|Hg]; [done|]);
        apply Py.gt_false in Hg; by rewrite Hg.
Qed.

(** ** Health stays within bounds *)

Definition ship_in_bounds (s : EnemyShip) : Prop :=
  0 <= current_health s <= max_health s.

Definition fortress_in_bounds (f : Fortress) : Prop :=
  (0 <= health f)%Q /\ (health f <= fortress_max_health f)%Q.

Definition health_in_bounds (b : Battle) : Prop :=
  Forall ship_in_bounds (ENEMY_FLEET b) /\ fortress_in_bounds (PLAYER_FORTRESS b).

(** The bound alone is not preserved by [take_damage] (a ship afloat at
    health 0 would go to -1); what the operations preserve is the bound
    together with: a ship afloat has positive health. *)
Definition ship_ok (s : EnemyShip) : Prop :=
  0 < max_health s /\ ship_in_bounds s /\
  (is_destroyed s = false -> 0 < current_health s).

Definition battle_ok (b : Battle) : Prop :=
  Forall ship_ok (ENEMY_FLEET b) /\ fortress_in_bounds (PLAYER_FORTRESS b).

Lemma battle_ok_in_bounds (b : Battle) : battle_ok b -> health_in_bounds b.
Proof.
  intros [Hf Hp]. split; [|done].
  eapply Forall_impl; [exact Hf|]. by intros s (_ & H & _).
Qed.

Lemma battle_ok_fleet_ok (b : Battle) : battle_ok b -> fleet_ok (ENEMY_FLEET b).
Proof.
  intros [Hf _]. eapply Forall_impl; [exact Hf|]. by intros s (H & _).
Qed.

Lemma take_damage_ok (s : EnemyShip) : ship_ok s -> ship_ok (fst (take_damage s)).
Proof.
  intros (Hm & [Hlo Hhi] & Hpos).
  destruct (is_destroyed s) eqn:D.
  - rewrite take_damage_sunk by done. simpl. repeat split; try done.
    intros. congruence.
  - destruct (take_damage_afloat s D) as (_ & Hmax & Hc & Hd).
    specialize (Hpos eq_refl).
    unfold ship_ok, ship_in_bounds. rewrite Hmax, Hc, Hd.
    repeat split; lia.
Qed.

Lemma reset_ship_ok (s : EnemyShip) : 0 < max_health s -> ship_ok (reset_ship s).
Proof. intros H. unfold ship_ok, ship_in_bounds. simpl. lia. Qed.

Lemma heal_in_bounds (f : Fortress) : fortress_in_bounds f -> fortress_in_bounds (heal f).
Proof.
  intros [Hlo Hhi]. unfold fortress_in_bounds, heal. simpl.
  destruct (Py.min_cases (health f + (1#2)) (fortress_max_health f))
    as [[H ->]|[H ->]]; split; lra.
Qed.

Lemma damage_in_bounds (f : Fortress) :
  fortress_in_bounds f -> fortress_in_bounds (damage f).
Proof.
  intros [Hlo Hhi]. unfold fortress_in_bounds, damage. simpl.
  destruct (Py.max_cases 0 (health f - 1)) as [[H ->]|[H ->]]; split; lra.
Qed.

Lemma reset_game_for_new_round_ok (b : Battle) :
  battle_ok b -> battle_ok (reset_game_for_new_round b).
Proof.
  intros Hb. unfold reset_game_for_new_round.
  destruct (ENEMY_FLEET b) as [|s rest] eqn:E; [done|].
  destruct Hb as [Hf [Hlo Hhi]]. rewrite E in Hf. split; simpl.
  - change (Forall ship_ok (map reset_ship (s :: rest))).
    apply Forall_fmap. eapply Forall_impl; [exact Hf|].
    intros x (Hx & _). by apply reset_ship_ok.
  - split; simpl; lra.
Qed.

Lemma process_event_ok (m : Main) (event : GameEvent) :
  battle_ok (battle m) -> battle_ok (battle (process_event m event)).
Proof.
  intros [Hf Hp]. destruct event; simpl; try done.
  - destruct (get_current_target_ship _) as [i|]; [|done].
    destruct (Py.gt _ 0); [|done]. split; [done|]. by apply damage_in_bounds.
  - destruct (get_current_target_ship _) as [i|]; [|done]. split; simpl.
    + apply Forall_alter; [done|]. intros s _ Hs. by apply take_damage_ok.
    + by apply heal_in_bounds.
  - destruct (get_current_target_ship _) as [i|]; [|done].
    destruct (Py.gt _ 0); [|done]. split; [done|]. by apply damage_in_bounds.
Qed.

Lemma check_win_loss_battle (m : Main) : battle (check_win_loss m) = battle m.
Proof. unfold check_win_loss. by destruct (_ && _). Qed.

Lemma initial_battle_ok : battle_ok (initialize_fleet_structure Battle_globals).
Proof.
  split.
  - unfold ship_ok, ship_in_bounds. simpl. repeat constructor; simpl; lia.
  - split; simpl; lra.
Qed.

Section Bounds.

Variable ecodes : Ecodes.
Variable world : World.

Lemma step_battle (b : Battle) (t : HardwareThread) :
  fst (step ecodes world (b, t)) =
    if bool_decide (pc t = RoundSetup) && running t
    then reset_game_for_new_round b else b.
Proof.
  unfold step. destruct (pc t); simpl; try done.
  destruct (running t); done.
Qed.

Lemma sys_step_ok (s : System) (a : Action) :
  battle_ok (battle (main s)) ->
  battle_ok (battle (main (fst (sys_step ecodes world s a)))).
Proof.
  intros H. destruct a; unfold sys_step.
  - pose proof (step_battle (battle (main s)) (thread s)) as E.
    destruct (step ecodes world (battle (main s), thread s)) as [b t].
    cbn [fst main battle set_battle] in *. subst b.
    destruct (_ && _); [by apply reset_game_for_new_round_ok | done].
  - destruct (Queue.get_nowait _) as [[e q]|]; cbn [fst main]; [|done].
    by apply process_event_ok.
  - cbn [fst main]. by rewrite check_win_loss_battle.
  - done.
  - done.
Qed.

Lemma sys_run_ok (actions : list Action) (s : System) :
  battle_ok (battle (main s)) ->
  battle_ok (battle (main (fst (sys_run ecodes world s actions)))).
Proof.
  revert s. induction actions as [|a rest IH]; intros s H; [done|].
  simpl. pose proof (sys_step_ok s a H) as H1.
  destruct (sys_step ecodes world s a) as [s1 e].
  specialize (IH s1 H1).
  destruct (sys_run ecodes world s1 rest) as [s2 es]. done.
Qed.

(** C4.  Start with the fleet and fortress as [main] builds them, the
    controller in any state and any events on the queue.  In every state
    the two threads reach from there, under any schedule, the health of
    every ship and of the fortress is between 0 and its maximum; and from
    such a state every operation that changes health (the handling of any
    event, with its ship damage, heal and fortress damage, and the round
    reset) leads to a state within the bounds again. *)
Theorem C4_health_in_bounds (s0 : System) (actions : list Action) :
  battle (main s0) = initialize_fleet_structure Battle_globals ->
  let s := fst (sys_run ecodes world s0 actions) in
  health_in_bounds (battle (main s)) /\
  (forall event, health_in_bounds (battle (process_event (main s) event))) /\
  health_in_bounds (reset_game_for_new_round (battle (main s))).
Proof.
  intros H0 s.
  assert (battle_ok (battle (main s))) as H.
  { apply sys_run_ok. rewrite H0. apply initial_battle_ok. }
  split; [|split].
  - by apply battle_ok_in_bounds.
  - intros event. by apply battle_ok_in_bounds, process_event_ok.
  - by apply battle_ok_in_bounds, reset_game_for_new_round_ok.
Qed.

End Bounds.

(** ** Fleet progression *)

(** Between two fleets: same length, and what was destroyed stays so. *)
Definition sunk_stays_sunk (fleet fleet' : list EnemyShip) : Prop :=
  length fleet' = length fleet /\
  forall i ship, fleet !! i = Some ship -> is_destroyed ship = true ->
    exists ship', fleet' !! i = Some ship' /\ is_destroyed ship' = true.

Lemma sunk_stays_sunk_refl (fleet : list EnemyShip) : sunk_stays_sunk fleet fleet.
Proof. split; [done|]. intros i ship H D. by exists ship. Qed.

Lemma sunk_stays_sunk_trans (f1 f2 f3 : list EnemyShip) :
  sunk_stays_sunk f1 f2 -> sunk_stays_sunk f2 f3 -> sunk_stays_sunk f1 f3.
Proof.
  intros [L12 H12] [L23 H23]. split; [congruence|].
  intros i ship H D. destruct (H12 i ship H D) as (s2 & H2 & D2).
  by apply (H23 i s2).
Qed.

Lemma process_event_sunk (m : Main) (event : GameEvent) :
  sunk_stays_sunk (ENEMY_FLEET (battle m))
                  (ENEMY_FLEET (battle (process_event m event))).
Proof.
  destruct event; simpl; try apply sunk_stays_sunk_refl.
  - destruct (get_current_target_ship _) as [i|]; [|apply sunk_stays_sunk_refl].
    destruct (Py.gt _ 0); apply sunk_stays_sunk_refl.
  - destruct (get_current_target_ship _) as [i|] eqn:Hi; [|apply sunk_stays_sunk_refl].
    simpl. split; [apply length_alter|].
    intros j ship Hj D. exists ship. split; [|done].
    destruct (proj1 (get_current_target_ship_Some _ _) Hi) as [[s0 [H0 D0]] _].
    rewrite list_lookup_alter_ne; [done|]. intros ->. congruence.
  - destruct (get_current_target_ship _) as [i|]; [|apply sunk_stays_sunk_refl].
    destruct (Py.gt _ 0); apply sunk_stays_sunk_refl.
Qed.

(** With the destroyed ships staying destroyed, the search for the
    current target can only move towards the back of the fleet. *)
Lemma sunk_stays_sunk_target (fleet fleet' : list EnemyShip) :
  sunk_stays_sunk fleet fleet' ->
  (forall i ship, fleet !! i = Some ship -> is_destroyed ship = true ->
     get_current_target_ship fleet' <> Some i) /\
  (forall i j, get_current_target_ship fleet = Some i ->
     get_current_target_ship fleet' = Some j -> (i <= j)%nat) /\
  (get_current_target_ship fleet = None ->
     get_current_target_ship fleet' = None).
Proof.
  intros [L H]. split; [|split].
  - intros i ship Hi D Ht.
    destruct (proj1 (get_current_target_ship_Some _ _) Ht) as [[s' [H' D']] _].
    destruct (H i ship Hi D) as (s'' & H'' & D''). congruence.
  - intros i j Hi Hj.
    destruct (proj1 (get_current_target_ship_Some _ _) Hi) as [[s [Hs Ds]] Hlt].
    destruct (proj1 (get_current_target_ship_Some _ _) Hj) as [[s' [Hs' Ds']] _].
    destruct (decide (i <= j)%nat) as [|Hn]; [done|]. exfalso.
    assert (is_Some (fleet !! j)) as [sj Hsj].
    { apply lookup_lt_is_Some. apply lookup_lt_Some in Hs. lia. }
    assert (is_destroyed sj = true) as Dj by (apply (Hlt j sj); [lia|done]).
    destruct (H j sj Hsj Dj) as (s'' & H'' & D''). congruence.
  - intros Hn. apply get_current_target_ship_None.
    apply get_current_target_ship_None in Hn.
    apply Forall_lookup. intros i s' Hs'.
    assert (is_Some (fleet !! i)) as [s Hs].
    { apply lookup_lt_is_Some. apply lookup_lt_Some in Hs'. lia. }
    assert (is_destroyed s = true) as D
      by (exact (proj1 (Forall_lookup _ _) Hn i s Hs)).
    destruct (H i s Hs D) as (s'' & H'' & D''). congruence.
Qed.

Section Progression.

Variable ecodes : Ecodes.
Variable world : World.

(** One action of either thread inside a round: any action but the
    controller running the top of its outer loop, where the reset is. *)
Definition round_step (s s' : System) : Prop :=
  exists a, s' = fst (sys_step ecodes world s a) /\
            ~ (a = controller_step /\ pc (thread s) = RoundSetup).

Lemma round_step_sunk (s s' : System) :
  round_step s s' ->
  sunk_stays_sunk (ENEMY_FLEET (battle (main s))) (ENEMY_FLEET (battle (main s'))).
Proof.
  intros (a & -> & Hn). destruct a; unfold sys_step.
  - pose proof (step_battle ecodes world (battle (main s)) (thread s)) as E.
    destruct (step ecodes world (battle (main s), thread s)) as [b t].
    cbn [fst main battle set_battle] in *. subst b.
    rewrite bool_decide_eq_false_2; [apply sunk_stays_sunk_refl|].
    intros Hpc. by apply Hn.
  - destruct (Queue.get_nowait _) as [[e q]|]; cbn [fst main];
      [apply process_event_sunk | apply sunk_stays_sunk_refl].
  - cbn [fst main]. rewrite check_win_loss_battle. apply sunk_stays_sunk_refl.
  - apply sunk_stays_sunk_refl.
  - apply sunk_stays_sunk_refl.
Qed.

Lemma round_steps_sunk (s s' : System) :
  rtc round_step s s' ->
  sunk_stays_sunk (ENEMY_FLEET (battle (main s))) (ENEMY_FLEET (battle (main s'))).
Proof.
  induction 1 as [s|s1 s2 s3 H12 _ IH]; [apply sunk_stays_sunk_refl|].
  eapply sunk_stays_sunk_trans; [|exact IH]. by apply round_step_sunk.
Qed.

(** C5.  The current target is the first ship of the fleet that is not
    destroyed.  Along any run of the two threads that stays inside one
    round (no reset), a ship that was destroyed is not the current
    target again, the position of the current target does not decrease,
    and once no target is left none comes back. *)
Theorem C5_fleet_progression (s s' : System) :
  fleet_ok (ENEMY_FLEET (battle (main s))) ->
  rtc round_step s s' ->
  let fleet := ENEMY_FLEET (battle (main s)) in
  let fleet' := ENEMY_FLEET (battle (main s')) in
  (forall i, get_current_target_ship fleet' = Some i <->
     (exists ship, fleet' !! i = Some ship /\ is_destroyed ship = false) /\
     (forall j ship, (j < i)%nat -> fleet' !! j = Some ship ->
                     is_destroyed ship = true)) /\
  (forall i ship, fleet !! i = Some ship -> is_destroyed ship = true ->
     get_current_target_ship fleet' <> Some i) /\
  (forall i j, get_current_target_ship fleet = Some i ->
     get_current_target_ship fleet' = Some j -> (i <= j)%nat) /\
  (get_current_target_ship fleet = None ->
     get_current_target_ship fleet' = None).
Proof.
  intros _ Hrun fleet fleet'. split.
  - intros i. apply get_current_target_ship_Some.
  - apply sunk_stays_sunk_target. by apply round_steps_sunk.
Qed.

End Progression.

(** ** What the controller's helpers change *)

(** [turn_off_mole], [light_up_mole] and [light_up_all_red] only add to
    the record of hardware calls, and add nothing when the hardware is
    unavailable. *)
Definition lights_only (t t' : HardwareThread) : Prop :=
  exists calls, t' = hw t calls /\ (is_available t = false -> calls = []) /\
                Forall (fun c => c <> dev_read) calls.

Lemma hw_nil (t : HardwareThread) : hw t [] = t.
Proof. destruct t. unfold hw. simpl. by rewrite app_nil_r. Qed.

Lemma lights_only_refl (t : HardwareThread) : lights_only t t.
Proof. exists []. by rewrite hw_nil. Qed.

Lemma light_up_mole_lights (t : HardwareThread) (i : Z) :
  lights_only t (light_up_mole t i).
Proof.
  unfold light_up_mole. destruct (is_available t) eqn:A; [|apply lights_only_refl].
  eexists. split; [reflexivity|]. split; [intros; congruence|].
  apply Forall_app. split; [|by repeat constructor].
  apply Forall_fmap, Forall_true. done.
Qed.

Lemma turn_off_mole_lights (t : HardwareThread) (i : option Z) :
  lights_only t (turn_off_mole t i).
Proof.
  unfold turn_off_mole. destruct i as [i|]; [|apply lights_only_refl].
  destruct (is_available t) eqn:A; [|apply lights_only_refl].
  eexists. split; [reflexivity|]. split; [intros; congruence|].
  apply Forall_app. split; [|by repeat constructor].
  apply Forall_fmap, Forall_true. done.
Qed.

Lemma light_up_all_red_lights (t : HardwareThread) :
  lights_only t (light_up_all_red t).
Proof.
  unfold light_up_all_red. destruct (is_available t) eqn:A; [|apply lights_only_refl].
  eexists. split; [reflexivity|]. split; [intros; congruence|]. by repeat constructor.
Qed.

(** Calls on the strip and sleeps, whatever the mode. *)
Definition hw_only (t t' : HardwareThread) : Prop :=
  exists calls, t' = hw t calls /\ Forall (fun c => c <> dev_read) calls.

Lemma hw_hw (t : HardwareThread) (a b : list HwCall) :
  hw (hw t a) b = hw t (a ++ b).
Proof. unfold hw. cbn. by rewrite app_assoc. Qed.

Lemma hw_only_hw (t : HardwareThread) (calls : list HwCall) :
  Forall (fun c => c <> dev_read) calls -> hw_only t (hw t calls).
Proof. intros H. by exists calls. Qed.

Lemma hw_only_trans (t1 t2 t3 : HardwareThread) :
  hw_only t1 t2 -> hw_only t2 t3 -> hw_only t1 t3.
Proof.
  intros (a & -> & Fa) (b & -> & Fb). exists (a ++ b).
  split; [apply hw_hw | by apply Forall_app].
Qed.

Lemma lights_only_hw_only (t t' : HardwareThread) :
  lights_only t t' -> hw_only t t'.
Proof. intros (c & -> & _ & F). by exists c. Qed.

Lemma countdown_flash_hw (t : HardwareThread) (i : Z) :
  hw_only t (countdown_flash t i).
Proof.
  unfold countdown_flash.
  set (t1 := light_up_mole t (i - 1)).
  set (t2 := hw t1 [sleep COUNTDOWN_FLASH_DURATION]).
  set (t3 := turn_off_mole t2 (Some (i - 1))).
  apply (hw_only_trans _ t1); [apply lights_only_hw_only, light_up_mole_lights|].
  apply (hw_only_trans _ t2); [apply hw_only_hw; by repeat constructor|].
  apply (hw_only_trans _ t3); [apply lights_only_hw_only, turn_off_mole_lights|].
  apply hw_only_hw. by repeat constructor.
Qed.

Section Helpers.

Variable ecodes : Ecodes.
Variable world : World.

(** [spawn_next_mole] draws one index and one time stamp, makes the
    index the active one and puts one [MOLE_SPAWN] on the queue. *)
Lemma spawn_next_mole_spec (t : HardwareThread) :
  let t' := spawn_next_mole world t in
  let new_mole_index := random_randint world (draws t) in
  event_queue t' = event_queue t ++ [MOLE_SPAWN new_mole_index] /\
  active_mole_light_index t' = Some new_mole_index /\
  last_mole_time t' = time_time world (ticks t) /\
  score t' = score t /\ pc t' = pc t /\ running t' = running t /\
  is_available t' = is_available t /\ game_start_time t' = game_start_time t /\
  ticks t' = S (ticks t) /\ draws t' = S (draws t) /\ polls t' = polls t /\
  (exists calls, hw_log t' = hw_log t ++ calls /\
                 (is_available t = false -> calls = []) /\
                 Forall (fun c => c <> dev_read) calls).
Proof.
  unfold spawn_next_mole.
  destruct (turn_off_mole_lights t (active_mole_light_index t))
    as (c1 & -> & Hc1 & Fc1).
  cbn [randint draws hw event_queue running is_available score
       active_mole_light_index last_mole_time game_start_time pc ticks polls
       hw_log set_active_mole_light_index].
  match goal with |- context [light_up_mole ?x ?i] =>
    destruct (light_up_mole_lights x i) as (c2 & -> & Hc2 & Fc2) end.
  cbn. repeat split; try done.
  exists (c1 ++ c2). rewrite app_assoc. split; [done|]. split.
  - intros A. rewrite Hc1, Hc2; done.
  - apply Forall_app. done.
Qed.

(** What a key event is to the inner loop: a hit, a miss, or nothing
    (not a key-down, no target lit, or a key outside the nine). *)
Inductive Verdict := hit | miss | ignored.

Definition verdict (t : HardwareThread) (event : InputEvent) : Verdict :=
  if is_key_down ecodes event then
    match active_mole_light_index t, KEY_TO_LIGHT_INDEX ecodes !! code event with
    | Some active, Some pressed_light_index =>
        if pressed_light_index =? active then hit else miss
    | _, _ => ignored
    end
  else ignored.

(** The state after an outcome event followed by the spawn of the next
    mole. *)
Definition outcome_then_spawn (t t' : HardwareThread) (new_score : Q)
           (e : GameEvent) : Prop :=
  let new_mole_index := random_randint world (draws t) in
  score t' = new_score /\
  event_queue t' = event_queue t ++ [e; MOLE_SPAWN new_mole_index] /\
  active_mole_light_index t' = Some new_mole_index /\
  last_mole_time t' = time_time world (ticks t) /\
  pc t' = pc t /\ running t' = running t /\
  is_available t' = is_available t /\ game_start_time t' = game_start_time t /\
  ticks t' = S (ticks t) /\ draws t' = S (draws t) /\ polls t' = polls t /\
  (exists calls, hw_log t' = hw_log t ++ calls /\
                 (is_available t = false -> calls = []) /\
                 Forall (fun c => c <> dev_read) calls).

Lemma handle_key_spec (t : HardwareThread) (event : InputEvent) :
  match verdict t event with
  | hit =>
      outcome_then_spawn t (handle_key ecodes world t event)
                         (score t + 1)%Q (PLAYER_HIT (score t + 1)%Q)
  | miss =>
      outcome_then_spawn t (handle_key ecodes world t event)
                         (Py.max 0 (score t - (1#2))%Q)
                         (PLAYER_MISS (Py.max 0 (score t - (1#2))%Q))
  | ignored => handle_key ecodes world t event = t
  end.
Proof.
  unfold verdict, handle_key.
  destruct (is_key_down ecodes event); [|done].
  destruct (active_mole_light_index t) as [active|]; [|done].
  destruct (KEY_TO_LIGHT_INDEX ecodes !! code event) as [pressed|]; [|done].
  destruct (pressed =? active).
  - match goal with |- context [spawn_next_mole world ?x] =>
      pose proof (spawn_next_mole_spec x) as H; cbv zeta in H;
      remember (spawn_next_mole world x) as t' eqn:Et' end.
    cbn in H. destruct H as (H1&H2&H3&H4&H5&H6&H7&H8&H9&H10&H11&H12).
    unfold outcome_then_spawn. rewrite H1, H2, H3, H4, H5, H6, H7, H8, H9, H10, H11.
    rewrite <- app_assoc. repeat split; done.
  - destruct (light_up_all_red_lights
                (set_score t (Py.max 0 (score t - (1 # 2))%Q)))
      as (c & E & Hc & Fc).
    rewrite E.
    match goal with |- context [spawn_next_mole world ?x] =>
      pose proof (spawn_next_mole_spec x) as H; cbv zeta in H;
      remember (spawn_next_mole world x) as t' eqn:Et' end.
    cbn in H. destruct H as (H1&H2&H3&H4&H5&H6&H7&H8&H9&H10&H11&H12).
    unfold outcome_then_spawn. rewrite H1, H2, H3, H4, H5, H6, H7, H8, H9, H10, H11.
    rewrite <- app_assoc. repeat split; try done.
    destruct H12 as (c' & -> & Hc' & Fc').
    exists (c ++ c'). rewrite app_assoc. split; [done|]. split.
    + intros A. rewrite Hc, Hc'; done.
    + by apply Forall_app.
Qed.

End Helpers.

(** ** The inner loop *)

Section InnerLoop.

Variable ecodes : Ecodes.
Variable world : World.

(** What key handling and the mole timer leave alone. *)
Definition same_frame (t t' : HardwareThread) : Prop :=
  pc t' = pc t /\ running t' = running t /\
  is_available t' = is_available t /\
  game_start_time t' = game_start_time t /\ polls t' = polls t.

Lemma same_frame_refl (t : HardwareThread) : same_frame t t.
Proof. by repeat split. Qed.

Lemma same_frame_trans (t1 t2 t3 : HardwareThread) :
  same_frame t1 t2 -> same_frame t2 t3 -> same_frame t1 t3.
Proof.
  intros (A1&A2&A3&A4&A5) (B1&B2&B3&B4&B5). repeat split; congruence.
Qed.

Lemma outcome_then_spawn_frame (t t' : HardwareThread) (q : Q) (e : GameEvent) :
  outcome_then_spawn world t t' q e -> same_frame t t'.
Proof. intros (_&_&_&_&H1&H2&H3&H4&_&_&H5&_). by repeat split. Qed.

Lemma handle_key_frame (t : HardwareThread) (event : InputEvent) :
  same_frame t (handle_key ecodes world t event).
Proof.
  pose proof (handle_key_spec ecodes world t event) as H.
  destruct (verdict ecodes t event).
  - by eapply outcome_then_spawn_frame.
  - by eapply outcome_then_spawn_frame.
  - rewrite H. apply same_frame_refl.
Qed.

Lemma handle_keys_frame (events : list InputEvent) (t : HardwareThread) :
  same_frame t (handle_keys ecodes world t events).
Proof.
  revert t. induction events as [|e es IH]; intros t; [apply same_frame_refl|].
  eapply same_frame_trans; [apply handle_key_frame | apply IH].
Qed.

(** The mole timer: nothing when a mole is lit and young enough;
    otherwise an escape event, if a mole was lit, and a spawn. *)
Lemma mole_timer_spec (t : HardwareThread) (current_time : Q) :
  let t' := mole_timer world t current_time in
  let due := bool_decide (active_mole_light_index t = None)
             || Py.gt (current_time - last_mole_time t)%Q MOLE_DURATION in
  (due = false -> t' = t) /\
  (due = true ->
     event_queue t' =
       event_queue t
       ++ (if bool_decide (active_mole_light_index t <> None)
           then [MOLE_ESCAPED] else [])
       ++ [MOLE_SPAWN (random_randint world (draws t))] /\
     active_mole_light_index t' = Some (random_randint world (draws t)) /\
     draws t' = S (draws t) /\ ticks t' = S (ticks t)) /\
  score t' = score t /\ same_frame t t' /\
  (is_available t = false -> hw_log t' = hw_log t).
Proof.
  intros t' due. subst t'. unfold mole_timer. fold due.
  destruct due; [|by repeat split].
  split; [done|].
  destruct (bool_decide (active_mole_light_index t <> None));
    match goal with |- context [spawn_next_mole world ?x] =>
      pose proof (spawn_next_mole_spec world x) as H; cbv zeta in H;
      remember (spawn_next_mole world x) as t' eqn:Et' end;
    cbn in H; destruct H as (H1&H2&H3&H4&H5&H6&H7&H8&H9&H10&H11&H12);
    unfold Queue.put in H1; rewrite <- ?app_assoc in H1;
    (split; [intros _; by repeat split|]);
    (split; [done|]); (split; [by repeat split|]);
    intros A; destruct H12 as (c & -> & Hc & _); rewrite (Hc A);
    by rewrite app_nil_r.
Qed.

Lemma game_over_cleanup_spec (t : HardwareThread) :
  let t' := game_over_cleanup t in
  pc t' = AwaitAck 0 /\
  event_queue t' = event_queue t ++ [GAME_OVER (score t)] /\
  score t' = score t /\
  active_mole_light_index t' = active_mole_light_index t /\
  running t' = running t /\ is_available t' = is_available t /\
  ticks t' = ticks t /\ draws t' = draws t /\ polls t' = polls t /\
  (is_available t = false -> hw_log t' = hw_log t).
Proof.
  unfold game_over_cleanup.
  destruct (turn_off_mole_lights t (active_mole_light_index t))
    as (c & -> & Hc & _).
  destruct (is_available t) eqn:A; cbn; rewrite ?A; cbn; repeat split; try done.
  intros _. rewrite Hc by done. by rewrite app_nil_r.
Qed.

Lemma read_input_spec (t : HardwareThread) :
  let t' := read_input ecodes world t in
  same_frame (if is_available t then snd (read world t) else t) t' /\
  (is_available t = false -> t' = t) /\
  (is_available t = true -> dev_read_result world (polls t) = ReadError ->
     t' = snd (read world t)).
Proof.
  unfold read_input. destruct (is_available t) eqn:A.
  - cbn [read fst snd]. destruct (dev_read_result world (polls t)) as [events|].
    + split; [apply handle_keys_frame|]. done.
    + split; [apply same_frame_refl|]. done.
  - split; [apply same_frame_refl|]. done.
Qed.

End InnerLoop.

Section Rounds.

Variable ecodes : Ecodes.
Variable world : World.

Lemma countdown_sequence_spec (t : HardwareThread) :
  let t' := countdown_sequence t in
  event_queue t' = event_queue t ++ [COUNTDOWN_FINISHED] /\
  score t' = score t /\ pc t' = pc t /\ running t' = running t /\
  is_available t' = is_available t /\
  active_mole_light_index t' = active_mole_light_index t /\
  ticks t' = ticks t /\ draws t' = draws t /\ polls t' = polls t /\
  (is_available t = false -> hw_log t' = hw_log t).
Proof.
  unfold countdown_sequence. destruct (is_available t) eqn:A.
  - match goal with |- context [fold_left countdown_flash ?l ?x] =>
      assert (hw_only t (fold_left countdown_flash l x)) as (c & -> & _) end.
    { cbn [fold_left].
      match goal with |- hw_only t (countdown_flash (countdown_flash
                                     (countdown_flash ?x0 _) _) _) =>
        set (t0 := x0) end.
      set (t1 := countdown_flash t0 3). set (t2 := countdown_flash t1 2).
      apply (hw_only_trans _ t0); [apply hw_only_hw; by repeat constructor|].
      apply (hw_only_trans _ t1); [apply countdown_flash_hw|].
      apply (hw_only_trans _ t2); apply countdown_flash_hw. }
    by repeat split.
  - by repeat split.
Qed.

Lemma round_end_check_true (b : Battle) (t : HardwareThread) (current_time : Q) :
  round_end_check b t current_time = true <->
  (30 <= current_time - game_start_time t)%Q \/
  (health (PLAYER_FORTRESS b) <= 0)%Q \/
  Forall (fun ship => is_destroyed ship = true) (ENEMY_FLEET b).
Proof.
  unfold round_end_check. rewrite !orb_true_iff, bool_decide_eq_true.
  rewrite Py.ge_true, Py.le_true, get_current_target_ship_None.
  unfold GAME_DURATION. tauto.
Qed.

(** C1.  One iteration of the inner loop, entered with the controller
    running.  The round-end test comes first: when the elapsed time is
    at least 30 seconds, or the fortress health is at most 0, or every
    ship is destroyed, the iteration leaves the loop at once: it spawns
    no mole (no index is drawn, the lit index is unchanged), reads no
    input, leaves the score alone, and the only event it puts is
    [GAME_OVER].  When none of the three holds the loop goes on. *)
Theorem C1_round_end_check_first (b : Battle) (t : HardwareThread) :
  pc t = Active -> running t = true ->
  let current_time := time_time world (ticks t) in
  let time_elapsed := (current_time - game_start_time t)%Q in
  let over := (30 <= time_elapsed)%Q \/
              (health (PLAYER_FORTRESS b) <= 0)%Q \/
              Forall (fun ship => is_destroyed ship = true) (ENEMY_FLEET b) in
  let t' := snd (step ecodes world (b, t)) in
  (over ->
     pc t' = AwaitAck 0 /\
     event_queue t' = event_queue t ++ [GAME_OVER (score t)] /\
     score t' = score t /\
     active_mole_light_index t' = active_mole_light_index t /\
     draws t' = draws t /\ polls t' = polls t) /\
  (~ over -> pc t' = Active).
Proof.
  intros Hpc Hrun current_time time_elapsed over t'.
  assert (t' = active_iteration ecodes world b t) as ->.
  { subst t'. unfold step. by rewrite Hpc. }
  unfold active_iteration. rewrite Hrun. cbn [now].
  match goal with |- context [round_end_check b ?x ?c] =>
    pose proof (round_end_check_true b x c) as Hc;
    destruct (round_end_check b x c) eqn:E end;
    cbn [game_start_time] in Hc; fold current_time time_elapsed over in Hc.
  - split; [|intros Hn; exfalso; apply Hn; by apply Hc].
    intros _.
    match goal with |- context [game_over_cleanup ?x] =>
      pose proof (game_over_cleanup_spec x) as H; cbv zeta in H;
      remember (game_over_cleanup x) as t1 eqn:Et1 end.
    cbn in H. destruct H as (H1&H2&H3&H4&H5&H6&H7&H8&H9&H10).
    by repeat split.
  - split; [intros Ho; apply Hc in Ho; done|].
    intros _.
    match goal with |- context [mole_timer world ?x ?c] =>
      pose proof (mole_timer_spec world x c) as H; cbv zeta in H;
      remember (mole_timer world x c) as t1 eqn:Et1 end.
    cbn in H. destruct H as (_&_&_&(F1&F2&F3&F4&F5)&_).
    pose proof (read_input_spec ecodes world t1) as (G & _).
    cbv zeta in G. destruct G as (G1 & _).
    cbn in F1. rewrite G1. destruct (is_available t1); cbn; congruence.
Qed.

End Rounds.

(** ** The order of events *)

(** The events that report what became of a mole. *)
Definition is_outcome (e : GameEvent) : bool :=
  match e with
  | MOLE_ESCAPED | PLAYER_HIT _ | PLAYER_MISS _ => true
  | _ => false
  end.

(** In a sequence of events, every outcome comes right after a
    [MOLE_SPAWN]: the spawn of the mole it is about.  Two outcomes then
    never share a spawn. *)
Definition spawn_before_outcome (h : list GameEvent) : Prop :=
  forall pre e post, h = pre ++ e :: post -> is_outcome e = true ->
    exists pre' index, pre = pre' ++ [MOLE_SPAWN index].

Lemma spawn_before_outcome_nil : spawn_before_outcome [].
Proof. intros pre e post H. by destruct pre. Qed.

Lemma spawn_before_outcome_snoc (h : list GameEvent) (e : GameEvent) :
  spawn_before_outcome h ->
  (is_outcome e = true -> exists pre index, h = pre ++ [MOLE_SPAWN index]) ->
  spawn_before_outcome (h ++ [e]).
Proof.
  intros Hh He pre x post E Hx.
  destruct post as [|y post'] using rev_ind.
  - apply app_inj_tail in E as [-> ->]. by apply He.
  - clear IHpost'.
    replace (pre ++ x :: post' ++ [y]) with ((pre ++ x :: post') ++ [y]) in E
      by (by rewrite <- app_assoc).
    apply app_inj_tail in E as [-> _]. by apply (Hh pre x post').
Qed.

Lemma spawn_before_outcome_prefix (h1 h2 : list GameEvent) :
  spawn_before_outcome (h1 ++ h2) -> spawn_before_outcome h1.
Proof.
  intros H pre e post E. apply (H pre e (post ++ h2)).
  rewrite E. by rewrite <- app_assoc.
Qed.

(** The history [h] of all events put so far and the controller agree:
    the history is ordered as above; inside the inner loop, a lit index is
    the index of the last event, a [MOLE_SPAWN]; while the controller
    waits for the start button no index is lit. *)
Definition history_ok (h : list GameEvent) (t : HardwareThread) : Prop :=
  spawn_before_outcome h /\
  (pc t = Active -> forall a, active_mole_light_index t = Some a ->
     exists pre, h = pre ++ [MOLE_SPAWN a]) /\
  (pc t = AwaitStart -> active_mole_light_index t = None).

Section Order.

Variable ecodes : Ecodes.
Variable world : World.

(** [p] stands for the events already taken off the queue. *)

Lemma outcome_then_spawn_history (p : list GameEvent) (t t' : HardwareThread)
      (q : Q) (e : GameEvent) :
  pc t = Active -> active_mole_light_index t <> None ->
  outcome_then_spawn world t t' q e ->
  history_ok (p ++ event_queue t) t -> history_ok (p ++ event_queue t') t'.
Proof.
  intros Hpc Ha (_&Hq&Hact&_&Hpc'&_) (Ho & Hl & _).
  unfold history_ok. rewrite Hq, Hact, Hpc'.
  replace (p ++ event_queue t ++ [e; MOLE_SPAWN (random_randint world (draws t))])
    with (((p ++ event_queue t) ++ [e]) ++ [MOLE_SPAWN (random_randint world (draws t))])
    by (by rewrite <- !app_assoc).
  split; [|split; [|congruence]].
  - apply spawn_before_outcome_snoc; [|done].
    apply spawn_before_outcome_snoc; [done|]. intros _.
    destruct (active_mole_light_index t) as [a|] eqn:Ea; [|done].
    destruct (Hl Hpc a eq_refl) as [pre ->]. by exists pre, a.
  - intros _ a [= <-]. by eexists.
Qed.

Lemma handle_key_history (p : list GameEvent) (t : HardwareThread)
      (event : InputEvent) :
  pc t = Active ->
  history_ok (p ++ event_queue t) t ->
  history_ok (p ++ event_queue (handle_key ecodes world t event))
             (handle_key ecodes world t event).
Proof.
  intros Hpc H. pose proof (handle_key_spec ecodes world t event) as S.
  assert (verdict ecodes t event <> ignored ->
          active_mole_light_index t <> None) as Hv.
  { unfold verdict. destruct (is_key_down ecodes event); [|done].
    destruct (active_mole_light_index t); done. }
  destruct (verdict ecodes t event).
  - eapply outcome_then_spawn_history; [done|by apply Hv|exact S|done].
  - eapply outcome_then_spawn_history; [done|by apply Hv|exact S|done].
  - by rewrite S.
Qed.

Lemma handle_keys_history (p : list GameEvent) (events : list InputEvent)
      (t : HardwareThread) :
  pc t = Active ->
  history_ok (p ++ event_queue t) t ->
  history_ok (p ++ event_queue (handle_keys ecodes world t events))
             (handle_keys ecodes world t events).
Proof.
  revert t. induction events as [|e es IH]; intros t Hpc H; [done|].
  apply IH.
  - destruct (handle_key_frame ecodes world t e) as (-> & _). done.
  - by apply handle_key_history.
Qed.

Lemma mole_timer_history (p : list GameEvent) (t : HardwareThread) (c : Q) :
  pc t = Active ->
  history_ok (p ++ event_queue t) t ->
  history_ok (p ++ event_queue (mole_timer world t c)) (mole_timer world t c).
Proof.
  intros Hpc H. pose proof H as (Ho & Hl & _).
  pose proof (mole_timer_spec world t c) as S. cbv zeta in S.
  destruct S as (S0 & S1 & _ & (Fpc & _) & _).
  destruct (bool_decide (active_mole_light_index t = None)
            || Py.gt (c - last_mole_time t) MOLE_DURATION).
  - destruct (S1 eq_refl) as (Hq & Ha & _).
    unfold history_ok. rewrite Hq, Ha, Fpc.
    split; [|split; [|congruence]].
    + destruct (active_mole_light_index t) as [a|] eqn:Ea.
      * rewrite bool_decide_eq_true_2 by done.
        replace (p ++ event_queue t ++ [MOLE_ESCAPED]
                   ++ [MOLE_SPAWN (random_randint world (draws t))])
          with (((p ++ event_queue t) ++ [MOLE_ESCAPED])
                  ++ [MOLE_SPAWN (random_randint world (draws t))])
          by (by rewrite <- !app_assoc).
        apply spawn_before_outcome_snoc; [|done].
        apply spawn_before_outcome_snoc; [done|]. intros _.
        destruct (Hl Hpc a eq_refl) as [pre ->]. by exists pre, a.
      * rewrite bool_decide_eq_false_2 by (intros H'; by apply H').
        rewrite app_nil_l, app_assoc.
        by apply spawn_before_outcome_snoc.
    + intros _ a [= <-]. rewrite !app_assoc. by eexists.
  - by rewrite (S0 eq_refl).
Qed.

(** The queue only grows at the back under the controller. *)
Definition extends (t t' : HardwareThread) : Prop :=
  exists new, event_queue t' = event_queue t ++ new.

Lemma extends_refl (t : HardwareThread) : extends t t.
Proof. exists []. by rewrite app_nil_r. Qed.

Lemma extends_trans (t1 t2 t3 : HardwareThread) :
  extends t1 t2 -> extends t2 t3 -> extends t1 t3.
Proof.
  intros [a Ha] [b Hb]. exists (a ++ b). by rewrite Hb, Ha, app_assoc.
Qed.

Lemma handle_keys_extends (events : list InputEvent) (t : HardwareThread) :
  extends t (handle_keys ecodes world t events).
Proof.
  revert t. induction events as [|e es IH]; intros t; [apply extends_refl|].
  eapply extends_trans; [|apply IH].
  pose proof (handle_key_spec ecodes world t e) as S.
  destruct (verdict ecodes t e).
  - destruct S as (_ & Hq & _). by eexists.
  - destruct S as (_ & Hq & _). by eexists.
  - rewrite S. apply extends_refl.
Qed.

Lemma round_setup_spec (b : Battle) (t : HardwareThread) :
  let t' := snd (round_setup ecodes b t) in
  event_queue t' = event_queue t ++ [START_SCREEN] /\
  pc t' = AwaitStart /\ active_mole_light_index t' = None /\
  score t' = 0%Q /\ running t' = running t /\
  is_available t' = is_available t /\
  ticks t' = ticks t /\ draws t' = draws t /\ polls t' = polls t /\
  (is_available t = false -> hw_log t' = hw_log t).
Proof.
  unfold round_setup. cbn [snd].
  destruct (KEY_TO_LIGHT_INDEX ecodes !! KEY_5 ecodes) as [i|];
    unfold light_up_mole; destruct (is_available t) eqn:A; cbn;
    rewrite ?A; cbn; repeat split; try done; intros; congruence.
Qed.

(** The wait for the start button: on a press of key 5 the countdown
    event is put and the inner loop is entered; otherwise the wait goes
    on with one more read made. *)
Lemma await_start_spec (t : HardwareThread) :
  running t = true ->
  let t' := await_start ecodes world t in
  let start_pressed :=
    match dev_read_result world (polls t) with
    | Events events => existsb (is_start_press ecodes) events
    | ReadError => false
    end in
  (if start_pressed
   then event_queue t' = event_queue t ++ [COUNTDOWN_FINISHED] /\
        pc t' = Active /\ ticks t' = S (ticks t) /\
        game_start_time t' = time_time world (ticks t)
   else event_queue t' = event_queue t /\ pc t' = pc t /\ ticks t' = ticks t) /\
  active_mole_light_index t' = active_mole_light_index t /\
  score t' = score t /\ running t' = running t /\
  is_available t' = is_available t /\
  draws t' = draws t /\ polls t' = S (polls t) /\
  (is_available t = false -> hw_log t' = hw_log t ++ dev_call world).
Proof.
  intros Hrun t' start_pressed. subst t'. unfold await_start.
  rewrite Hrun. cbn [read]. fold start_pressed.
  destruct start_pressed; [|repeat split; try done; congruence].
  match goal with |- context [countdown_sequence ?x] =>
    pose proof (countdown_sequence_spec x) as H; cbv zeta in H;
    remember (countdown_sequence x) as t1 eqn:Et1 end.
  cbn in H. destruct H as (H1&H2&H3&H4&H5&H6&H7&H8&H9&H10).
  cbn. rewrite H7. repeat split; try done; congruence.
Qed.

Lemma await_ack_spec (t : HardwareThread) (k : nat) :
  let t' := await_ack ecodes world t k in
  event_queue t' = event_queue t /\
  score t' = score t /\ running t' = running t /\
  is_available t' = is_available t /\
  active_mole_light_index t' = active_mole_light_index t /\
  ticks t' = ticks t /\ draws t' = draws t /\
  (pc t' = pc t \/ (exists k', pc t' = AwaitAck k') \/
   pc t' = RoundSetup \/ pc t' = Exited).
Proof.
  assert (forall x : HardwareThread,
            pc x = pc t \/ (exists k', pc x = AwaitAck k') \/
            pc x = RoundSetup \/ pc x = Exited ->
            event_queue x = event_queue t -> score x = score t ->
            running x = running t -> is_available x = is_available t ->
            active_mole_light_index x = active_mole_light_index t ->
            ticks x = ticks t -> draws x = draws t ->
            event_queue x = event_queue t /\
            score x = score t /\ running x = running t /\
            is_available x = is_available t /\
            active_mole_light_index x = active_mole_light_index t /\
            ticks x = ticks t /\ draws x = draws t /\
            (pc x = pc t \/ (exists k', pc x = AwaitAck k') \/
             pc x = RoundSetup \/ pc x = Exited)) as Hx
    by (intros; by repeat split).
  unfold await_ack.
  destruct ((k <? keys_needed)%nat && running t).
  - cbn [read]. destruct (dev_read_result world (polls t)) as [events|];
      [destruct (existsb _ events)|]; apply Hx; try done.
    + right. left. by eexists.
    + by left.
    + by left.
  - destruct (negb (running t)).
    + apply Hx; try done. right; right; right. done.
    + destruct (is_available t) eqn:A; apply Hx; try done;
        try (right; right; left; done); cbn; done.
Qed.

(** One loop iteration of the controller keeps the history ordered and
    only adds to the back of the queue. *)
Lemma step_history (p : list GameEvent) (b : Battle) (t : HardwareThread) :
  history_ok (p ++ event_queue t) t ->
  let t' := snd (step ecodes world (b, t)) in
  history_ok (p ++ event_queue t') t' /\ extends t t'.
Proof.
  intros H t'. subst t'. pose proof H as (Ho & Hl & Hn).
  unfold step. destruct (pc t) as [| | |k|] eqn:Hpc.
  - destruct (running t) eqn:Hrun.
    + destruct (round_setup_spec b t) as (Hq & Hpc' & Ha & _).
      split; [|by eexists].
      unfold history_ok. rewrite Hq, Hpc', Ha, app_assoc.
      split; [by apply spawn_before_outcome_snoc|]. done.
    + cbn [snd]. split; [|exists []; cbn; by rewrite app_nil_r].
      by repeat split.
  - cbn [snd]. destruct (running t) eqn:Hrun.
    + destruct (await_start_spec t Hrun) as (Hc & Ha & _).
      destruct (match dev_read_result world (polls t) with
                | Events events => existsb (is_start_press ecodes) events
                | ReadError => false end).
      * destruct Hc as (Hq & Hpc' & _). split; [|by eexists].
        unfold history_ok. rewrite Hq, Hpc', Ha, app_assoc.
        split; [by apply spawn_before_outcome_snoc|].
        split; [|done]. intros _ a Ea. rewrite (Hn eq_refl) in Ea. done.
      * destruct Hc as (Hq & Hpc' & _).
        split; [|exists []; by rewrite Hq, app_nil_r].
        unfold history_ok. rewrite Hq, Hpc', Ha, Hpc. done.
    + unfold await_start. rewrite Hrun.
      split; [|exists []; cbn; by rewrite app_nil_r].
      by repeat split.
  - cbn [snd]. unfold active_iteration.
    assert (forall x, event_queue x = event_queue t ->
              history_ok (p ++ event_queue (game_over_cleanup x))
                         (game_over_cleanup x) /\
              extends t (game_over_cleanup x)) as Hg.
    { intros x Hx. destruct (game_over_cleanup_spec x) as (Hpc' & Hq & _).
      split; [|exists [GAME_OVER (score x)]; by rewrite Hq, Hx].
      unfold history_ok. rewrite Hq, Hpc', Hx, app_assoc.
      split; [by apply spawn_before_outcome_snoc|]. done. }
    destruct (running t); [|by apply Hg]. cbn [now].
    match goal with |- context [round_end_check b ?x ?c] =>
      destruct (round_end_check b x c); [by apply Hg|];
      set (t0 := x); set (c0 := c) end.
    assert (history_ok (p ++ event_queue t0) t0) as H0 by done.
    assert (pc t0 = Active) as Hpc0 by done.
    pose proof (mole_timer_history p t0 c0 Hpc0 H0) as H1.
    pose proof (mole_timer_spec world t0 c0) as S1. cbv zeta in S1.
    destruct S1 as (S0 & S1 & _ & (Fpc & _) & _).
    assert (extends t (mole_timer world t0 c0)) as E1.
    { destruct (bool_decide (active_mole_light_index t0 = None)
                || Py.gt (c0 - last_mole_time t0) MOLE_DURATION).
      - destruct (S1 eq_refl) as (Hq & _). by eexists.
      - rewrite (S0 eq_refl). exists []. cbn. by rewrite app_nil_r. }
    set (t1 := mole_timer world t0 c0) in *.
    assert (pc t1 = Active) as Hpc1 by congruence.
    unfold read_input. destruct (is_available t1); [|done].
    cbn [read]. destruct (dev_read_result world (polls t1)) as [events|].
    * match goal with |- context [handle_keys ecodes world ?x events] =>
        set (t2 := x) end.
      assert (history_ok (p ++ event_queue t2) t2) as H2 by exact H1.
      assert (pc t2 = Active) as Hpc2 by exact Hpc1.
      assert (extends t t2) as E2 by exact E1.
      split.
      -- by apply (handle_keys_history p events t2).
      -- eapply extends_trans; [exact E2|].
         apply (handle_keys_extends events t2).
    * split; [exact H1 | exact E1].
  - cbn [snd]. destruct (await_ack_spec t k) as (Hq & _ & _ & _ & Ha & _ & _ & Hp).
    split; [|exists []; by rewrite Hq, app_nil_r].
    unfold history_ok. rewrite Hq. split; [done|].
    rewrite Hpc in Hp.
    split; intros Hpc'; rewrite Hpc' in Hp;
      destruct Hp as [Hp|[[k' Hp]|[Hp|Hp]]]; done.
  - cbn [snd]. split; [done | apply extends_refl].
Qed.

End Order.

Section Fifo.

Variable ecodes : Ecodes.
Variable world : World.

(** The events the controller puts along a schedule, oldest first: at
    each of its steps, what the queue has gained at the back. *)
Fixpoint sys_produced (s : System) (actions : list Action) : list GameEvent :=
  match actions with
  | [] => []
  | a :: rest =>
      let s1 := fst (sys_step ecodes world s a) in
      match a with
      | controller_step =>
          drop (length (event_queue (thread s))) (event_queue (thread s1))
      | _ => []
      end ++ sys_produced s1 rest
  end.

Lemma stop_spec (t : HardwareThread) :
  event_queue (stop t) = event_queue t /\ pc (stop t) = pc t /\
  active_mole_light_index (stop t) = active_mole_light_index t /\
  score (stop t) = score t /\ is_available (stop t) = is_available t.
Proof.
  unfold stop, stop_clear_strip, stop_set_running, set_running. cbn.
  destruct (is_available t) eqn:A; cbn; rewrite ?A; done.
Qed.

Lemma stop_set_running_spec (t : HardwareThread) :
  event_queue (stop_set_running t) = event_queue t /\
  pc (stop_set_running t) = pc t /\
  active_mole_light_index (stop_set_running t) = active_mole_light_index t /\
  score (stop_set_running t) = score t /\
  is_available (stop_set_running t) = is_available t /\
  hw_log (stop_set_running t) = hw_log t.
Proof. done. Qed.

Lemma stop_clear_strip_spec (t : HardwareThread) :
  event_queue (stop_clear_strip t) = event_queue t /\
  pc (stop_clear_strip t) = pc t /\
  active_mole_light_index (stop_clear_strip t) = active_mole_light_index t /\
  score (stop_clear_strip t) = score t /\
  is_available (stop_clear_strip t) = is_available t /\
  running (stop_clear_strip t) = running t /\
  (is_available t = false -> stop_clear_strip t = t).
Proof. unfold stop_clear_strip. destruct (is_available t) eqn:A; cbn; done. Qed.

(** One action of either thread: what was consumed, then what is still
    queued, is what was consumed and queued before, then what was put. *)
Lemma sys_step_fifo (p : list GameEvent) (s : System) (a : Action) :
  history_ok (p ++ event_queue (thread s)) (thread s) ->
  let s1 := fst (sys_step ecodes world s a) in
  let got := match snd (sys_step ecodes world s a) with
             | Some e => [e] | None => [] end in
  history_ok ((p ++ got) ++ event_queue (thread s1)) (thread s1) /\
  got ++ event_queue (thread s1) =
    event_queue (thread s) ++ sys_produced s [a].
Proof.
  intros H. destruct a; unfold sys_produced, sys_step.
  - pose proof (step_history ecodes world p (battle (main s)) (thread s) H) as S.
    cbv zeta in S.
    destruct (step ecodes world (battle (main s), thread s)) as [b t].
    cbn [fst snd thread] in *. destruct S as (S1 & new & S2).
    rewrite !app_nil_r. split; [done|].
    by rewrite S2, drop_app_length.
  - destruct (event_queue (thread s)) as [|e q] eqn:E; cbn [Queue.get_nowait];
      cbn [fst snd thread]; rewrite ?app_nil_r.
    + by rewrite E.
    + cbn. split; [|done]. rewrite <- app_assoc. cbn.
      destruct H as (H1 & H2 & H3). by repeat split.
  - cbn [fst snd thread]. by rewrite !app_nil_r.
  - cbn [fst snd thread]. rewrite !app_nil_r.
    destruct (stop_set_running_spec (thread s)) as (-> & Hpc & Ha & _).
    split; [|done]. destruct H as (H1 & H2 & H3).
    unfold history_ok. by rewrite Hpc, Ha.
  - cbn [fst snd thread]. rewrite !app_nil_r.
    destruct (stop_clear_strip_spec (thread s)) as (-> & Hpc & Ha & _).
    split; [|done]. destruct H as (H1 & H2 & H3).
    unfold history_ok. by rewrite Hpc, Ha.
Qed.

Lemma sys_run_fifo (actions : list Action) (p : list GameEvent) (s : System) :
  history_ok (p ++ event_queue (thread s)) (thread s) ->
  let s' := fst (sys_run ecodes world s actions) in
  let consumed := snd (sys_run ecodes world s actions) in
  history_ok ((p ++ consumed) ++ event_queue (thread s')) (thread s') /\
  consumed ++ event_queue (thread s') =
    event_queue (thread s) ++ sys_produced s actions.
Proof.
  revert p s. induction actions as [|a rest IH]; intros p s H.
  - cbn. by rewrite !app_nil_r.
  - pose proof (sys_step_fifo p s a H) as S. cbv zeta in S.
    cbn [sys_run sys_produced].
    destruct (sys_step ecodes world s a) as [s1 e] eqn:E1.
    cbn [fst snd] in S. destruct S as (S1 & S2).
    specialize (IH _ s1 S1). cbv zeta in IH.
    destruct (sys_run ecodes world s1 rest) as [s2 es] eqn:E2.
    cbn [fst snd] in *. destruct IH as (I1 & I2).
    assert (sys_produced s [a] =
            match a with
            | controller_step =>
                drop (length (event_queue (thread s))) (event_queue (thread s1))
            | _ => []
            end) as Ep.
    { cbn [sys_produced]. rewrite E1. cbn [fst]. by rewrite app_nil_r. }
    rewrite Ep in S2. rewrite app_assoc, <- S2.
    destruct e as [e|]; cbn [app] in *.
    + rewrite <- !app_assoc in I1. cbn [app] in I1.
      rewrite <- app_assoc. cbn [app]. split; [done|]. by rewrite <- I2.
    + rewrite app_nil_r in I1. split; [done|]. by rewrite <- I2.
Qed.

(** C6.  From the top of a round with the queue empty, under any
    schedule of the two threads: the events the pygame loop has taken
    off the queue, followed by those still on it, are the events the
    controller has put, in the order it put them; and in that order
    every [PLAYER_HIT], [PLAYER_MISS] and [MOLE_ESCAPED] comes right
    after a [MOLE_SPAWN], its own.  So the same holds of what the pygame
    loop has consumed: no outcome reaches it ahead of its spawn. *)
Theorem C6_spawn_before_outcome (s : System) (actions : list Action) :
  pc (thread s) = RoundSetup ->
  event_queue (thread s) = [] ->
  let s' := fst (sys_run ecodes world s actions) in
  let consumed := snd (sys_run ecodes world s actions) in
  let produced := sys_produced s actions in
  consumed ++ event_queue (thread s') = produced /\
  spawn_before_outcome produced /\
  spawn_before_outcome consumed.
Proof.
  intros Hpc Hq s' consumed produced.
  assert (history_ok ([] ++ event_queue (thread s)) (thread s)) as H.
  { rewrite Hq. split; [apply spawn_before_outcome_nil|].
    rewrite Hpc. done. }
  destruct (sys_run_fifo actions [] s H) as (H1 & H2).
  fold s' consumed produced in H1, H2. rewrite Hq in H2. cbn [app] in H1, H2.
  split; [done|]. destruct H1 as (Ho & _). rewrite H2 in Ho.
  split; [done|]. rewrite <- H2 in Ho.
  by apply spawn_before_outcome_prefix in Ho.
Qed.

End Fifo.

(** ** The wait for the acknowledgement *)

Section Acknowledge.

Variable ecodes : Ecodes.
Variable world : World.

(** Whether a read delivers at least one key-down event, and how many
    it delivers. *)
Definition batch_has_key_down (r : ReadResult) : bool :=
  match r with
  | Events events => existsb (is_key_down ecodes) events
  | ReadError => false
  end.

Definition count_key_downs (r : ReadResult) : nat :=
  match r with
  | Events events => length (filter (fun e => is_key_down ecodes e = true) events)
  | ReadError => 0
  end.

(** Among the [n] reads from read number [from] on, how many deliver at
    least one key-down event. *)
Fixpoint qualifying_polls (from n : nat) : nat :=
  match n with
  | O => 0
  | S n' =>
      qualifying_polls from n'
      + (if batch_has_key_down (dev_read_result world (from + n')) then 1 else 0)
  end.

Lemma await_ack_waiting (t : HardwareThread) (k : nat) :
  running t = true -> (k < keys_needed)%nat ->
  let t' := await_ack ecodes world t k in
  pc t' = (if batch_has_key_down (dev_read_result world (polls t))
           then AwaitAck (k + 1) else pc t) /\
  polls t' = S (polls t) /\ running t' = true.
Proof.
  intros Hrun Hk. unfold await_ack.
  apply Nat.ltb_lt in Hk. rewrite Hk, Hrun. cbn [andb read].
  unfold batch_has_key_down.
  destruct (dev_read_result world (polls t)) as [events|];
    [destruct (existsb _ events)|]; done.
Qed.

Lemma await_ack_done (t : HardwareThread) (k : nat) :
  running t = true -> (keys_needed <= k)%nat ->
  let t' := await_ack ecodes world t k in
  pc t' = RoundSetup /\ polls t' = polls t /\ running t' = true.
Proof.
  intros Hrun Hk. unfold await_ack.
  apply Nat.ltb_ge in Hk. rewrite Hk, Hrun. cbn [andb negb].
  destruct (is_available t); done.
Qed.

Lemma ack_steps (b : Battle) (t : HardwareThread) (k n : nat) :
  pc t = AwaitAck k -> running t = true ->
  (k + qualifying_polls (polls t) n <= keys_needed)%nat ->
  (k + qualifying_polls (polls t) n < keys_needed \/
   (0 < n /\ k + qualifying_polls (polls t) (n - 1) < keys_needed))%nat ->
  let s' := Nat.iter n (step ecodes world) (b, t) in
  pc (snd s') = AwaitAck (k + qualifying_polls (polls t) n) /\
  polls (snd s') = (polls t + n)%nat /\ running (snd s') = true.
Proof.
  intros Hpc Hrun. induction n as [|n IH]; intros Hle Hlt.
  - cbn. rewrite !Nat.add_0_r. done.
  - cbn [qualifying_polls] in *.
    replace (S n - 1)%nat with n in Hlt by lia.
    assert (k + qualifying_polls (polls t) n < keys_needed)%nat as Hn.
    { destruct Hlt as [Hlt|[_ Hlt]]; [|done].
      destruct (batch_has_key_down _) in Hlt; lia. }
    destruct IH as (I1 & I2 & I3); [lia | by left |].
    rewrite Nat.iter_succ.
    destruct (Nat.iter n (step ecodes world) (b, t)) as [b1 t1].
    cbn [snd] in *. unfold step. cbv beta iota. rewrite I1. cbn [snd].
    destruct (await_ack_waiting t1 _ I3 Hn) as (A1 & A2 & A3).
    rewrite A1, A2, I2, I1.
    destruct (batch_has_key_down (dev_read_result world (polls t + n)));
      repeat split; try done; try lia; f_equal; lia.
Qed.

(** C8, as the code has it.  While fewer than 2 presses are counted,
    each iteration of the wait makes one read and counts 1 when the
    batch read has at least one key-down event, of any key, and 0
    otherwise: the [break] leaves the rest of the batch uncounted.  So
    the count after [n] reads is the number of reads among them that
    delivered a key-down, and the controller goes back to the top of
    the round loop in the iteration after the read that brings this
    number to 2, not sooner. *)
Theorem C8_acknowledgement_counts_batches (b : Battle) (t : HardwareThread)
        (n : nat) :
  pc t = AwaitAck 0 -> running t = true ->
  (qualifying_polls (polls t) n < keys_needed)%nat ->
  let after m := snd (Nat.iter m (step ecodes world) (b, t)) in
  pc (after n) = AwaitAck (qualifying_polls (polls t) n) /\
  polls (after n) = (polls t + n)%nat /\
  (batch_has_key_down (dev_read_result world (polls t + n)) = false ->
     pc (after (S n)) = AwaitAck (qualifying_polls (polls t) n)) /\
  (batch_has_key_down (dev_read_result world (polls t + n)) = true ->
     pc (after (S n)) = AwaitAck (qualifying_polls (polls t) n + 1) /\
     (qualifying_polls (polls t) n + 1 = keys_needed ->
        pc (after (S (S n))) = RoundSetup)%nat).
Proof.
  intros Hpc Hrun Hn after.
  destruct (ack_steps b t 0 n Hpc Hrun) as (H1 & H2 & H3); [lia | left; lia |].
  cbn [Nat.add] in H1. fold (after n) in H1, H2, H3.
  split; [done|]. split; [done|].
  assert (forall x, batch_has_key_down (dev_read_result world (polls t + n)) = x ->
            pc (after (S n)) =
              AwaitAck (qualifying_polls (polls t) n + (if x then 1 else 0)) /\
            polls (after (S n)) = (polls t + S n)%nat /\
            running (after (S n)) = true) as Hs.
  { intros x Hx.
    assert (keys_needed = 2%nat) as K by done.
    destruct (ack_steps b t 0 (S n) Hpc Hrun) as (G1 & G2 & G3).
    - cbn [qualifying_polls Nat.add]. destruct (batch_has_key_down _); lia.
    - right. split; [lia|]. replace (S n - 1)%nat with n by lia. cbn. lia.
    - cbn [qualifying_polls Nat.add] in G1. rewrite Hx in G1. done. }
  split.
  - intros Hf. destruct (Hs false Hf) as (G & _). by rewrite Nat.add_0_r in G.
  - intros Ht. destruct (Hs true Ht) as (G1 & G2 & G3). split; [done|].
    intros Hk. change (after (S (S n))) with
      (snd (step ecodes world (Nat.iter (S n) (step ecodes world) (b, t)))).
    fold (after (S n)) in G1, G2, G3. unfold after in G1, G2, G3.
    destruct (Nat.iter (S n) (step ecodes world) (b, t)) as [b1 t1].
    cbn [snd] in *. unfold step. cbv beta iota. rewrite G1. cbn [snd].
    apply await_ack_done; [done | lia].
Qed.

End Acknowledge.

(** ** The score *)

Section Score.

Variable ecodes : Ecodes.
Variable world : World.

(** A property of scores that holds of 0 and is kept by the two ways
    the score changes is kept by every loop iteration. *)
Section Invariant.

Variable P : Q -> Prop.
Hypothesis P_reset : P 0%Q.
Hypothesis P_hit : forall q, P q -> P (q + 1)%Q.
Hypothesis P_miss : forall q, P q -> P (Py.max 0 (q - (1#2))%Q).

Lemma handle_key_score (t : HardwareThread) (event : InputEvent) :
  P (score t) -> P (score (handle_key ecodes world t event)).
Proof.
  intros Hs. pose proof (handle_key_spec ecodes world t event) as H.
  destruct (verdict ecodes t event).
  - destruct H as (-> & _). by apply P_hit.
  - destruct H as (-> & _). by apply P_miss.
  - by rewrite H.
Qed.

Lemma handle_keys_score (events : list InputEvent) (t : HardwareThread) :
  P (score t) -> P (score (handle_keys ecodes world t events)).
Proof.
  revert t. induction events as [|e es IH]; intros t Hs; [done|].
  apply IH. by apply handle_key_score.
Qed.

Lemma read_input_score (t : HardwareThread) :
  P (score t) -> P (score (read_input ecodes world t)).
Proof.
  intros Hs. unfold read_input. destruct (is_available t); [|done].
  cbn [read]. destruct (dev_read_result world (polls t)) as [events|]; [|done].
  by apply handle_keys_score.
Qed.

Lemma step_score (b : Battle) (t : HardwareThread) :
  P (score t) -> P (score (snd (step ecodes world (b, t)))).
Proof.
  intros Hs. unfold step. destruct (pc t) as [| | |k|]; cbn [snd].
  - destruct (running t); [|done].
    destruct (round_setup_spec ecodes b t) as (_&_&_&->&_). done.
  - unfold await_start. destruct (running t); [|done].
    cbn [read]. destruct (match dev_read_result world (polls t) with
                          | Events events => existsb (is_start_press ecodes) events
                          | ReadError => false end); [|done].
    match goal with |- context [countdown_sequence ?x] =>
      pose proof (countdown_sequence_spec x) as H; cbv zeta in H;
      remember (countdown_sequence x) as t1 eqn:Et1 end.
    cbn in H. destruct H as (_&H&_). cbn. by rewrite H.
  - unfold active_iteration.
    assert (forall x, score x = score t ->
              P (score (game_over_cleanup x))) as Hg.
    { intros x Hx. destruct (game_over_cleanup_spec x) as (_&_&->&_).
      by rewrite Hx. }
    destruct (running t); [|by apply Hg]. cbn [now].
    match goal with |- context [round_end_check b ?x ?c] =>
      destruct (round_end_check b x c) end; [by apply Hg|].
    match goal with |- context [mole_timer world ?x ?c] =>
      pose proof (mole_timer_spec world x c) as H; cbv zeta in H;
      remember (mole_timer world x c) as t1 eqn:Et1 end.
    cbn in H. destruct H as (_&_&H&_).
    apply read_input_score. by rewrite H.
  - destruct (await_ack_spec ecodes world t k) as (_ & -> & _). done.
  - done.
Qed.

Lemma steps_score (n : nat) (s : Battle * HardwareThread) :
  P (score (snd s)) -> P (score (snd (Nat.iter n (step ecodes world) s))).
Proof.
  intros Hs. induction n as [|n IH]; [done|]. rewrite Nat.iter_succ.
  destruct (Nat.iter n (step ecodes world) s) as [b t]. by apply step_score.
Qed.

End Invariant.

Definition nonnegative (q : Q) : Prop := (0 <= q)%Q.

(** A whole number of half points, none of them owed. *)
Definition half_points (q : Q) : Prop :=
  exists k : Z, 0 <= k /\ (q == k # 2)%Q.

Lemma nonnegative_reset : nonnegative 0%Q.
Proof. unfold nonnegative. lra. Qed.

Lemma nonnegative_hit (q : Q) : nonnegative q -> nonnegative (q + 1)%Q.
Proof. unfold nonnegative. lra. Qed.

Lemma nonnegative_miss (q : Q) :
  nonnegative q -> nonnegative (Py.max 0 (q - (1#2))%Q).
Proof.
  unfold nonnegative. intros H.
  destruct (Py.max_cases 0 (q - (1#2))) as [[H' ->]|[H' ->]]; lra.
Qed.

Lemma half_points_hit (q : Q) : half_points q -> half_points (q + 1)%Q.
Proof.
  intros (k & Hk & E). exists (k + 2). split; [lia|].
  rewrite E. unfold Qeq. simpl. lia.
Qed.

Lemma half_points_miss (q : Q) :
  half_points q -> half_points (Py.max 0 (q - (1#2))%Q).
Proof.
  intros (k & Hk & E).
  destruct (Py.max_cases 0 (q - (1#2))) as [[H' ->]|[H' ->]].
  - exists (k - 1). rewrite E in H'. split.
    + unfold Qlt in H'. simpl in H'. lia.
    + rewrite E. unfold Qeq. simpl. lia.
  - exists 0. split; [lia|]. reflexivity.
Qed.

(** The score after the presses of one poll, as the claim words it: the
    events are taken in arrival order; a key-down of one of the nine
    keys while a target is lit adds 1 when it is the target's key and
    leaves [max(0, score - 0.5)] otherwise, and the next target is the
    index drawn next; every other event is passed over. *)
Fixpoint presses_score (draw : nat) (lit : option Z) (points : Q)
         (events : list InputEvent) : Q :=
  match events with
  | [] => points
  | event :: rest =>
      if is_key_down ecodes event then
        match lit, KEY_TO_LIGHT_INDEX ecodes !! code event with
        | Some active, Some pressed =>
            presses_score (S draw) (Some (random_randint world draw))
              (if pressed =? active then (points + 1)%Q
               else Py.max 0 (points - (1#2))%Q)
              rest
        | _, _ => presses_score draw lit points rest
        end
      else presses_score draw lit points rest
  end.

Lemma handle_keys_presses_score (events : list InputEvent) (t : HardwareThread) :
  score (handle_keys ecodes world t events)
  = presses_score (draws t) (active_mole_light_index t) (score t) events.
Proof.
  revert t. induction events as [|e es IH]; intros t; [done|].
  cbn [handle_keys fold_left presses_score].
  change (fold_left (handle_key ecodes world) es (handle_key ecodes world t e))
    with (handle_keys ecodes world (handle_key ecodes world t e) es).
  rewrite IH. pose proof (handle_key_spec ecodes world t e) as H.
  unfold verdict in H.
  destruct (is_key_down ecodes e); [|by rewrite H].
  destruct (active_mole_light_index t) as [active|] eqn:Ea;
    cbv beta iota in H; [|by rewrite H, Ea].
  destruct (KEY_TO_LIGHT_INDEX ecodes !! code e) as [pressed|];
    cbv beta iota in H; [|by rewrite H, Ea].
  destruct (pressed =? active);
    destruct H as (-> & _ & -> & _ & _ & _ & _ & _ & _ & -> & _); done.
Qed.

(** The controller when it reads the input in an iteration of the inner
    loop: the time stamp taken and the mole timer run. *)
Definition at_read_input (t : HardwareThread) : HardwareThread :=
  mole_timer world (snd (now world t)) (fst (now world t)).

Lemma at_read_input_spec (t : HardwareThread) :
  pc t = Active ->
  let t1 := at_read_input t in
  score t1 = score t /\ is_available t1 = is_available t /\
  polls t1 = polls t /\ pc t1 = Active /\
  exists active, active_mole_light_index t1 = Some active.
Proof.
  intros Hpc. unfold at_read_input. cbn [now fst snd].
  match goal with |- context [mole_timer world ?x ?c] =>
    pose proof (mole_timer_spec world x c) as H; cbv zeta in H;
    set (t0 := x) in *; set (c0 := c) in * end.
  destruct H as (H0 & H1 & Hs & (F1 & _ & F3 & _ & F5) & _).
  split; [exact Hs|]. split; [exact F3|]. split; [exact F5|].
  split; [by rewrite F1|].
  destruct (bool_decide (active_mole_light_index t0 = None)
            || Py.gt (c0 - last_mole_time t0) MOLE_DURATION) eqn:Due.
  - destruct (H1 eq_refl) as (_ & Ha & _). by eexists.
  - rewrite (H0 eq_refl). apply orb_false_iff in Due as [Due _].
    apply bool_decide_eq_false in Due.
    destruct (active_mole_light_index t0) as [a|]; [by exists a|done].
Qed.

(** An iteration of the inner loop that does not end the round is the
    mole timer followed by the reading of the input. *)
Lemma active_iteration_goes_on (b : Battle) (t : HardwareThread) :
  pc t = Active -> running t = true ->
  round_end_check b (snd (now world t)) (fst (now world t)) = false ->
  snd (step ecodes world (b, t)) = read_input ecodes world (at_read_input t).
Proof.
  intros Hpc Hrun Hgo. unfold step. rewrite Hpc. cbn [snd].
  unfold active_iteration. rewrite Hrun.
  cbn [now fst snd] in *. by rewrite Hgo.
Qed.

(** C2.  An iteration of the inner loop that does not end the round.
    When the input is read a target is lit.  With the hardware
    available the iteration makes one poll and handles its events in
    arrival order: a key-down of the target's key adds exactly 1 to the
    score, a key-down of another of the nine keys leaves
    [max(0, score - 0.5)], after either the next target is the index
    drawn next, and any other event changes nothing; a poll that fails
    changes nothing.  With the hardware unavailable no poll is made and
    the score stays.  The handler passes over a press when no target is
    lit.  The score, not negative before, is not negative after any
    number of loop iterations. *)
Theorem C2_hit_and_miss_scoring (b : Battle) (t : HardwareThread) :
  pc t = Active -> running t = true -> (0 <= score t)%Q ->
  round_end_check b (snd (now world t)) (fst (now world t)) = false ->
  let t1 := at_read_input t in
  let t' := snd (step ecodes world (b, t)) in
  (exists active, active_mole_light_index t1 = Some active) /\
  (is_available t = true ->
     forall events, dev_read_result world (polls t) = Events events ->
       polls t' = S (polls t) /\
       score t' = presses_score (draws t1) (active_mole_light_index t1)
                                (score t) events /\
       (forall event active pressed,
          events = [event] -> is_key_down ecodes event = true ->
          active_mole_light_index t1 = Some active ->
          KEY_TO_LIGHT_INDEX ecodes !! code event = Some pressed ->
          (pressed = active -> score t' = (score t + 1)%Q) /\
          (pressed <> active -> (score t' == Qmax 0 (score t - (1#2)))%Q))) /\
  (is_available t = true -> dev_read_result world (polls t) = ReadError ->
     score t' = score t) /\
  (is_available t = false -> score t' = score t /\ polls t' = polls t) /\
  (forall event, active_mole_light_index t = None ->
     handle_key ecodes world t event = t) /\
  (forall n, (0 <= score (snd (Nat.iter n (step ecodes world) (b, t))))%Q).
Proof.
  intros Hpc Hrun Hs Hgo t1 t'.
  destruct (at_read_input_spec t Hpc) as (S1 & A1 & P1 & Hpc1 & Hlit).
  fold t1 in S1, A1, P1, Hpc1, Hlit.
  assert (t' = read_input ecodes world t1) as Et'
    by (by apply active_iteration_goes_on).
  split; [exact Hlit|]. split; [|split; [|split; [|split]]].
  - intros A events He.
    assert (t' = handle_keys ecodes world (snd (read world t1)) events) as Eh.
    { rewrite Et'. unfold read_input. rewrite A1, A. cbn [read fst snd].
      by rewrite P1, He. }
    assert (score t' = presses_score (draws t1) (active_mole_light_index t1)
                                     (score t) events) as Esc.
    { rewrite Eh, handle_keys_presses_score. cbn [read snd draws score
        active_mole_light_index]. by rewrite S1. }
    split; [|split; [exact Esc|]].
    + rewrite Eh.
      destruct (handle_keys_frame ecodes world events (snd (read world t1)))
        as (_ & _ & _ & _ & ->). cbn [read snd polls]. by rewrite P1.
    + intros event active pressed -> Hk Ha Hp. rewrite Esc.
      cbn [presses_score]. rewrite Hk, Ha, Hp. split.
      * intros ->. by rewrite Z.eqb_refl.
      * intros Hne. apply Z.eqb_neq in Hne. rewrite Hne. apply Py.max_Qmax.
  - intros A He. rewrite Et'. unfold read_input. rewrite A1, A.
    cbn [read fst snd]. by rewrite P1, He.
  - intros A.
    destruct (read_input_spec ecodes world t1) as (_ & R & _).
    rewrite Et', R by (by rewrite A1). by rewrite S1, P1.
  - intros event Ha. pose proof (handle_key_spec ecodes world t event) as H.
    unfold verdict in H. rewrite Ha in H.
    by destruct (is_key_down ecodes event).
  - intros n.
    by apply (steps_score nonnegative nonnegative_reset nonnegative_hit
                          nonnegative_miss n (b, t)).
Qed.

(** [int] of a score of [k] points and a half is [k]. *)
Lemma int_half (q : Q) (k : Z) :
  0 <= k -> (q == inject_Z k + (1#2))%Q -> Py.int q = k.
Proof.
  intros Hk E. unfold Py.int. unfold Qeq in E. simpl in E.
  destruct q as [num den]. simpl in *.
  assert (0 <= num) as Hnum by nia.
  rewrite Z.quot_div_nonneg by lia.
  symmetry. apply (Z.div_unique num (Z.pos den) k (num - k * Z.pos den)); nia.
Qed.

(** C10.  The score, a whole number of half points when the round
    starts, is one after any number of loop iterations.  The
    [GAME_OVER] event carries the score as it is, and the pygame loop
    keeps [int] of it: for a score of [k] points and a half the final
    score shown is [k], less than the score. *)
Theorem C10_final_score_truncated (b : Battle) (t : HardwareThread)
        (n : nat) (m : Main) :
  half_points (score t) ->
  let t' := snd (Nat.iter n (step ecodes world) (b, t)) in
  half_points (score t') /\
  event_queue (game_over_cleanup t') = event_queue t' ++ [GAME_OVER (score t')] /\
  last_game_score (process_event m (GAME_OVER (score t'))) = Py.int (score t') /\
  (forall k : Z, 0 <= k -> (score t' == inject_Z k + (1#2))%Q ->
     last_game_score (process_event m (GAME_OVER (score t'))) = k /\
     (inject_Z k < score t')%Q).
Proof.
  intros Hs t'. split; [|split; [|split]].
  - subst t'.
    apply (steps_score half_points); try done.
    + exists 0. split; [lia|reflexivity].
    + apply half_points_hit.
    + apply half_points_miss.
  - by destruct (game_over_cleanup_spec t') as (_ & -> & _).
  - done.
  - intros k Hk E. split.
    + cbn. by apply int_half.
    + rewrite E. lra.
Qed.

End Score.

(** ** Five hits in a row *)

(** [n] hits as they appear on the queue: each followed by the spawn of
    the next mole. *)
Inductive hit_pairs : nat -> list GameEvent -> Prop :=
| hit_pairs_O : hit_pairs 0 []
| hit_pairs_S n q i l :
    hit_pairs n l -> hit_pairs (S n) (PLAYER_HIT q :: MOLE_SPAWN i :: l).

Lemma heal_iter (n : nat) (f : Fortress) :
  (health f <= fortress_max_health f)%Q ->
  (health (Nat.iter n heal f)
     == Qmin (health f + inject_Z (Z.of_nat n) * (1#2)) (fortress_max_health f))%Q /\
  fortress_max_health (Nat.iter n heal f) = fortress_max_health f.
Proof.
  intros Hle. induction n as [|n [IH1 IH2]].
  - split; [|done]. change (Nat.iter 0 heal f) with f.
    change (inject_Z (Z.of_nat 0)) with 0%Q. rewrite Q.min_l; lra.
  - rewrite Nat.iter_succ. split; [|by rewrite <- IH2].
    destruct (heal_spec (Nat.iter n heal f)) as [E _]. rewrite E, IH2.
    rewrite Nat2Z.inj_succ. unfold Z.succ. rewrite inject_Z_plus.
    set (x := inject_Z (Z.of_nat n)) in *.
    set (h := health (Nat.iter n heal f)) in *.
    destruct (Q.min_spec (health f + x * (1#2)) (fortress_max_health f))
      as [[H1 H2]|[H1 H2]]; rewrite H2 in IH1;
    destruct (Q.min_spec (h + (1#2)) (fortress_max_health f))
      as [[H3 H4]|[H3 H4]]; rewrite H4;
    destruct (Q.min_spec (health f + (x + inject_Z 1) * (1#2)) (fortress_max_health f))
      as [[H5 H6]|[H5 H6]]; rewrite H6;
    change (inject_Z 1) with 1%Q in *; lra.
Qed.

(** The pygame loop handling [n] hits, the first ship having at least
    [n] points of health. *)
Lemma process_hit_pairs (n : nat) (events : list GameEvent) :
  hit_pairs n events ->
  forall (m : Main) (ship : EnemyShip) (rest : list EnemyShip),
    ENEMY_FLEET (battle m) = ship :: rest ->
    is_destroyed ship = false ->
    Z.of_nat n <= current_health ship ->
    let m' := process_events m events in
    exists ship',
      ENEMY_FLEET (battle m') = ship' :: rest /\
      current_health ship' = current_health ship - Z.of_nat n /\
      max_health ship' = max_health ship /\
      ((0 < n)%nat -> is_destroyed ship' = (current_health ship' <=? 0)) /\
      PLAYER_FORTRESS (battle m') = Nat.iter n heal (PLAYER_FORTRESS (battle m)).
Proof.
  induction 1 as [|n q i l Hl IH]; intros m ship rest Hf Hd Hn.
  - exists ship. cbn. repeat split; try done; lia.
  - cbv zeta. unfold process_events. cbn [fold_left].
    set (m1 := process_event (process_event m (PLAYER_HIT q)) (MOLE_SPAWN i)).
    destruct (take_damage_afloat ship Hd) as (_ & Hmax & Hc & Hdes).
    assert (ENEMY_FLEET (battle m1) = fst (take_damage ship) :: rest /\
            PLAYER_FORTRESS (battle m1) = heal (PLAYER_FORTRESS (battle m)))
      as [Hf1 Hp1].
    { subst m1. cbn. rewrite Hf. cbn. rewrite Hd. cbn. done. }
    destruct n as [|n].
    + inversion Hl; subst. exists (fst (take_damage ship)).
      cbn [fold_left]. rewrite Hf1, Hp1, Hc, Hmax, Hdes.
      repeat split; try done.
    + assert (is_destroyed (fst (take_damage ship)) = false) as Hd1.
      { rewrite Hdes. apply Z.leb_gt. lia. }
      destruct (IH m1 _ rest Hf1 Hd1) as (ship' & G1 & G2 & G3 & G4 & G5);
        [rewrite Hc; lia|].
      exists ship'. fold (process_events m1 l).
      rewrite G1, G3, G5, Hmax, Hp1. repeat split; try done.
      * rewrite G2, Hc. lia.
      * intros _. apply G4. lia.
      * by rewrite <- Nat.iter_succ_r.
Qed.

Section FiveHits.

Variable ecodes : Ecodes.
Variable world : World.

(** Every event of the batch is a hit when its turn comes. *)
Fixpoint all_hits (t : HardwareThread) (events : list InputEvent) : Prop :=
  match events with
  | [] => True
  | e :: rest =>
      verdict ecodes t e = hit /\ all_hits (handle_key ecodes world t e) rest
  end.

Lemma all_hits_trace (events : list InputEvent) (t : HardwareThread) :
  all_hits t events ->
  exists new,
    event_queue (handle_keys ecodes world t events) = event_queue t ++ new /\
    hit_pairs (length events) new /\
    (score (handle_keys ecodes world t events)
       == score t + inject_Z (Z.of_nat (length events)))%Q.
Proof.
  revert t. induction events as [|e es IH]; intros t H.
  - exists []. cbn. rewrite app_nil_r. split; [done|]. split; [constructor|].
    rewrite Qplus_0_r. reflexivity.
  - destruct H as [Hv H]. destruct (IH _ H) as (new & Hq & Hp & Hs).
    pose proof (handle_key_spec ecodes world t e) as S. rewrite Hv in S.
    destruct S as (Hs1 & Hq1 & _).
    eexists. cbn [handle_keys fold_left]. fold (handle_keys ecodes world).
    change (fold_left (handle_key ecodes world) es (handle_key ecodes world t e))
      with (handle_keys ecodes world (handle_key ecodes world t e) es).
    rewrite Hq, Hq1, <- app_assoc. split; [reflexivity|].
    split; [by constructor|]. rewrite Hs, Hs1.
    cbn [length]. rewrite Nat2Z.inj_succ. unfold Z.succ. rewrite inject_Z_plus.
    change (inject_Z 1) with 1%Q. lra.
Qed.

(** What the key handler and the pygame loop do with five hits.  The
    score is 0, the first ship is reset and has a [max_health] of 5, the
    fortress health is at most its maximum.  The handler is given five
    key events, each a hit; the pygame loop then handles the events this
    put on the queue.  The score is 5, the first ship is destroyed at
    health 0, and the fortress has gained
    [min(5 * 0.5, max_health - health)]. *)
Lemma five_hits_when_handled (t : HardwareThread) (events : list InputEvent)
        (m : Main) (ship : EnemyShip) (rest : list EnemyShip) :
  score t = 0%Q ->
  ENEMY_FLEET (battle m) = reset_ship ship :: rest ->
  max_health ship = 5 ->
  (health (PLAYER_FORTRESS (battle m))
     <= fortress_max_health (PLAYER_FORTRESS (battle m)))%Q ->
  length events = 5%nat ->
  all_hits t events ->
  let t' := handle_keys ecodes world t events in
  let new := drop (length (event_queue t)) (event_queue t') in
  let m' := process_events m new in
  (score t' == 5)%Q /\
  (exists ship', ENEMY_FLEET (battle m') = ship' :: rest /\
                 is_destroyed ship' = true /\ current_health ship' = 0) /\
  (health (PLAYER_FORTRESS (battle m')) - health (PLAYER_FORTRESS (battle m))
     == Qmin (5 * (1#2))
             (fortress_max_health (PLAYER_FORTRESS (battle m))
              - health (PLAYER_FORTRESS (battle m))))%Q.
Proof.
  intros Hs Hf Hmax Hle Hlen Hhits t' new m'.
  destruct (all_hits_trace events t Hhits) as (new' & Hq & Hp & Hsc).
  assert (new = new') as ->.
  { subst new t'. by rewrite Hq, drop_app_length. }
  rewrite Hlen in Hp, Hsc.
  destruct (process_hit_pairs 5 new' Hp m (reset_ship ship) rest Hf eq_refl)
    as (ship' & G1 & G2 & G3 & G4 & G5).
  { cbn. lia. }
  fold m' in G1, G5. cbn in G2. rewrite Hmax in G2.
  split; [|split].
  - subst t'. rewrite Hsc, Hs. reflexivity.
  - exists ship'. split; [done|]. rewrite G4 by lia. by rewrite G2.
  - rewrite G5.
    destruct (heal_iter 5 (PLAYER_FORTRESS (battle m)) Hle) as [E _].
    rewrite E. change (inject_Z (Z.of_nat 5)) with 5%Q.
    set (h := health (PLAYER_FORTRESS (battle m))) in *.
    set (mx := fortress_max_health (PLAYER_FORTRESS (battle m))) in *.
    destruct (Q.min_spec (h + 5 * (1#2)) mx) as [[H1 H2]|[H1 H2]]; rewrite H2;
    destruct (Q.min_spec (5 * (1#2)) (mx - h)) as [[H3 H4]|[H3 H4]]; rewrite H4;
    lra.
Qed.

End FiveHits.

(** ** Read failures and the two hardware modes *)

(** The world [w] with the result of read number [p] of its device, if
    it has one, replaced by [r]. *)
Definition world_with_read (w : World) (p : nat) (r : ReadResult) : World :=
  {| time_time := time_time w;
     random_randint := random_randint w;
     dev := option_map (fun reads n => if (n =? p)%nat then r else reads n)
                       (dev w) |}.

Lemma world_with_read_call (w : World) (p : nat) (r : ReadResult) :
  dev_call (world_with_read w p r) = dev_call w.
Proof. unfold dev_call, world_with_read. cbn. by destruct (dev w). Qed.

Lemma world_with_read_result (w : World) (p : nat) (r : ReadResult) :
  dev_read_result (world_with_read w p r) p = if has_dev w then r else ReadError.
Proof.
  unfold dev_read_result, has_dev, world_with_read. cbn.
  destruct (dev w); cbn; [by rewrite Nat.eqb_refl|done].
Qed.

Lemma has_dev_call (w : World) : has_dev w = true -> dev_call w = [dev_read].
Proof. unfold has_dev, dev_call. by destruct (dev w). Qed.

Lemma no_dev_call (w : World) : has_dev w = false -> dev_call w = [].
Proof. unfold has_dev, dev_call. by destruct (dev w). Qed.

Lemma no_dev_read_result (w : World) (n : nat) :
  has_dev w = false -> dev_read_result w n = ReadError.
Proof. unfold has_dev, dev_read_result. by destruct (dev w). Qed.

(** The calls on the light strip among the hardware calls. *)
Definition is_strip_call (c : HwCall) : bool :=
  match c with
  | set_all _ _ _ _ | set_pixel _ _ _ _ _ | show => true
  | dev_read | sleep _ => false
  end.

Definition strip_calls (log : list HwCall) : list HwCall :=
  List.filter is_strip_call log.

Lemma strip_calls_app (a b : list HwCall) :
  strip_calls (a ++ b) = strip_calls a ++ strip_calls b.
Proof. apply List.filter_app. Qed.

Lemma strip_calls_dev_call (w : World) : strip_calls (dev_call w) = [].
Proof. unfold dev_call. by destruct (dev w). Qed.

Section Modes.

Variable ecodes : Ecodes.
Variable world : World.

(** No loop iteration changes [is_available]. *)
Lemma step_is_available (b : Battle) (t : HardwareThread) :
  is_available (snd (step ecodes world (b, t))) = is_available t.
Proof.
  unfold step. destruct (pc t) as [| | |k|]; cbn [snd].
  - destruct (running t); [|done].
    by destruct (round_setup_spec ecodes b t) as (_&_&_&_&_&->&_).
  - destruct (running t) eqn:Hrun.
    + by destruct (await_start_spec ecodes world t Hrun) as (_&_&_&_&->&_).
    + unfold await_start. by rewrite Hrun.
  - unfold active_iteration.
    assert (forall x, is_available x = is_available t ->
              is_available (game_over_cleanup x) = is_available t) as Hg.
    { intros x Hx. destruct (game_over_cleanup_spec x) as (_&_&_&_&_&->&_).
      done. }
    destruct (running t); [|by apply Hg]. cbn [now].
    match goal with |- context [round_end_check b ?x ?c] =>
      destruct (round_end_check b x c); [by apply Hg|];
      set (t0 := x); set (c0 := c) end.
    destruct (mole_timer_spec world t0 c0) as (_&_&_&(_&_&F&_)&_).
    destruct (read_input_spec ecodes world (mole_timer world t0 c0))
      as ((_&_&G&_)&_).
    rewrite G. transitivity (is_available (mole_timer world t0 c0)); [|by rewrite F].
    destruct (is_available (mole_timer world t0 c0)) eqn:A; cbn; done.
  - by destruct (await_ack_spec ecodes world t k) as (_&_&_&->&_).
  - done.
Qed.

(** A failed read is an empty batch: the iteration ends in the state it
    would reach had the device delivered no event at that read, but for
    the pause of 0.05 s the acknowledgement wait adds. *)
Lemma step_read_error (b : Battle) (t : HardwareThread) :
  dev_read_result world (polls t) = ReadError ->
  let quiet := world_with_read world (polls t) (Events []) in
  let t' := snd (step ecodes world (b, t)) in
  let t0 := snd (step ecodes quiet (b, t)) in
  t' = t0 \/ t' = hw t0 [sleep (5 # 100)].
Proof.
  intros He quiet t' t0. subst t' t0.
  pose proof (world_with_read_result world (polls t) (Events [])) as Hq.
  pose proof (world_with_read_call world (polls t) (Events [])) as Hc.
  fold quiet in Hq, Hc.
  unfold step. destruct (pc t) as [| | |k|]; cbn [snd].
  - left. done.
  - left. unfold await_start. destruct (running t); [|done].
    cbn [read]. rewrite He, Hq, Hc. by destruct (has_dev world).
  - left. unfold active_iteration. destruct (running t); [|done].
    cbn [now].
    change (time_time quiet) with (time_time world).
    match goal with |- context [round_end_check b ?x ?y] =>
      destruct (round_end_check b x y); [done|];
      set (t1 := x); set (c := y) end.
    change (mole_timer quiet t1 c) with (mole_timer world t1 c).
    destruct (mole_timer_spec world t1 c) as (_&_&_&(_&_&_&_&F)&_).
    set (t2 := mole_timer world t1 c) in *.
    unfold read_input. destruct (is_available t2); [|done].
    cbn [read]. replace (polls t2) with (polls t) by (by rewrite F).
    rewrite He, Hq, Hc. by destruct (has_dev world).
  - unfold await_ack. destruct ((k <? keys_needed)%nat && running t); [|by left].
    cbn [read]. rewrite He, Hq, Hc. destruct (has_dev world); [by right|by left].
  - by left.
Qed.

(** With the hardware unavailable an iteration makes no call on the
    light strip; the inner loop makes no hardware call at all and
    leaves the score alone; the two waits evaluate [self.dev.read()]
    all the same, which reaches the device when there is one. *)
Lemma step_unavailable (b : Battle) (t : HardwareThread) :
  running t = true -> is_available t = false ->
  let t' := snd (step ecodes world (b, t)) in
  strip_calls (hw_log t') = strip_calls (hw_log t) /\
  (pc t = Active ->
     polls t' = polls t /\ hw_log t' = hw_log t /\ score t' = score t) /\
  (pc t = AwaitStart ->
     polls t' = S (polls t) /\ hw_log t' = hw_log t ++ dev_call world) /\
  (forall k, pc t = AwaitAck k -> (k < keys_needed)%nat ->
     polls t' = S (polls t) /\
     exists pause, hw_log t' = hw_log t ++ dev_call world ++ pause /\
                   (pause = [] \/ pause = [sleep (5 # 100)])).
Proof.
  intros Hrun A t'. subst t'.
  unfold step. destruct (pc t) as [| | |k|] eqn:Hpc; cbn [snd].
  - rewrite Hrun.
    destruct (round_setup_spec ecodes b t) as (_&_&_&_&_&_&_&_&_&->); done.
  - destruct (await_start_spec ecodes world t Hrun) as (_&_&_&_&_&_&P&L).
    rewrite (L A), P, strip_calls_app, strip_calls_dev_call, app_nil_r. done.
  - assert (polls (active_iteration ecodes world b t) = polls t /\
            hw_log (active_iteration ecodes world b t) = hw_log t /\
            score (active_iteration ecodes world b t) = score t) as (P & L & S).
    { unfold active_iteration. rewrite Hrun. cbn [now].
      match goal with |- context [round_end_check b ?x ?y] =>
        set (t1 := x); set (c := y); destruct (round_end_check b t1 c) end.
      - destruct (game_over_cleanup_spec t1) as (_&_&S&_&_&_&_&_&P&L).
        rewrite S, P, (L A). done.
      - destruct (mole_timer_spec world t1 c) as (_&_&S&(_&_&F&_&P)&L).
        destruct (read_input_spec ecodes world (mole_timer world t1 c))
          as (_ & R & _).
        rewrite R by (by rewrite F). rewrite S, P, (L A). done. }
    rewrite P, L, S. done.
  - unfold await_ack. rewrite Hrun, andb_true_r.
    destruct (k <? keys_needed)%nat eqn:Hk.
    + cbn [read].
      assert (forall x pause,
                polls x = S (polls t) ->
                hw_log x = hw_log t ++ dev_call world ++ pause ->
                pause = [] \/ pause = [sleep (5 # 100)] ->
                strip_calls (hw_log x) = strip_calls (hw_log t) /\
                (AwaitAck k = Active -> polls x = polls t /\
                   hw_log x = hw_log t /\ score x = score t) /\
                (AwaitAck k = AwaitStart -> polls x = S (polls t) /\
                   hw_log x = hw_log t ++ dev_call world) /\
                (forall k0, AwaitAck k = AwaitAck k0 -> (k0 < keys_needed)%nat ->
                   polls x = S (polls t) /\
                   exists pause, hw_log x = hw_log t ++ dev_call world ++ pause /\
                                 (pause = [] \/ pause = [sleep (5 # 100)]))) as Hx.
      { intros x pause Hp Hl Hs. rewrite Hl, !strip_calls_app, strip_calls_dev_call.
        assert (strip_calls pause = []) as -> by (by destruct Hs as [-> | ->]).
        rewrite !app_nil_r. repeat split; try done. by exists pause. }
      destruct (dev_read_result world (polls t)) as [events|];
        [destruct (existsb _ events)|].
      * apply (Hx _ []); cbn; rewrite ?app_nil_r; auto.
      * apply (Hx _ []); cbn; rewrite ?app_nil_r; auto.
      * apply (Hx _ [sleep (5 # 100)]); cbn; auto.
        by rewrite <- app_assoc.
    + cbn [negb]. rewrite A. cbn.
      split; [done|]. split; [done|]. split; [done|].
      intros k0 [= <-] Hlt. apply Nat.ltb_lt in Hlt. congruence.
  - done.
Qed.

(** While [running] holds no loop iteration ends the controller. *)
Lemma step_not_exited (b : Battle) (t : HardwareThread) :
  running t = true -> pc t <> Exited ->
  pc (snd (step ecodes world (b, t))) <> Exited.
Proof.
  intros Hrun Hpc. unfold step.
  destruct (pc t) as [| | |k|] eqn:E; cbn [snd]; [| | | |done].
  - rewrite Hrun.
    by destruct (round_setup_spec ecodes b t) as (_ & -> & _).
  - destruct (await_start_spec ecodes world t Hrun) as (H & _).
    destruct (match dev_read_result world (polls t) with
              | Events events => existsb (is_start_press ecodes) events
              | ReadError => false end).
    + by destruct H as (_ & -> & _).
    + destruct H as (_ & -> & _). by rewrite E.
  - unfold active_iteration. rewrite Hrun. cbn [now].
    match goal with |- context [round_end_check b ?x ?y] =>
      set (t1 := x); set (c := y); destruct (round_end_check b t1 c) end.
    + by destruct (game_over_cleanup_spec t1) as (-> & _).
    + destruct (mole_timer_spec world t1 c) as (_&_&_&(F&_)&_).
      destruct (read_input_spec ecodes world (mole_timer world t1 c))
        as ((G&_)&_).
      rewrite G.
      assert (pc (mole_timer world t1 c) = Active) as Hm
        by (rewrite F; exact E).
      destruct (is_available (mole_timer world t1 c)); cbn; by rewrite Hm.
  - destruct (decide (k < keys_needed)%nat) as [Hk|Hk].
    + destruct (await_ack_waiting ecodes world t k Hrun Hk) as (-> & _).
      destruct (batch_has_key_down _ _); [done|]. by rewrite E.
    + destruct (await_ack_done ecodes world t k Hrun) as (-> & _); [lia|done].
Qed.

(** Read failures and the mode flag.  A failed read is handled as a
    read that delivers no event (the acknowledgement wait adds a pause
    of 0.05 s) and does not end the controller; no loop iteration and
    neither statement of [stop] changes [is_available]. *)
Lemma read_failures_and_fixed_mode (b : Battle) (t : HardwareThread) :
  running t = true -> pc t <> Exited ->
  let t' := snd (step ecodes world (b, t)) in
  (dev_read_result world (polls t) = ReadError ->
     let quiet := world_with_read world (polls t) (Events []) in
     let t0 := snd (step ecodes quiet (b, t)) in
     (t' = t0 \/ t' = hw t0 [sleep (5 # 100)]) /\ pc t' <> Exited) /\
  is_available t' = is_available t /\
  is_available (stop_set_running t) = is_available t /\
  is_available (stop_clear_strip t) = is_available t.
Proof.
  intros Hrun Hpc t'. split; [|split; [|split]].
  - intros He. split; [by apply step_read_error | by apply step_not_exited].
  - apply step_is_available.
  - done.
  - by destruct (stop_clear_strip_spec t) as (_&_&_&_&->&_).
Qed.

(** C7, where the code parts from it.  [__init__] leaves
    [is_available] false on every path, also when the device was opened:
    the controller then runs in the unavailable mode with a device.  In
    that mode it does not skip every hardware call: each iteration of
    the wait for the start button and of the wait for the
    acknowledgement reads the device, and a press of key 5 read there
    starts the round.  Nor does the round go on as in the available
    mode: the inner loop reads nothing, so whatever is pressed the score
    does not change. *)
Theorem C7_unavailable_mode_with_a_device (b : Battle) (t : HardwareThread) :
  is_available t = false -> running t = true -> has_dev world = true ->
  let t' := snd (step ecodes world (b, t)) in
  (forall o q, is_available (HardwareThread_init o q) = false) /\
  (pc t = AwaitStart ->
     hw_log t' = hw_log t ++ [dev_read] /\
     (forall events, dev_read_result world (polls t) = Events events ->
        existsb (is_start_press ecodes) events = true -> pc t' = Active)) /\
  (forall k, pc t = AwaitAck k -> (k < keys_needed)%nat ->
     exists pause, hw_log t' = hw_log t ++ dev_read :: pause) /\
  (pc t = Active ->
     polls t' = polls t /\ hw_log t' = hw_log t /\ score t' = score t).
Proof.
  intros A Hrun Hd t'.
  destruct (step_unavailable b t Hrun A) as (_ & Hact & Hstart & Hack).
  fold t' in Hact, Hstart, Hack. rewrite (has_dev_call world Hd) in Hstart, Hack.
  split; [done|]. split; [|split; [|done]].
  - intros Hpc. destruct (Hstart Hpc) as [_ Hl]. split; [done|].
    intros events He Hp.
    destruct (await_start_spec ecodes world t Hrun) as (H & _).
    rewrite He, Hp in H. destruct H as (_ & H & _).
    subst t'. unfold step. by rewrite Hpc.
  - intros k Hpc Hk. destruct (Hack k Hpc Hk) as (_ & pause & Hl & _).
    by exists pause.
Qed.

End Modes.

(* ------------------------------------------------------------------ *)
(** * Worked instances *)

(** A world whose clock stands at [clock], whose random index is always
    0, and whose device gives the scripted reads; past the script every
    read fails. *)
Definition scripted_world (clock : Q) (reads : list ReadResult) : World :=
  {| time_time := fun _ => clock;
     random_randint := fun _ => 0;
     dev := Some (fun n => nth n reads ReadError) |}.

(** A key-down event of key [k], with the placeholder codes. *)
Definition key_down (k : Z) : InputEvent :=
  {| type := EV_KEY placeholder_ecodes; code := k; value := 1 |}.

(** The fleet and fortress when the pygame loop starts. *)
Definition fresh_battle : Battle := initialize_fleet_structure Battle_globals.

(** A controller inside the inner loop, mole 0 lit, at the given score. *)
Definition playing (available : bool) (points : Q) : HardwareThread :=
  {| event_queue := []; running := true; is_available := available;
     score := points; active_mole_light_index := Some 0;
     last_mole_time := 0; game_start_time := 0; pc := Active;
     ticks := 0; draws := 0; polls := 0; hw_log := [] |}.

(** A controller that has just put [GAME_OVER]. *)
Definition round_over (available : bool) : HardwareThread :=
  {| event_queue := []; running := true; is_available := available;
     score := 0; active_mole_light_index := None;
     last_mole_time := 0; game_start_time := 0; pc := AwaitAck 0;
     ticks := 0; draws := 0; polls := 0; hw_log := [] |}.

Example int_4_5 : Py.int (9 # 2) = 4.
Proof. reflexivity. Qed.

Example key_1_is_light_0 :
  KEY_TO_LIGHT_INDEX placeholder_ecodes !! 1 = Some 0.
Proof. vm_compute. reflexivity. Qed.

Example hit_hit_miss_scores_1_5 :
  (score (handle_keys placeholder_ecodes (scripted_world 0 [])
                      (playing true 0) [key_down 1; key_down 1; key_down 3])
     == 3 # 2)%Q.
Proof. vm_compute. reflexivity. Qed.

(** A controller at the top of the round loop. *)
Definition at_round_start (available : bool) : HardwareThread :=
  {| event_queue := []; running := true; is_available := available;
     score := 0; active_mole_light_index := None;
     last_mole_time := 0; game_start_time := 0; pc := RoundSetup;
     ticks := 0; draws := 0; polls := 0; hw_log := [] |}.

(** The battle once five hits have sunk the Sloop. *)
Definition sloop_sunk : Battle :=
  battle (process_events (Main_init fresh_battle) (replicate 5 (PLAYER_HIT 0))).

Example sloop_sunk_target : get_current_target_ship (ENEMY_FLEET sloop_sunk) = Some 1%nat.
Proof. reflexivity. Qed.

(** C1 at an instance: 31 seconds into the round the iteration leaves
    the loop without drawing an index. *)
Lemma C1_witness :
  pc (playing true 0) = Active /\ running (playing true 0) = true /\
  pc (snd (step placeholder_ecodes (scripted_world 31 [])
                (fresh_battle, playing true 0))) = AwaitAck 0 /\
  draws (snd (step placeholder_ecodes (scripted_world 31 [])
                   (fresh_battle, playing true 0))) = 0%nat.
Proof.
  split; [reflexivity|]. split; [reflexivity|].
  destruct (C1_round_end_check_first placeholder_ecodes (scripted_world 31 [])
              fresh_battle (playing true 0) eq_refl eq_refl) as [H _].
  destruct H as (H1 & _ & _ & _ & H5 & _).
  - left. cbn. lra.
  - split; assumption.
Defined.

(** C2 at an instance: one poll delivers key 1, key 1 and key 3 while
    mole 0 is lit and the next moles drawn are 0 again: hit, hit, miss
    through one iteration of the inner loop. *)
Lemma C2_witness :
  pc (playing true 0) = Active /\ running (playing true 0) = true /\
  (0 <= score (playing true 0))%Q /\
  (score (snd (step placeholder_ecodes
                 (scripted_world 0 [Events [key_down 1; key_down 1; key_down 3]])
                 (fresh_battle, playing true 0))) == 3 # 2)%Q.
Proof.
  split; [reflexivity|]. split; [reflexivity|]. split; [apply Qle_refl|].
  destruct (C2_hit_and_miss_scoring placeholder_ecodes
              (scripted_world 0 [Events [key_down 1; key_down 1; key_down 3]])
              fresh_battle (playing true 0) eq_refl eq_refl (Qle_refl 0) eq_refl)
    as (_ & H & _).
  destruct (H eq_refl [key_down 1; key_down 1; key_down 3] eq_refl) as (_ & E & _).
  rewrite E. vm_compute. reflexivity.
Defined.

(** C3 at an instance: an escape before any hit costs the fortress 1. *)
Lemma C3_witness :
  fleet_ok (ENEMY_FLEET (battle (Main_init fresh_battle))) /\
  (health (PLAYER_FORTRESS (battle (process_event (Main_init fresh_battle) MOLE_ESCAPED)))
     == Qmax 0 (10 - 1))%Q.
Proof.
  assert (fleet_ok (ENEMY_FLEET (battle (Main_init fresh_battle)))) as Hok.
  { repeat constructor. }
  split; [exact Hok|].
  destruct (C3_event_consumption (Main_init fresh_battle) 0 Hok) as (_ & _ & H).
  destruct (H MOLE_ESCAPED (or_intror eq_refl)) as [Hg _].
  destruct Hg as (_ & Hh & _).
  - split; [discriminate | reflexivity].
  - exact Hh.
Defined.

(** C4 at an instance: five hits and an escape are queued at start-up
    and the pygame loop consumes them; the Sloop ends at health 0. *)
Lemma C4_witness :
  battle (main {| main := Main_init fresh_battle;
                  thread := set_event_queue (at_round_start true)
                              (replicate 5 (PLAYER_HIT 0) ++ [MOLE_ESCAPED]) |})
    = initialize_fleet_structure Battle_globals /\
  health_in_bounds
    (battle (main (fst (sys_run placeholder_ecodes (scripted_world 0 [])
       {| main := Main_init fresh_battle;
          thread := set_event_queue (at_round_start true)
                      (replicate 5 (PLAYER_HIT 0) ++ [MOLE_ESCAPED]) |}
       (replicate 6 consume))))).
Proof.
  split; [reflexivity|].
  apply (C4_health_in_bounds placeholder_ecodes (scripted_world 0 [])
           {| main := Main_init fresh_battle;
              thread := set_event_queue (at_round_start true)
                          (replicate 5 (PLAYER_HIT 0) ++ [MOLE_ESCAPED]) |}
           (replicate 6 consume) eq_refl).
Defined.

(** C5 at an instance: with the Sloop sunk, one more hit is consumed and
    the Sloop is not the target. *)
Lemma C5_witness :
  fleet_ok (ENEMY_FLEET sloop_sunk) /\
  rtc (round_step placeholder_ecodes (scripted_world 0 []))
      {| main := Main_init sloop_sunk;
         thread := set_event_queue (at_round_start false) [PLAYER_HIT 1] |}
      {| main := process_event (Main_init sloop_sunk) (PLAYER_HIT 1);
         thread := at_round_start false |} /\
  get_current_target_ship
    (ENEMY_FLEET (battle (process_event (Main_init sloop_sunk) (PLAYER_HIT 1))))
    <> Some 0%nat.
Proof.
  assert (fleet_ok (ENEMY_FLEET sloop_sunk)) as Hok by (repeat constructor).
  assert (rtc (round_step placeholder_ecodes (scripted_world 0 []))
      {| main := Main_init sloop_sunk;
         thread := set_event_queue (at_round_start false) [PLAYER_HIT 1] |}
      {| main := process_event (Main_init sloop_sunk) (PLAYER_HIT 1);
         thread := at_round_start false |}) as Hrun.
  { apply rtc_once. exists consume. split; [reflexivity|].
    intros [H _]. discriminate H. }
  split; [exact Hok|]. split; [exact Hrun|].
  destruct (C5_fleet_progression placeholder_ecodes (scripted_world 0 [])
              {| main := Main_init sloop_sunk;
                 thread := set_event_queue (at_round_start false) [PLAYER_HIT 1] |}
              {| main := process_event (Main_init sloop_sunk) (PLAYER_HIT 1);
                 thread := at_round_start false |} Hok Hrun)
    as (_ & H & _).
  eapply (H 0%nat); reflexivity.
Defined.

(** C6 at an instance: start-up, the round set up, the start button
    pressed, and two events consumed. *)
Lemma C6_witness :
  pc (thread (sys_init device_opened)) = RoundSetup /\
  event_queue (thread (sys_init device_opened)) = [] /\
  snd (sys_run placeholder_ecodes (scripted_world 0 [Events [key_down 5]])
               (sys_init device_opened)
               [controller_step; controller_step; consume; controller_step; consume])
  ++ event_queue (thread (fst
       (sys_run placeholder_ecodes (scripted_world 0 [Events [key_down 5]])
                (sys_init device_opened)
                [controller_step; controller_step; consume; controller_step; consume])))
  = sys_produced placeholder_ecodes (scripted_world 0 [Events [key_down 5]])
                 (sys_init device_opened)
                 [controller_step; controller_step; consume; controller_step; consume].
Proof.
  split; [reflexivity|]. split; [reflexivity|].
  apply (C6_spawn_before_outcome placeholder_ecodes
           (scripted_world 0 [Events [key_down 5]]) (sys_init device_opened)
           [controller_step; controller_step; consume; controller_step; consume]
           eq_refl eq_refl).
Defined.

(** The controller waiting for the start button after a start-up that
    opened the device. *)
Definition waiting_with_device : HardwareThread :=
  snd (step placeholder_ecodes (scripted_world 0 [])
            (fresh_battle, HardwareThread_init device_opened [])).

(** C7 at an instance: started with the device open, the controller is
    in the unavailable mode; its wait for the start button reads the
    device and a press of key 5 starts the round. *)
Lemma C7_witness :
  is_available waiting_with_device = false /\
  running waiting_with_device = true /\
  has_dev (scripted_world 0 [Events [key_down 5]]) = true /\
  pc waiting_with_device = AwaitStart /\
  hw_log (snd (step placeholder_ecodes (scripted_world 0 [Events [key_down 5]])
                    (fresh_battle, waiting_with_device)))
  = hw_log waiting_with_device ++ [dev_read] /\
  pc (snd (step placeholder_ecodes (scripted_world 0 [Events [key_down 5]])
                (fresh_battle, waiting_with_device))) = Active.
Proof.
  split; [reflexivity|]. split; [reflexivity|]. split; [reflexivity|].
  split; [reflexivity|].
  destruct (C7_unavailable_mode_with_a_device placeholder_ecodes
              (scripted_world 0 [Events [key_down 5]]) fresh_battle
              waiting_with_device eq_refl eq_refl eq_refl) as (_ & H & _).
  destruct (H eq_refl) as [Hlog Hstart]. split; [exact Hlog|].
  apply (Hstart [key_down 5]); reflexivity.
Defined.

(** Three reads after [GAME_OVER]: two keys at once, a failure, one key. *)
Definition acknowledgement_reads : list ReadResult :=
  [Events [key_down 1; key_down 2]; ReadError; Events [key_down 7]].

(** C8 at an instance: the first batch counts once, the third read
    brings the count to 2, and the iteration after it starts a round. *)
Lemma C8_witness :
  pc (round_over true) = AwaitAck 0 /\ running (round_over true) = true /\
  (qualifying_polls placeholder_ecodes (scripted_world 0 acknowledgement_reads)
                    (polls (round_over true)) 2 < keys_needed)%nat /\
  pc (snd (Nat.iter 4 (step placeholder_ecodes (scripted_world 0 acknowledgement_reads))
                    (fresh_battle, round_over true))) = RoundSetup.
Proof.
  assert (qualifying_polls placeholder_ecodes (scripted_world 0 acknowledgement_reads)
                           (polls (round_over true)) 2 < keys_needed)%nat as Hq.
  { vm_compute. apply Nat.le_refl. }
  split; [reflexivity|]. split; [reflexivity|]. split; [exact Hq|].
  destruct (C8_acknowledgement_counts_batches placeholder_ecodes
              (scripted_world 0 acknowledgement_reads) fresh_battle
              (round_over true) 2 eq_refl eq_refl Hq) as (_ & _ & _ & H).
  destruct (H eq_refl) as [_ Hback]. apply Hback. reflexivity.
Defined.

(** C8 as stated fails.  Two key-down events arrive in one batch: both
    were observed, one was counted, and with no further press the
    controller is still waiting twenty iterations later. *)
Lemma C8_counterexample :
  count_key_downs placeholder_ecodes
    (dev_read_result (scripted_world 0 [Events [key_down 1; key_down 2]]) 0) = 2%nat /\
  pc (snd (Nat.iter 1 (step placeholder_ecodes
                            (scripted_world 0 [Events [key_down 1; key_down 2]]))
                    (fresh_battle, round_over true))) = AwaitAck 1 /\
  pc (snd (Nat.iter 20 (step placeholder_ecodes
                             (scripted_world 0 [Events [key_down 1; key_down 2]]))
                    (fresh_battle, round_over true))) = AwaitAck 1.
Proof. vm_compute. repeat split; reflexivity. Qed.

(** Key 1 five times while mole 0 stays lit, given to the handler. *)
Example five_hits_score_5 :
  (score (handle_keys placeholder_ecodes (scripted_world 0 []) (playing true 0)
                      (replicate 5 (key_down 1))) == 5)%Q.
Proof. vm_compute. reflexivity. Qed.

(** C10 at an instance: hit, hit, miss in one batch leave 1.5 points,
    and the final score kept is 1. *)
Lemma C10_witness :
  half_points (score (playing true 0)) /\
  last_game_score
    (process_event (Main_init fresh_battle)
       (GAME_OVER (score (snd (Nat.iter 1
          (step placeholder_ecodes
                (scripted_world 0 [Events [key_down 1; key_down 1; key_down 3]]))
          (fresh_battle, playing true 0)))))) = 1.
Proof.
  assert (half_points (score (playing true 0))) as Hh.
  { exists 0. split; [apply Z.le_refl | reflexivity]. }
  split; [exact Hh|].
  destruct (C10_final_score_truncated placeholder_ecodes
              (scripted_world 0 [Events [key_down 1; key_down 1; key_down 3]])
              fresh_battle (playing true 0) 1 (Main_init fresh_battle) Hh)
    as (_ & _ & _ & H).
  destruct (H 1) as [Hfinal _].
  - discriminate.
  - vm_compute. reflexivity.
  - exact Hfinal.
Defined.

(** The world [w] as a controller meets it whose [__init__] did not get
    to assign [self.dev]. *)
Definition without_device (w : World) : World :=
  {| time_time := time_time w; random_randint := random_randint w; dev := None |}.

(** The two modes on one and the same device (key 5, then the key of
    the lit mole), from the top of a round.  Started with the device
    open, the controller is in the unavailable mode: it reads the press
    of key 5 off the device and starts the round, and never reads the
    press of the lit mole; the available controller scores it.  Started
    without a device, the controller reads nothing and stays in the wait
    for the start button. *)
Example modes_on_one_device :
  is_available (HardwareThread_init device_opened []) = false /\
  pc (snd (Nat.iter 3
      (step placeholder_ecodes
            (scripted_world 0 [Events [key_down 5]; Events [key_down 1]]))
      (fresh_battle, HardwareThread_init device_opened []))) = Active /\
  (score (snd (Nat.iter 3
      (step placeholder_ecodes
            (scripted_world 0 [Events [key_down 5]; Events [key_down 1]]))
      (fresh_battle, HardwareThread_init device_opened []))) == 0)%Q /\
  hw_log (snd (Nat.iter 3
      (step placeholder_ecodes
            (scripted_world 0 [Events [key_down 5]; Events [key_down 1]]))
      (fresh_battle, HardwareThread_init device_opened [])))
    = [set_all 0 0 0 None; show; dev_read] /\
  (score (snd (Nat.iter 3
      (step placeholder_ecodes
            (scripted_world 0 [Events [key_down 5]; Events [key_down 1]]))
      (fresh_battle, at_round_start true))) == 1)%Q /\
  pc (snd (Nat.iter 50
      (step placeholder_ecodes
            (without_device
               (scripted_world 0 [Events [key_down 5]; Events [key_down 1]])))
      (fresh_battle, HardwareThread_init device_not_found []))) = AwaitStart /\
  hw_log (snd (Nat.iter 50
      (step placeholder_ecodes
            (without_device
               (scripted_world 0 [Events [key_down 5]; Events [key_down 1]])))
      (fresh_battle, HardwareThread_init device_not_found [])))
    = [set_all 0 0 0 None; show].
Proof. vm_compute. repeat split; reflexivity. Qed.

(* ------------------------------------------------------------------ *)
(** * More of the battle model *)

(** ** Sinking a ship hit by hit *)

(** [take_damage] called [n] times on the same ship. *)
Definition take_damage_times (n : nat) (s : EnemyShip) : EnemyShip :=
  Nat.iter n (fun ship => fst (take_damage ship)) s.

Lemma take_damage_times_afloat (k : nat) (s : EnemyShip) :
  is_destroyed s = false -> Z.of_nat k < current_health s ->
  current_health (take_damage_times k s) = current_health s - Z.of_nat k /\
  is_destroyed (take_damage_times k s) = false /\
  max_health (take_damage_times k s) = max_health s /\
  name (take_damage_times k s) = name s.
Proof.
  intros Hd. induction k as [|k IH]; intros Hk.
  - cbn. repeat split; try done. lia.
  - destruct IH as (I1 & I2 & I3 & I4); [lia|].
    unfold take_damage_times in *. rewrite Nat.iter_succ.
    destruct (take_damage_afloat _ I2) as (E1 & E2 & E3 & E4).
    rewrite E1, E2, E3, E4, I1, I3, I4. repeat split; try done; lia.
Qed.

Lemma take_damage_times_sunk (k : nat) (s : EnemyShip) :
  is_destroyed s = true -> take_damage_times k s = s.
Proof.
  intros Hd. induction k as [|k IH]; [done|].
  unfold take_damage_times in *. rewrite Nat.iter_succ, IH.
  by rewrite take_damage_sunk.
Qed.

(** A new ship of [mh] points, [mh] positive, under repeated
    [take_damage]: each of the first [mh - 1] calls takes one point and
    returns [SHIP_HIT]; call number [mh] brings the health to 0, marks the
    ship destroyed and returns [SHIP_DESTROYED]; every later call returns
    [None] and changes nothing. *)
Theorem take_damage_sinks_after_max_health (n : string) (mh : Z) (k : nat) :
  0 < mh ->
  let s := take_damage_times k (EnemyShip_init n mh) in
  (Z.of_nat k < mh ->
     current_health s = mh - Z.of_nat k /\ is_destroyed s = false /\
     snd (take_damage s) =
       Some (if Z.of_nat k + 1 =? mh then SHIP_DESTROYED else SHIP_HIT)) /\
  (mh <= Z.of_nat k ->
     current_health s = 0 /\ is_destroyed s = true /\
     take_damage s = (s, None)).
Proof.
  intros Hmh s. split.
  - intros Hk.
    destruct (take_damage_times_afloat k (EnemyShip_init n mh) eq_refl Hk)
      as (E1 & E2 & _).
    fold s in E1, E2. cbn in E1. split; [done|]. split; [done|].
    unfold take_damage. rewrite E2. cbn. rewrite E1.
    destruct (Z.of_nat k + 1 =? mh) eqn:E.
    + apply Z.eqb_eq in E.
      replace (mh - Z.of_nat k - 1 <=? 0) with true by (symmetry; apply Z.leb_le; lia).
      done.
    + apply Z.eqb_neq in E.
      replace (mh - Z.of_nat k - 1 <=? 0) with false by (symmetry; apply Z.leb_gt; lia).
      done.
  - intros Hk.
    assert (exists j, k = (Z.to_nat mh + j)%nat) as [j ->] by (exists (k - Z.to_nat mh)%nat; lia).
    assert (exists m, Z.to_nat mh = S m) as [m Hm] by (exists (Z.to_nat mh - 1)%nat; lia).
    assert (current_health (take_damage_times (S m) (EnemyShip_init n mh)) = 0 /\
            is_destroyed (take_damage_times (S m) (EnemyShip_init n mh)) = true)
      as [H0 Hd].
    { destruct (take_damage_times_afloat m (EnemyShip_init n mh) eq_refl)
        as (E1 & E2 & _); [cbn; lia|].
      unfold take_damage_times in *. rewrite Nat.iter_succ.
      destruct (take_damage_afloat _ E2) as (_ & _ & E3 & E4).
      rewrite E3, E4, E1. cbn. split; [lia|]. apply Z.leb_le. lia. }
    assert (s = take_damage_times (S m) (EnemyShip_init n mh)) as ->.
    { subst s. rewrite Hm, Nat.add_comm. unfold take_damage_times.
      rewrite Nat.iter_add. apply (take_damage_times_sunk j _ Hd). }
    split; [done|]. split; [done|]. by apply take_damage_sunk.
Qed.

(** ** Which sprite a ship shows *)

Lemma health_ratio_le_half (h m : Z) :
  0 < m -> Py.le (inject_Z h / inject_Z m) (1 # 2) = true <-> 2 * h <= m.
Proof.
  intros Hm. rewrite Py.le_true. destruct m as [|p|p]; try lia.
  unfold Qle, Qdiv, Qmult, Qinv, inject_Z. simpl. lia.
Qed.

Lemma get_current_sprite_cases (s : EnemyShip) :
  0 < max_health s ->
  (get_current_sprite s = destroyed <-> is_destroyed s = true) /\
  (get_current_sprite s = half <->
     is_destroyed s = false /\ 2 * current_health s <= max_health s) /\
  (get_current_sprite s = full <->
     is_destroyed s = false /\ max_health s < 2 * current_health s).
Proof.
  intros Hm. unfold get_current_sprite.
  pose proof (health_ratio_le_half (current_health s) (max_health s) Hm) as H.
  destruct (is_destroyed s).
  - repeat split; try done; intros [? _]; done.
  - destruct (Py.le _ (1 # 2)) eqn:E.
    + assert (2 * current_health s <= max_health s) by (by apply H).
      repeat split; try done; try lia; intros [_ ?]; lia.
    + assert (~ 2 * current_health s <= max_health s)
        by (intros H'; apply H in H'; congruence).
      repeat split; try done; try lia; intros [_ ?]; lia.
Qed.

(** For a ship of the fleet, its name and maximum a row of [SHIP_DATA]
    (so a maximum of 5, 10 or 15, where the division in binary64 decides
    the test against 0.5 as the exact ratio does), whatever its health:
    the destroyed sprite exactly when the ship is marked destroyed;
    otherwise the half sprite exactly when the health is at most half
    the maximum, the full one above. *)
Theorem get_current_sprite_thresholds (s : EnemyShip) :
  (name s, max_health s) ∈ SHIP_DATA ->
  (get_current_sprite s = destroyed <-> is_destroyed s = true) /\
  (get_current_sprite s = half <->
     is_destroyed s = false /\ 2 * current_health s <= max_health s) /\
  (get_current_sprite s = full <->
     is_destroyed s = false /\ max_health s < 2 * current_health s).
Proof.
  intros Hrow. apply get_current_sprite_cases.
  unfold SHIP_DATA in Hrow. rewrite !elem_of_cons, elem_of_nil in Hrow.
  destruct Hrow as [H|[H|[H|[H|[H|[]]]]]]; inversion H; lia.
Qed.

(** The hit that sinks a ship assigns [self.image] before it sets
    [is_destroyed]: the stored image is then the half sprite, while
    [get_current_sprite], asked again, answers the destroyed one. *)
Theorem take_damage_sinking_image (s : EnemyShip) :
  0 < max_health s -> is_destroyed s = false -> current_health s <= 1 ->
  snd (take_damage s) = Some SHIP_DESTROYED /\
  image (fst (take_damage s)) = half /\
  get_current_sprite (fst (take_damage s)) = destroyed.
Proof.
  destruct s as [n m h d i]. cbn [max_health is_destroyed current_health].
  intros Hm -> Hh.
  assert ((h - 1 <=? 0) = true) as E1 by (apply Z.leb_le; lia).
  assert (Py.le (inject_Z (h - 1) / inject_Z m) (1 # 2) = true) as E2
    by (apply health_ratio_le_half; lia).
  unfold take_damage, get_current_sprite.
  cbn [negb is_destroyed current_health max_health name image fst snd].
  rewrite E1, E2. cbn [is_destroyed image fst snd]. done.
Qed.

(** ** Misses and escapes in a row *)

Definition is_miss_or_escape (e : GameEvent) : bool :=
  match e with
  | PLAYER_MISS _ | MOLE_ESCAPED => true
  | _ => false
  end.

(** With a ship still afloat and the fortress health not negative, a run
    of [n] miss and escape events leaves the fleet as it is and the
    fortress at [max(0, health - n)]: one point each until 0 is reached,
    nothing after. *)
Theorem misses_wear_the_fortress_down (events : list GameEvent) (m : Main) :
  Forall (fun e => is_miss_or_escape e = true) events ->
  get_current_target_ship (ENEMY_FLEET (battle m)) <> None ->
  (0 <= health (PLAYER_FORTRESS (battle m)))%Q ->
  let m' := process_events m events in
  ENEMY_FLEET (battle m') = ENEMY_FLEET (battle m) /\
  fortress_max_health (PLAYER_FORTRESS (battle m'))
    = fortress_max_health (PLAYER_FORTRESS (battle m)) /\
  (health (PLAYER_FORTRESS (battle m'))
     == Qmax 0 (health (PLAYER_FORTRESS (battle m))
                - inject_Z (Z.of_nat (length events))))%Q.
Proof.
  intros Hev. revert m. induction Hev as [|e es He _ IH]; intros m Ht Hh.
  - cbn. split; [done|]. split; [done|].
    change (inject_Z (Z.of_nat 0)) with 0%Q. rewrite Q.max_r; lra.
  - cbv zeta. unfold process_events. cbn [fold_left].
    fold (process_events (process_event m e) es).
    assert (ENEMY_FLEET (battle (process_event m e)) = ENEMY_FLEET (battle m) /\
            fortress_max_health (PLAYER_FORTRESS (battle (process_event m e)))
              = fortress_max_health (PLAYER_FORTRESS (battle m)) /\
            (health (PLAYER_FORTRESS (battle (process_event m e)))
               == Qmax 0 (health (PLAYER_FORTRESS (battle m)) - 1))%Q)
      as (E1 & E2 & E3).
    { destruct (get_current_target_ship (ENEMY_FLEET (battle m))) as [i|] eqn:Hi;
        [|done].
      assert (process_event m e =
              if Py.gt (health (PLAYER_FORTRESS (battle m))) 0
              then {| battle := {| ENEMY_FLEET := ENEMY_FLEET (battle m);
                                   PLAYER_FORTRESS := damage (PLAYER_FORTRESS (battle m)) |};
                      game_running := game_running m; game_over := game_over m;
                      last_game_score := last_game_score m;
                      all_sprites := all_sprites m ++ [MISS i] |}
              else m) as ->.
      { destruct e; try discriminate He; cbn; by rewrite Hi. }
      destruct (Py.gt (health (PLAYER_FORTRESS (battle m))) 0) eqn:G.
      - cbn. split; [done|]. split; [done|]. apply Py.max_Qmax.
      - apply Py.gt_false in G. split; [done|]. split; [done|].
        rewrite Q.max_l; lra. }
    destruct (IH (process_event m e)) as (I1 & I2 & I3).
    + by rewrite E1.
    + rewrite E3. apply Q.le_max_l.
    + rewrite I1, I2, I3, E1, E2, E3. split; [done|]. split; [done|].
      cbn [length]. rewrite Nat2Z.inj_succ. unfold Z.succ. rewrite inject_Z_plus.
      change (inject_Z 1) with 1%Q.
      set (h := health (PLAYER_FORTRESS (battle m))) in *.
      set (x := inject_Z (Z.of_nat (length es))) in *.
      assert (0 <= x)%Q as Hx.
      { subst x. change 0%Q with (inject_Z 0). rewrite <- Zle_Qle. lia. }
      destruct (Q.max_spec 0 (h - 1)) as [[H1 H2]|[H1 H2]]; rewrite H2;
      destruct (Q.max_spec 0 (h - (x + 1))) as [[H3 H4]|[H3 H4]]; rewrite H4;
      match goal with |- (Qmax 0 ?y == _)%Q =>
        destruct (Q.max_spec 0 y) as [[H5 H6]|[H5 H6]]; rewrite H6 end; lra.
Qed.

(** ** What a round can do to the battle *)

(** A property of the battle kept by the handling of every event and by
    the round reset is kept along every schedule of the two threads. *)
Section BattleInvariant.

Variable ecodes : Ecodes.
Variable world : World.
Variable P : Battle -> Prop.
Hypothesis P_event : forall m e, P (battle m) -> P (battle (process_event m e)).
Hypothesis P_reset : forall b, P b -> P (reset_game_for_new_round b).

Lemma sys_step_battle (s : System) (a : Action) :
  P (battle (main s)) -> P (battle (main (fst (sys_step ecodes world s a)))).
Proof.
  intros H. destruct a; unfold sys_step.
  - pose proof (step_battle ecodes world (battle (main s)) (thread s)) as E.
    destruct (step ecodes world (battle (main s), thread s)) as [b t].
    cbn [fst main battle set_battle] in *. subst b.
    destruct (_ && _); [by apply P_reset | done].
  - destruct (Queue.get_nowait _) as [[e q]|]; cbn [fst main]; [|done].
    by apply P_event.
  - cbn [fst main]. by rewrite check_win_loss_battle.
  - done.
  - done.
Qed.

Lemma sys_run_battle (actions : list Action) (s : System) :
  P (battle (main s)) -> P (battle (main (fst (sys_run ecodes world s actions)))).
Proof.
  revert s. induction actions as [|a rest IH]; intros s H; [done|].
  cbn [sys_run]. pose proof (sys_step_battle s a H) as H1.
  destruct (sys_step ecodes world s a) as [s1 e].
  specialize (IH s1 H1).
  destruct (sys_run ecodes world s1 rest) as [s2 es]. done.
Qed.

End BattleInvariant.

(** The ships are those of [SHIP_DATA], by name and maximum, and the
    fortress maximum is 10. *)
Definition roster (b : Battle) : Prop :=
  map (fun s => (name s, max_health s)) (ENEMY_FLEET b) = SHIP_DATA /\
  fortress_max_health (PLAYER_FORTRESS b) = 10%Q.

Lemma map_alter_same {A B : Type} (g : A -> B) (f : A -> A) (i : nat) (l : list A) :
  (forall x, g (f x) = g x) -> map g (alter f i l) = map g l.
Proof.
  intros H. revert i. induction l as [|x l IH]; intros [|i]; cbn; try done.
  - by rewrite H.
  - by rewrite IH.
Qed.

Lemma take_damage_same_ship (s : EnemyShip) :
  (name (fst (take_damage s)), max_health (fst (take_damage s)))
  = (name s, max_health s).
Proof.
  destruct (is_destroyed s) eqn:D.
  - by rewrite take_damage_sunk.
  - by destruct (take_damage_afloat s D) as (-> & -> & _).
Qed.

Lemma roster_event (m : Main) (e : GameEvent) :
  roster (battle m) -> roster (battle (process_event m e)).
Proof.
  intros [Hf Hp]. destruct e; cbn; try done.
  - destruct (get_current_target_ship _) as [i|]; [|done].
    by destruct (Py.gt _ 0).
  - destruct (get_current_target_ship _) as [i|]; [|done]. split; cbn; [|done].
    rewrite <- Hf. apply map_alter_same. apply take_damage_same_ship.
  - destruct (get_current_target_ship _) as [i|]; [|done].
    by destruct (Py.gt _ 0).
Qed.

Lemma roster_reset (b : Battle) :
  roster b -> reset_game_for_new_round b = initialize_fleet_structure Battle_globals.
Proof.
  intros [Hf Hp]. unfold reset_game_for_new_round.
  destruct (ENEMY_FLEET b) as [|s rest] eqn:E; [done|].
  unfold initialize_fleet_structure. rewrite Hp, <- Hf.
  f_equal. rewrite map_map. done.
Qed.

(** Whatever the two threads have done since start-up, the round reset
    gives back exactly the battle [main] built: every ship afloat at its
    maximum with the full sprite, the fortress at 10 of 10. *)
Theorem reset_restores_the_initial_battle
        (ecodes : Ecodes) (world : World) (s0 : System) (actions : list Action) :
  battle (main s0) = initialize_fleet_structure Battle_globals ->
  reset_game_for_new_round (battle (main (fst (sys_run ecodes world s0 actions))))
  = initialize_fleet_structure Battle_globals.
Proof.
  intros H0. apply roster_reset.
  apply (sys_run_battle ecodes world roster).
  - apply roster_event.
  - intros b Hb. by rewrite (roster_reset b Hb).
  - by rewrite H0.
Qed.

(** ** How a round ends on screen *)

(** The banner [main] draws over the battle: the three messages of the
    game-over screen, or the prompt before a round has started. *)
Definition banner (m : Main) : option string :=
  if game_over m then
    if Py.le (health (PLAYER_FORTRESS (battle m))) 0
    then Some "DEFEAT! SHIP SUNK!"%string
    else if bool_decide (get_current_target_ship (ENEMY_FLEET (battle m)) = None)
    then Some "VICTORY! ALL SHIPS SUNK!"%string
    else Some "TIME'S UP!"%string
  else if negb (game_running m) then Some "PRESS '5' TO START BATTLE"%string
  else None.

(** A ship is afloat or the fortress health is positive, on top of the
    bounds, the fortress maximum being positive. *)
Definition not_both_lost (b : Battle) : Prop :=
  battle_ok b /\ (0 < fortress_max_health (PLAYER_FORTRESS b))%Q /\
  (get_current_target_ship (ENEMY_FLEET b) <> None \/
   (0 < health (PLAYER_FORTRESS b))%Q).

Lemma not_both_lost_event (m : Main) (e : GameEvent) :
  not_both_lost (battle m) -> not_both_lost (battle (process_event m e)).
Proof.
  intros (Hok & Hmax & H).
  split; [by apply process_event_ok|].
  destruct Hok as [_ [Hlo Hhi]].
  assert ((0 < fortress_max_health (PLAYER_FORTRESS (battle m)))%Q /\
          (get_current_target_ship (ENEMY_FLEET (battle m)) <> None \/
           (0 < health (PLAYER_FORTRESS (battle m)))%Q)) as Hsame by done.
  destruct e; cbn; try done.
  - destruct (get_current_target_ship (ENEMY_FLEET (battle m))) as [i|] eqn:Hi;
      [|by rewrite Hi].
    destruct (Py.gt _ 0); [|by rewrite Hi].
    cbn. split; [done|]. left. by rewrite Hi.
  - destruct (get_current_target_ship (ENEMY_FLEET (battle m))) as [i|] eqn:Hi;
      [|by rewrite Hi].
    cbn. split; [done|]. right.
    destruct (Py.min_cases (health (PLAYER_FORTRESS (battle m)) + (1#2))
                (fortress_max_health (PLAYER_FORTRESS (battle m))))
      as [[H' E]|[H' E]]; unfold heal; cbn; rewrite E; lra.
  - destruct (get_current_target_ship (ENEMY_FLEET (battle m))) as [i|] eqn:Hi;
      [|by rewrite Hi].
    destruct (Py.gt _ 0); [|by rewrite Hi].
    cbn. split; [done|]. left. by rewrite Hi.
Qed.

Lemma not_both_lost_reset (b : Battle) :
  not_both_lost b -> not_both_lost (reset_game_for_new_round b).
Proof.
  intros (Hok & Hmax & H).
  split; [by apply reset_game_for_new_round_ok|].
  unfold reset_game_for_new_round.
  destruct (ENEMY_FLEET b) as [|s rest] eqn:E; [by rewrite E|].
  cbn. split; [done|]. by right.
Qed.

(** In every state reached from start-up the fortress and the fleet are
    never both lost: a fortress health of 0 or less and a fleet with no
    ship afloat do not occur together.  On the game-over screen the three
    messages are then told apart by one test each: defeat exactly when the
    fortress health is 0 or less, victory exactly when no ship is afloat,
    time's up exactly when neither holds. *)
Theorem defeat_and_victory_exclude_each_other
        (ecodes : Ecodes) (world : World) (s0 : System) (actions : list Action) :
  battle (main s0) = initialize_fleet_structure Battle_globals ->
  let m := main (fst (sys_run ecodes world s0 actions)) in
  let lost := (health (PLAYER_FORTRESS (battle m)) <= 0)%Q in
  let won := get_current_target_ship (ENEMY_FLEET (battle m)) = None in
  ~ (lost /\ won) /\
  (game_over m = true ->
     (banner m = Some "DEFEAT! SHIP SUNK!"%string <-> lost) /\
     (banner m = Some "VICTORY! ALL SHIPS SUNK!"%string <-> won) /\
     (banner m = Some "TIME'S UP!"%string <-> ~ lost /\ ~ won)).
Proof.
  intros H0 m lost won.
  assert (not_both_lost (battle m)) as (_ & _ & H).
  { apply (sys_run_battle ecodes world not_both_lost).
    - apply not_both_lost_event.
    - apply not_both_lost_reset.
    - rewrite H0. split; [apply initial_battle_ok|]. split; [done|]. by left. }
  assert (~ (lost /\ won)) as Hex.
  { intros [Hl Hw]. subst lost won. destruct H as [H|H]; [done|lra]. }
  split; [done|]. intros Hg. unfold banner. rewrite Hg.
  destruct (Py.le (health (PLAYER_FORTRESS (battle m))) 0) eqn:L.
  - apply Py.le_true in L. fold lost in L.
    repeat split; try done; try (intros ?; tauto).
  - apply Py.le_false in L.
    assert (~ lost) as Hnl by (subst lost; lra).
    destruct (bool_decide (get_current_target_ship (ENEMY_FLEET (battle m)) = None))
      eqn:W.
    + apply bool_decide_eq_true in W. fold won in W.
      repeat split; try done; try (intros ?; tauto).
    + apply bool_decide_eq_false in W. fold won in W.
      repeat split; try done; try (intros ?; tauto).
Qed.

(** ** The health bars *)

Definition GREEN : Z * Z * Z := (0, 200, 0).
Definition RED : Z * Z * Z := (200, 0, 0).
Definition ORANGE : Z * Z * Z := (255, 165, 0).

(** What [PlayerShip.draw_health_bar] puts on screen: the width and the
    colour of the fill inside the 250-wide border, and whether the
    "SHIP SUNK!" line is added.  The width is as computed, before
    [pygame.Rect] rounds it. *)
Record HealthBar := mkHealthBar {
  fill_width : Q;
  color : Z * Z * Z;
  ship_sunk_line : bool
}.

Definition MAX_WIDTH : Q := 250.

Definition draw_health_bar (f : Fortress) : HealthBar :=
  let current_health := health f in
  let max_health := fortress_max_health f in
  let fill_ratio := Py.max 0 (current_health / max_health) in
  let fill_width := (MAX_WIDTH * fill_ratio)%Q in
  let color := GREEN in
  let color := if Py.gt (1 # 2) fill_ratio then ORANGE else color in
  let color := if Py.gt (2 # 10) fill_ratio then RED else color in
  {| fill_width := fill_width; color := color;
     ship_sunk_line := Py.le current_health 0 |}.

(** With the fortress health within its bounds and a positive maximum,
    the fill never leaves the border, and the colour goes by the share of
    health left: red under a fifth, orange from a fifth to under a half,
    green from a half on; the extra line shows exactly at health 0. *)
Theorem health_bar_stays_in_its_border (f : Fortress) :
  fortress_in_bounds f -> (0 < fortress_max_health f)%Q ->
  let bar := draw_health_bar f in
  let share := (health f / fortress_max_health f)%Q in
  (0 <= fill_width bar)%Q /\ (fill_width bar <= MAX_WIDTH)%Q /\
  (fill_width bar == MAX_WIDTH * share)%Q /\
  (color bar = RED <-> (share < 2 # 10)%Q) /\
  (color bar = ORANGE <-> (2 # 10 <= share)%Q /\ (share < 1 # 2)%Q) /\
  (color bar = GREEN <-> (1 # 2 <= share)%Q) /\
  (ship_sunk_line bar = true <-> (health f == 0)%Q).
Proof.
  intros [Hlo Hhi] Hmax bar share.
  assert (0 <= share)%Q as Hs0.
  { subst share. apply Qle_shift_div_l; [done|]. lra. }
  assert (share <= 1)%Q as Hs1.
  { subst share. apply Qle_shift_div_r; [done|]. lra. }
  subst bar. unfold draw_health_bar. cbn [fill_width color ship_sunk_line].
  fold share. set (r := Py.max 0 share).
  assert (r == share)%Q as Hr.
  { subst r. destruct (Py.max_cases 0 share) as [[_ ->]|[H' ->]]; [reflexivity|lra]. }
  unfold MAX_WIDTH.
  split; [rewrite Hr; lra|]. split; [rewrite Hr; lra|]. split; [by rewrite Hr|].
  assert (ship : Py.le (health f) 0 = true <-> (health f == 0)%Q).
  { rewrite Py.le_true. split; intros; lra. }
  destruct (Py.gt (2 # 10) r) eqn:G2; destruct (Py.gt (1 # 2) r) eqn:G1;
    try apply Py.gt_true in G2; try apply Py.gt_false in G2;
    try apply Py.gt_true in G1; try apply Py.gt_false in G1;
    rewrite Hr in G1, G2;
    (repeat split; try exact (proj1 ship); try exact (proj2 ship);
     try discriminate; try done; try lra; intros; try lra;
     match goal with
     | H : _ /\ _ |- _ => destruct H; lra
     | _ => idtac
     end).
Qed.

(** [draw_ship_health]: the width of the green fill over the red
    background of width [BAR_WIDTH], the width of the ship's image. *)
Definition draw_ship_health (BAR_WIDTH : Z) (ship : EnemyShip) : Q :=
  (inject_Z (current_health ship) / inject_Z (max_health ship)
   * inject_Z BAR_WIDTH)%Q.

Lemma ship_fill_bounds (w : Z) (ship : EnemyShip) :
  0 < w -> ship_ok ship -> is_destroyed ship = false ->
  (0 < draw_ship_health w ship)%Q /\
  (draw_ship_health w ship <= inject_Z w)%Q /\
  ((draw_ship_health w ship == inject_Z w)%Q <->
   current_health ship = max_health ship).
Proof.
  intros Hw (Hm & [Hlo Hhi] & Hpos) Hd. specialize (Hpos Hd).
  unfold draw_ship_health.
  destruct (max_health ship) as [|p|p] eqn:E; try lia.
  destruct (current_health ship) as [|c|c] eqn:C; try lia.
  destruct w as [|v|v]; try lia.
  unfold Qlt, Qle, Qeq, Qdiv, Qmult, Qinv, inject_Z. simpl.
  split; [lia|]. split; [nia|]. split; intros H; [|injection H as ->; lia].
  f_equal. nia.
Qed.

(** The bar is drawn over the current target only.  In every state
    reached from start-up, for an image of positive width, its green fill
    is wider than 0 and no wider than the red background, and covers it
    exactly when the ship has all its health. *)
Theorem ship_bar_stays_on_its_background
        (ecodes : Ecodes) (world : World) (s0 : System) (actions : list Action)
        (BAR_WIDTH : Z) (i : nat) (ship : EnemyShip) :
  battle (main s0) = initialize_fleet_structure Battle_globals ->
  0 < BAR_WIDTH ->
  let fleet := ENEMY_FLEET (battle (main (fst (sys_run ecodes world s0 actions)))) in
  get_current_target_ship fleet = Some i -> fleet !! i = Some ship ->
  (0 < draw_ship_health BAR_WIDTH ship)%Q /\
  (draw_ship_health BAR_WIDTH ship <= inject_Z BAR_WIDTH)%Q /\
  ((draw_ship_health BAR_WIDTH ship == inject_Z BAR_WIDTH)%Q <->
   current_health ship = max_health ship).
Proof.
  intros H0 Hw fleet Ht Hl.
  assert (battle_ok (battle (main (fst (sys_run ecodes world s0 actions)))))
    as [Hf _].
  { apply sys_run_ok. rewrite H0. apply initial_battle_ok. }
  apply ship_fill_bounds; [done| |].
  - exact (proj1 (Forall_lookup _ _) Hf i ship Hl).
  - destruct (proj1 (get_current_target_ship_Some fleet i) Ht) as [[s' [Hs' D]] _].
    congruence.
Qed.

(** ** The player's ship *)

(** [PlayerShip], without its surfaces and rectangle. *)
Record PlayerShip := mkPlayerShip {
  player_max_health : Q;
  player_current_health : Q;
  player_is_destroyed : bool;
  player_image : Sprite
}.

(** [PlayerShip.__init__]: the maximum is read off [PLAYER_FORTRESS] once. *)
Definition PlayerShip_init (f : Fortress) : PlayerShip :=
  {| player_max_health := fortress_max_health f;
     player_current_health := fortress_max_health f;
     player_is_destroyed := false;
     player_image := full |}.

(** [PlayerShip.get_current_sprite]. *)
Definition player_get_current_sprite (p : PlayerShip) : Sprite :=
  if player_is_destroyed p then destroyed
  else
    let health_ratio := (player_current_health p / player_max_health p)%Q in
    if Py.le health_ratio (1 # 2) then half else full.

(** [PlayerShip.update]: the health is copied from [PLAYER_FORTRESS]. *)
Definition PlayerShip_update (p : PlayerShip) (f : Fortress) : PlayerShip :=
  let p1 := {| player_max_health := player_max_health p;
               player_current_health := health f;
               player_is_destroyed := Py.le (health f) 0;
               player_image := player_image p |} in
  {| player_max_health := player_max_health p1;
     player_current_health := player_current_health p1;
     player_is_destroyed := player_is_destroyed p1;
     player_image := player_get_current_sprite p1 |}.

(** After [update] the player's ship shows the fortress health, whatever
    it showed before: destroyed at 0 or less, half from above 0 to half
    the maximum, full above; a destroyed ship is shown whole again as soon
    as the health is back above 0. *)
Theorem player_ship_shows_the_fortress_health (p : PlayerShip) (f : Fortress) :
  (0 < player_max_health p)%Q ->
  let p' := PlayerShip_update p f in
  (player_image p' = destroyed <-> (health f <= 0)%Q) /\
  (player_image p' = half <->
     (0 < health f)%Q /\ (health f <= player_max_health p * (1 # 2))%Q) /\
  (player_image p' = full <-> (player_max_health p * (1 # 2) < health f)%Q) /\
  (player_is_destroyed p' = true <-> (health f <= 0)%Q) /\
  player_max_health p' = player_max_health p.
Proof.
  intros Hm p'. subst p'. unfold PlayerShip_update, player_get_current_sprite.
  cbn [player_image player_is_destroyed player_current_health player_max_health].
  assert (Py.le (health f / player_max_health p) (1 # 2) = true <->
          (health f <= player_max_health p * (1 # 2))%Q) as Hhalf.
  { rewrite Py.le_true.
    rewrite <- (Qmult_le_l _ _ (player_max_health p) Hm).
    rewrite Qmult_div_r by lra. reflexivity. }
  destruct (Py.le (health f) 0) eqn:L.
  - apply Py.le_true in L. repeat split; try done; intros; lra.
  - apply Py.le_false in L.
    destruct (Py.le (health f / player_max_health p) (1 # 2)) eqn:E.
    + assert (health f <= player_max_health p * (1 # 2))%Q by (by apply Hhalf).
      repeat split; try done; intros; lra.
    + assert (~ (health f <= player_max_health p * (1 # 2))%Q)
        by (intros H'; apply Hhalf in H'; congruence).
      repeat split; try done; intros; lra.
Qed.

(* ------------------------------------------------------------------ *)
(** * More of the controller *)

(** ** Keys, lights and pixels *)

Definition key_codes (ecodes : Ecodes) : list Z :=
  [KEY_1 ecodes; KEY_2 ecodes; KEY_3 ecodes; KEY_4 ecodes; KEY_5 ecodes;
   KEY_6 ecodes; KEY_7 ecodes; KEY_8 ecodes; KEY_9 ecodes].

Lemma KEY_TO_LIGHT_INDEX_chain (ecodes : Ecodes) (c : Z) :
  KEY_TO_LIGHT_INDEX ecodes !! c =
    if decide (KEY_9 ecodes = c) then Some 8
    else if decide (KEY_8 ecodes = c) then Some 7
    else if decide (KEY_7 ecodes = c) then Some 6
    else if decide (KEY_6 ecodes = c) then Some 5
    else if decide (KEY_5 ecodes = c) then Some 4
    else if decide (KEY_4 ecodes = c) then Some 3
    else if decide (KEY_3 ecodes = c) then Some 2
    else if decide (KEY_2 ecodes = c) then Some 1
    else if decide (KEY_1 ecodes = c) then Some 0
    else None.
Proof.
  unfold KEY_TO_LIGHT_INDEX. rewrite !lookup_insert, lookup_empty. reflexivity.
Qed.

(** When the nine key codes differ from one another, as they do in
    [evdev] and in the placeholder class, [KEY_TO_LIGHT_INDEX] sends the
    [k]-th key to light [k - 1], has no entry for any other code, and
    every light it names is one of the [NUM_LIGHTS] lights. *)
Theorem key_to_light_index_lookup (ecodes : Ecodes) :
  NoDup (key_codes ecodes) ->
  (forall k : nat, (k < 9)%nat ->
     exists c, key_codes ecodes !! k = Some c /\
               KEY_TO_LIGHT_INDEX ecodes !! c = Some (Z.of_nat k)) /\
  (forall c, c ∉ key_codes ecodes -> KEY_TO_LIGHT_INDEX ecodes !! c = None) /\
  (forall c i, KEY_TO_LIGHT_INDEX ecodes !! c = Some i ->
     c ∈ key_codes ecodes /\ 0 <= i < NUM_LIGHTS).
Proof.
  intros Hnd. unfold key_codes in *.
  repeat (apply NoDup_cons in Hnd as [? Hnd]).
  repeat match goal with H : _ ∉ _ :: _ |- _ =>
    apply not_elem_of_cons in H as [? H] end.
  split; [|split].
  - intros k Hk.
    do 9 (destruct k as [|k]; [eexists; split; [reflexivity|];
          rewrite KEY_TO_LIGHT_INDEX_chain;
          repeat case_decide; first [reflexivity | congruence]|]).
    clear -Hk. lia.
  - intros c Hc.
    repeat match goal with H : _ ∉ _ :: _ |- _ =>
      apply not_elem_of_cons in H as [? H] end.
    rewrite KEY_TO_LIGHT_INDEX_chain.
    repeat case_decide; first [reflexivity | congruence].
  - intros c i Hl. unfold NUM_LIGHTS. rewrite !elem_of_cons.
    rewrite KEY_TO_LIGHT_INDEX_chain in Hl.
    repeat case_decide; try discriminate Hl;
      injection Hl as <-;
      (split; [subst c; repeat (first [left; reflexivity | right]) | clear; lia]).
Qed.

(** The pixels of the nine lights cut the strip into nine blocks of four:
    a pixel belongs to light [i] exactly when it lies in
    [4 i, 4 i + 4); the block of a light lies inside the strip; and every
    pixel of the strip belongs to one light and to no other. *)
Theorem light_blocks_partition_the_strip (light_index p : Z) :
  (p ∈ get_pixel_indices_for_light light_index <->
     light_index * PIXELS_PER_BUTTON <= p < light_index * PIXELS_PER_BUTTON + 4) /\
  (0 <= light_index < NUM_LIGHTS ->
     p ∈ get_pixel_indices_for_light light_index -> 0 <= p < NUM_PIXELS) /\
  (0 <= p < NUM_PIXELS ->
     0 <= p / PIXELS_PER_BUTTON < NUM_LIGHTS /\
     p ∈ get_pixel_indices_for_light (p / PIXELS_PER_BUTTON) /\
     forall j, p ∈ get_pixel_indices_for_light j -> j = p / PIXELS_PER_BUTTON).
Proof.
  unfold get_pixel_indices_for_light, NUM_PIXELS, NUM_LIGHTS, PIXELS_PER_BUTTON.
  rewrite elem_of_seqZ. split; [lia|]. split; [lia|].
  intros Hp. split; [|split].
  - split; [apply Z.div_pos; lia | apply Z.div_lt_upper_bound; lia].
  - rewrite elem_of_seqZ.
    pose proof (Z.div_mod p 4). pose proof (Z.mod_pos_bound p 4). lia.
  - intros j. rewrite elem_of_seqZ. intros Hj.
    apply (Z.div_unique p 4 j (p - j * 4)); lia.
Qed.

(** ** Stopping the controller *)

Section Stopping.

Variable ecodes : Ecodes.
Variable world : World.

Lemma step_exited (b : Battle) (t : HardwareThread) :
  pc t = Exited -> step ecodes world (b, t) = (b, t).
Proof. intros H. unfold step. by rewrite H. Qed.

Lemma steps_exited (n : nat) (b : Battle) (t : HardwareThread) :
  pc t = Exited -> Nat.iter n (step ecodes world) (b, t) = (b, t).
Proof.
  intros H. induction n as [|n IH]; [done|].
  rewrite Nat.iter_succ, IH. by apply step_exited.
Qed.

Lemma stop_fields (t : HardwareThread) :
  running (stop t) = false /\ pc (stop t) = pc t /\
  event_queue (stop t) = event_queue t /\ score (stop t) = score t /\
  active_mole_light_index (stop t) = active_mole_light_index t /\
  is_available (stop t) = is_available t /\
  hw_log (stop t) =
    hw_log t ++ (if is_available t then [set_all 0 0 0 None; show] else []).
Proof.
  unfold stop, stop_clear_strip, stop_set_running, set_running. cbn.
  destruct (is_available t) eqn:A; cbn; rewrite ?A, ?app_nil_r; done.
Qed.

(** After [stop] the controller is out of [run] within two loop
    iterations, from wherever it stood, and stays out; it does not reset
    the battle on the way; and it puts one last event, [GAME_OVER] with
    the score, exactly when it was stopped inside the inner loop. *)
Theorem stopped_controller_exits (b : Battle) (t : HardwareThread) :
  let s2 := step ecodes world (step ecodes world (b, stop t)) in
  pc (snd s2) = Exited /\
  fst s2 = b /\
  event_queue (snd s2) =
    event_queue t ++ (if bool_decide (pc t = Active)
                      then [GAME_OVER (score t)] else []) /\
  (forall n, Nat.iter n (step ecodes world) s2 = s2).
Proof.
  destruct (stop_fields t) as (Hr & Hpc & Hq & Hs & _).
  set (t1 := stop t) in *.
  assert (forall x : Battle * HardwareThread,
            pc (snd x) = Exited -> fst x = b ->
            event_queue (snd x) =
              event_queue t ++ (if bool_decide (pc t = Active)
                                then [GAME_OVER (score t)] else []) ->
            pc (snd x) = Exited /\ fst x = b /\
            event_queue (snd x) =
              event_queue t ++ (if bool_decide (pc t = Active)
                                then [GAME_OVER (score t)] else []) /\
            (forall n, Nat.iter n (step ecodes world) x = x)) as Hx.
  { intros [b' t'] H1 H2 H3. repeat split; try done.
    intros n. by apply steps_exited. }
  cbv zeta.
  destruct (pc t) as [| | |k|] eqn:E.
  - assert (step ecodes world (b, t1) = (b, set_pc t1 Exited)) as ->
      by (unfold step; by rewrite Hpc, Hr).
    rewrite step_exited by done.
    apply Hx; cbn; rewrite ?Hq, ?app_nil_r; done.
  - assert (step ecodes world (b, t1) = (b, set_pc t1 Exited)) as ->
      by (unfold step, await_start; by rewrite Hpc, Hr).
    rewrite step_exited by done.
    apply Hx; cbn; rewrite ?Hq, ?app_nil_r; done.
  - assert (step ecodes world (b, t1) = (b, game_over_cleanup t1)) as ->
      by (unfold step, active_iteration; by rewrite Hpc, Hr).
    destruct (game_over_cleanup_spec t1) as (G1 & G2 & _ & _ & G5 & _).
    assert (step ecodes world (b, game_over_cleanup t1)
            = (b, set_pc (game_over_cleanup t1) Exited)) as ->.
    { unfold step. rewrite G1. unfold await_ack. rewrite G5, Hr.
      by rewrite andb_false_r. }
    apply Hx; cbn [fst snd]; [done|done|].
    cbn [set_pc event_queue]. rewrite G2, Hq, Hs.
    by rewrite bool_decide_eq_true_2.
  - assert (step ecodes world (b, t1) = (b, set_pc t1 Exited)) as ->.
    { unfold step, await_ack. rewrite Hpc, Hr. by rewrite andb_false_r. }
    rewrite step_exited by done.
    apply Hx; cbn; rewrite ?Hq, ?app_nil_r; done.
  - rewrite (step_exited b t1) by done. rewrite step_exited by done.
    apply Hx; cbn; rewrite ?Hq, ?app_nil_r; done.
Qed.

End Stopping.

(** ** How long the controller pauses *)

(** The seconds slept among a run of hardware calls. *)
Definition slept (calls : list HwCall) : Q :=
  fold_right (fun c acc => match c with sleep d => (d + acc)%Q | _ => acc end)
             0%Q calls.

(** The lights a run of hardware calls turns to the mole colour, by the
    first pixel of each, in order. *)
Definition lights_lit (calls : list HwCall) : list Z :=
  omap (fun c => match c with
                 | set_pixel p 0 255 0 _ =>
                     if p mod PIXELS_PER_BUTTON =? 0
                     then Some (p / PIXELS_PER_BUTTON) else None
                 | _ => None
                 end) calls.

(** The countdown puts [COUNTDOWN_FINISHED] once, whatever the mode.  With
    the hardware available it lights the lights 2, 1 and 0 in that order
    and sleeps 4.5 seconds in all; with the hardware unavailable it makes
    no call and does not pause at all. *)
Theorem countdown_pauses_only_with_hardware (t : HardwareThread) :
  exists calls,
    hw_log (countdown_sequence t) = hw_log t ++ calls /\
    event_queue (countdown_sequence t) = event_queue t ++ [COUNTDOWN_FINISHED] /\
    (is_available t = true ->
       (slept calls == 9 # 2)%Q /\ lights_lit calls = [2; 1; 0]) /\
    (is_available t = false -> calls = []).
Proof.
  destruct t as [q r a sc act lm gs p ti d po l]. destruct a.
  - eexists. split; [|split; [reflexivity|split; [|discriminate]]].
    + unfold countdown_sequence, countdown_flash, light_up_mole, turn_off_mole, hw.
      cbn [is_available hw_log fold_left put event_queue running score
           active_mole_light_index last_mole_time game_start_time pc ticks
           draws polls].
      rewrite <- !app_assoc. reflexivity.
    + intros _. vm_compute. split; reflexivity.
  - exists []. cbn. rewrite app_nil_r. repeat split; try done.
Qed.

(** ** The shape of a round on the queue *)

(** Where a reader of the queue stands in a round. *)
Inductive Stage := BetweenRounds | WaitingForStart | Playing.

(** The events of play: spawns and what becomes of a mole. *)
Definition is_play (e : GameEvent) : bool :=
  match e with
  | MOLE_SPAWN _ | MOLE_ESCAPED | PLAYER_HIT _ | PLAYER_MISS _ => true
  | _ => false
  end.

(** The event a stage accepts and the stage it leads to: a round opens
    with [START_SCREEN], goes on with [COUNTDOWN_FINISHED], then events of
    play, and closes with [GAME_OVER]. *)
Definition protocol_step (st : Stage) (e : GameEvent) : option Stage :=
  match st, e with
  | BetweenRounds, START_SCREEN => Some WaitingForStart
  | WaitingForStart, COUNTDOWN_FINISHED => Some Playing
  | Playing, GAME_OVER _ => Some BetweenRounds
  | Playing, e => if is_play e then Some Playing else None
  | _, _ => None
  end.

Fixpoint protocol_run (st : Stage) (events : list GameEvent) : option Stage :=
  match events with
  | [] => Some st
  | e :: rest =>
      match protocol_step st e with
      | Some st' => protocol_run st' rest
      | None => None
      end
  end.

(** The stage the position of [run] stands for; once [run] has returned
    any stage may have been the last. *)
Definition stage_matches (ph : Phase) (st : Stage) : Prop :=
  match ph with
  | RoundSetup | AwaitAck _ => st = BetweenRounds
  | AwaitStart => st = WaitingForStart
  | Active => st = Playing
  | Exited => True
  end.

Definition protocol_ok (h : list GameEvent) (t : HardwareThread) : Prop :=
  exists st, protocol_run BetweenRounds h = Some st /\ stage_matches (pc t) st.

Lemma protocol_run_app (h1 h2 : list GameEvent) (st : Stage) :
  protocol_run st (h1 ++ h2) =
  match protocol_run st h1 with
  | Some st' => protocol_run st' h2
  | None => None
  end.
Proof.
  revert st. induction h1 as [|e h1 IH]; intros st; [done|].
  cbn [app protocol_run]. destruct (protocol_step st e); [apply IH|done].
Qed.

Lemma protocol_run_play (new : list GameEvent) :
  Forall (fun e => is_play e = true) new ->
  protocol_run Playing new = Some Playing.
Proof.
  induction 1 as [|e new He _ IH]; [done|].
  cbn [protocol_run]. by destruct e.
Qed.

Section Protocol.

Variable ecodes : Ecodes.
Variable world : World.

Lemma handle_keys_play (events : list InputEvent) (t : HardwareThread) :
  exists new, event_queue (handle_keys ecodes world t events) = event_queue t ++ new /\
              Forall (fun e => is_play e = true) new.
Proof.
  revert t. induction events as [|e es IH]; intros t.
  - exists []. by rewrite app_nil_r.
  - cbn [handle_keys fold_left].
    destruct (IH (handle_key ecodes world t e)) as (new & Hq & Hp).
    unfold handle_keys in Hq. rewrite Hq.
    pose proof (handle_key_spec ecodes world t e) as S.
    destruct (verdict ecodes t e).
    + destruct S as (_ & -> & _). eexists. rewrite <- app_assoc.
      split; [reflexivity|]. by repeat constructor.
    + destruct S as (_ & -> & _). eexists. rewrite <- app_assoc.
      split; [reflexivity|]. by repeat constructor.
    + rewrite S. by exists new.
Qed.

(** What one loop iteration of the controller puts on the queue, by the
    position of [run] before and after it. *)
Definition step_events (ph ph' : Phase) (new : list GameEvent) : Prop :=
  match ph with
  | RoundSetup =>
      (ph' = AwaitStart /\ new = [START_SCREEN]) \/ (ph' = Exited /\ new = [])
  | AwaitStart =>
      (ph' = Active /\ new = [COUNTDOWN_FINISHED]) \/
      ((ph' = AwaitStart \/ ph' = Exited) /\ new = [])
  | Active =>
      (ph' = AwaitAck 0 /\ exists score, new = [GAME_OVER score]) \/
      (ph' = Active /\ Forall (fun e => is_play e = true) new)
  | AwaitAck _ =>
      ((exists k, ph' = AwaitAck k) \/ ph' = RoundSetup \/ ph' = Exited) /\ new = []
  | Exited => ph' = Exited /\ new = []
  end.

Lemma step_step_events (b : Battle) (t : HardwareThread) :
  let t' := snd (step ecodes world (b, t)) in
  exists new, event_queue t' = event_queue t ++ new /\
              step_events (pc t) (pc t') new.
Proof.
  intros t'. subst t'. unfold step. destruct (pc t) as [| | |k|] eqn:Hpc.
  - destruct (running t) eqn:Hrun.
    + destruct (round_setup_spec ecodes b t) as (Hq & Hpc' & _).
      exists [START_SCREEN]. split; [done|]. by left.
    + exists []. cbn. rewrite app_nil_r. split; [done|]. by right.
  - cbn [snd]. destruct (running t) eqn:Hrun.
    + destruct (await_start_spec ecodes world t Hrun) as (Hc & _).
      destruct (match dev_read_result world (polls t) with
                | Events events => existsb (is_start_press ecodes) events
                | ReadError => false end).
      * destruct Hc as (Hq & Hpc' & _). exists [COUNTDOWN_FINISHED].
        split; [done|]. by left.
      * destruct Hc as (Hq & Hpc' & _). exists [].
        rewrite app_nil_r. split; [done|]. right. split; [left; congruence|done].
    + unfold await_start. rewrite Hrun. exists []. cbn. rewrite app_nil_r.
      split; [done|]. right. split; [by right|done].
  - cbn [snd]. unfold active_iteration.
    assert (forall x, event_queue x = event_queue t ->
              exists new, event_queue (game_over_cleanup x) = event_queue t ++ new /\
                          step_events Active (pc (game_over_cleanup x)) new) as Hg.
    { intros x Hx. destruct (game_over_cleanup_spec x) as (Hpc' & Hq & _).
      exists [GAME_OVER (score x)]. rewrite Hq, Hx. split; [done|].
      left. split; [done|by eexists]. }
    destruct (running t); [|by apply Hg]. cbn [now].
    match goal with |- context [round_end_check b ?x ?c] =>
      destruct (round_end_check b x c); [by apply Hg|];
      set (t0 := x); set (c0 := c) end.
    pose proof (mole_timer_spec world t0 c0) as S1. cbv zeta in S1.
    destruct S1 as (S0 & S1 & _ & (Fpc & _) & _).
    assert (exists new, event_queue (mole_timer world t0 c0) = event_queue t ++ new /\
                        Forall (fun e => is_play e = true) new) as (n1 & Hq1 & Hp1).
    { destruct (bool_decide (active_mole_light_index t0 = None)
                || Py.gt (c0 - last_mole_time t0) MOLE_DURATION).
      - destruct (S1 eq_refl) as (Hq & _). eexists. split; [exact Hq|].
        apply Forall_app. split; [|by repeat constructor].
        destruct (bool_decide (active_mole_light_index t0 <> None));
          by repeat constructor.
      - rewrite (S0 eq_refl). exists []. cbn. by rewrite app_nil_r. }
    set (t1 := mole_timer world t0 c0) in *.
    assert (pc t1 = Active) as Hpc1 by (rewrite Fpc; exact Hpc).
    pose proof (read_input_spec ecodes world t1) as (G & _).
    cbv zeta in G. destruct G as (G1 & _).
    assert (pc (read_input ecodes world t1) = Active) as Hpc2.
    { rewrite G1. destruct (is_available t1); cbn; exact Hpc1. }
    assert (exists new, event_queue (read_input ecodes world t1)
                        = event_queue t1 ++ new /\
                        Forall (fun e => is_play e = true) new) as (n2 & Hq2 & Hp2).
    { unfold read_input. destruct (is_available t1);
        [|exists []; by rewrite app_nil_r].
      cbn [read]. destruct (dev_read_result world (polls t1)) as [events|];
        [|exists []; cbn; by rewrite app_nil_r].
      match goal with |- context [handle_keys ecodes world ?x events] =>
        destruct (handle_keys_play events x) as (new & Hq & Hp) end.
      by exists new. }
    exists (n1 ++ n2). rewrite Hq2, Hq1, app_assoc. split; [done|].
    right. split; [done|by apply Forall_app].
  - cbn [snd]. destruct (await_ack_spec ecodes world t k) as (Hq & _ & _ & _ & _ & _ & _ & Hp).
    exists []. rewrite app_nil_r. split; [done|]. split; [|done].
    rewrite Hpc in Hp. destruct Hp as [Hp|[Hp|[Hp|Hp]]]; eauto.
  - cbn [snd]. exists []. rewrite app_nil_r, Hpc. done.
Qed.

Lemma step_events_protocol (h new : list GameEvent) (t t' : HardwareThread) :
  step_events (pc t) (pc t') new ->
  protocol_ok h t -> protocol_ok (h ++ new) t'.
Proof.
  intros Hs (st & Hr & Hm). unfold protocol_ok. rewrite protocol_run_app, Hr.
  destruct (pc t) as [| | |k|]; cbn in Hs, Hm.
  - subst st. destruct Hs as [[-> ->]|[-> ->]]; by eexists.
  - subst st. destruct Hs as [[-> ->]|[[->| ->] ->]]; by eexists.
  - subst st. destruct Hs as [[-> [sc ->]]|[-> Hp]].
    + by eexists.
    + rewrite protocol_run_play by done. by eexists.
  - subst st. destruct Hs as [[[k' ->]|[->| ->]] ->]; by eexists.
  - destruct Hs as [-> ->]. by eexists.
Qed.

Lemma sys_step_protocol (p : list GameEvent) (s : System) (a : Action) :
  protocol_ok (p ++ event_queue (thread s)) (thread s) ->
  let s1 := fst (sys_step ecodes world s a) in
  let got := match snd (sys_step ecodes world s a) with
             | Some e => [e] | None => [] end in
  protocol_ok ((p ++ got) ++ event_queue (thread s1)) (thread s1).
Proof.
  intros H. destruct a; unfold sys_step.
  - pose proof (step_step_events (battle (main s)) (thread s)) as S.
    cbv zeta in S.
    destruct (step ecodes world (battle (main s), thread s)) as [b t].
    cbn [fst snd thread] in *. destruct S as (new & -> & Hs).
    rewrite app_nil_r, app_assoc. by eapply step_events_protocol.
  - destruct (event_queue (thread s)) as [|e q] eqn:E; cbn [Queue.get_nowait];
      cbn [fst snd thread]; rewrite ?app_nil_r.
    + by rewrite E.
    + cbn. rewrite <- app_assoc. cbn. exact H.
  - cbn [fst snd thread]. by rewrite !app_nil_r.
  - cbn [fst snd thread]. rewrite !app_nil_r.
    destruct (stop_set_running_spec (thread s)) as (-> & Hpc & _).
    destruct H as (st & H1 & H2). exists st. by rewrite Hpc.
  - cbn [fst snd thread]. rewrite !app_nil_r.
    destruct (stop_clear_strip_spec (thread s)) as (-> & Hpc & _).
    destruct H as (st & H1 & H2). exists st. by rewrite Hpc.
Qed.

Lemma sys_run_protocol (actions : list Action) (p : list GameEvent) (s : System) :
  protocol_ok (p ++ event_queue (thread s)) (thread s) ->
  let s' := fst (sys_run ecodes world s actions) in
  let consumed := snd (sys_run ecodes world s actions) in
  protocol_ok ((p ++ consumed) ++ event_queue (thread s')) (thread s').
Proof.
  revert p s. induction actions as [|a rest IH]; intros p s H.
  - cbn. by rewrite !app_nil_r.
  - pose proof (sys_step_protocol p s a H) as S. cbv zeta in S.
    cbn [sys_run].
    destruct (sys_step ecodes world s a) as [s1 e] eqn:E1.
    cbn [fst snd] in S.
    specialize (IH _ s1 S). cbv zeta in IH.
    destruct (sys_run ecodes world s1 rest) as [s2 es] eqn:E2.
    cbn [fst snd] in *.
    destruct e as [e|]; cbn [app] in *.
    + rewrite <- !app_assoc in IH. cbn [app] in IH.
      by rewrite <- !app_assoc.
    + by rewrite app_nil_r in IH.
Qed.

(** From the top of a round with the queue empty, under any schedule of
    the two threads, the events the pygame loop has taken off the queue
    follow the round protocol, and so do these events followed by the
    ones still queued: each round is one [START_SCREEN], then one
    [COUNTDOWN_FINISHED], then spawns and outcomes, then one [GAME_OVER].
    The stage the queued events lead to is the one the controller is in,
    as long as [run] has not returned. *)
Theorem rounds_follow_the_protocol (s : System) (actions : list Action) :
  pc (thread s) = RoundSetup ->
  event_queue (thread s) = [] ->
  let s' := fst (sys_run ecodes world s actions) in
  let consumed := snd (sys_run ecodes world s actions) in
  (exists st, protocol_run BetweenRounds consumed = Some st) /\
  (exists st, protocol_run BetweenRounds (consumed ++ event_queue (thread s'))
              = Some st /\ stage_matches (pc (thread s')) st).
Proof.
  intros Hpc Hq s' consumed.
  assert (protocol_ok ([] ++ event_queue (thread s)) (thread s)) as H.
  { rewrite Hq. exists BetweenRounds. by rewrite Hpc. }
  pose proof (sys_run_protocol actions [] s H) as H1. cbv zeta in H1.
  fold s' consumed in H1. cbn [app] in H1.
  split; [|exact H1]. destruct H1 as (st & Hr & _).
  rewrite protocol_run_app in Hr.
  destruct (protocol_run BetweenRounds consumed) as [st'|]; [by eexists|done].
Qed.

End Protocol.

(** ** A controller without hardware *)

(** An event that reports no hit and no miss, and no score but 0. *)
Definition scoreless (e : GameEvent) : Prop :=
  match e with
  | PLAYER_HIT _ | PLAYER_MISS _ => False
  | GAME_OVER score => score = 0%Q
  | _ => True
  end.

Section Unavailable.

Variable ecodes : Ecodes.
Variable world : World.

(** With the hardware unavailable, a loop iteration entered with score 0
    leaves the score at 0 and puts only scoreless events. *)
Lemma step_unavailable_scoreless (b : Battle) (t : HardwareThread) :
  is_available t = false -> score t = 0%Q ->
  let t' := snd (step ecodes world (b, t)) in
  score t' = 0%Q /\
  exists new, event_queue t' = event_queue t ++ new /\ Forall scoreless new.
Proof.
  intros A S t'. subst t'. unfold step.
  destruct (pc t) as [| | |k|] eqn:Hpc; cbn [snd].
  - destruct (running t) eqn:Hrun.
    + destruct (round_setup_spec ecodes b t) as (Hq & _ & _ & Hs & _).
      split; [done|]. exists [START_SCREEN]. split; [done|]. by repeat constructor.
    + split; [done|]. exists []. cbn. by rewrite app_nil_r.
  - destruct (running t) eqn:Hrun.
    + destruct (await_start_spec ecodes world t Hrun) as (Hc & _ & Hs & _).
      split; [congruence|].
      destruct (match dev_read_result world (polls t) with
                | Events events => existsb (is_start_press ecodes) events
                | ReadError => false end).
      * destruct Hc as (Hq & _). exists [COUNTDOWN_FINISHED].
        split; [done|]. by repeat constructor.
      * destruct Hc as (Hq & _). exists []. by rewrite app_nil_r.
    + unfold await_start. rewrite Hrun. split; [done|].
      exists []. cbn. by rewrite app_nil_r.
  - unfold active_iteration.
    assert (forall x, event_queue x = event_queue t -> score x = 0%Q ->
              score (game_over_cleanup x) = 0%Q /\
              exists new, event_queue (game_over_cleanup x) = event_queue t ++ new /\
                          Forall scoreless new) as Hg.
    { intros x Hx Sx. destruct (game_over_cleanup_spec x) as (_ & Hq & Hs & _).
      split; [congruence|]. exists [GAME_OVER (score x)]. rewrite Hq, Hx.
      split; [done|]. by repeat constructor. }
    destruct (running t); [|by apply Hg]. cbn [now].
    match goal with |- context [round_end_check b ?x ?c] =>
      destruct (round_end_check b x c); [by apply Hg|];
      set (t0 := x); set (c0 := c) end.
    pose proof (mole_timer_spec world t0 c0) as S1. cbv zeta in S1.
    destruct S1 as (S0 & S1 & Hs & (_ & _ & Fa & _) & _).
    set (t1 := mole_timer world t0 c0) in *.
    destruct (read_input_spec ecodes world t1) as (_ & -> & _);
      [|rewrite Fa; exact A].
    split; [rewrite Hs; exact S|].
    destruct (bool_decide (active_mole_light_index t0 = None)
              || Py.gt (c0 - last_mole_time t0) MOLE_DURATION).
    + destruct (S1 eq_refl) as (Hq & _). eexists. split; [exact Hq|].
      apply Forall_app. split; [|by repeat constructor].
      destruct (bool_decide (active_mole_light_index t0 <> None));
        by repeat constructor.
    + rewrite (S0 eq_refl). exists []. cbn. by rewrite app_nil_r.
  - destruct (await_ack_spec ecodes world t k) as (Hq & Hs & _).
    split; [congruence|]. exists []. by rewrite app_nil_r.
  - split; [done|]. exists []. by rewrite app_nil_r.
Qed.

(** With the hardware unavailable no loop iteration calls the light
    strip, whether or not [stop] was called. *)
Lemma step_unavailable_strip (b : Battle) (t : HardwareThread) :
  is_available t = false ->
  strip_calls (hw_log (snd (step ecodes world (b, t)))) = strip_calls (hw_log t).
Proof.
  intros A. destruct (running t) eqn:Hrun.
  - by destruct (step_unavailable ecodes world b t Hrun A) as (H & _).
  - unfold step. destruct (pc t) as [| | |k|]; cbn [snd].
    + by rewrite Hrun.
    + unfold await_start. by rewrite Hrun.
    + unfold active_iteration. rewrite Hrun.
      destruct (game_over_cleanup_spec t) as (_&_&_&_&_&_&_&_&_&L).
      by rewrite (L A).
    + unfold await_ack. rewrite Hrun, andb_false_r. done.
    + done.
Qed.

(** The fleet as [main] builds it, the fortress maximum, and a controller
    and a queue that have seen no hit. *)
Definition untouched (strip : list HwCall) (p : list GameEvent) (s : System) : Prop :=
  is_available (thread s) = false /\ score (thread s) = 0%Q /\
  Forall scoreless (p ++ event_queue (thread s)) /\
  strip_calls (hw_log (thread s)) = strip /\
  ENEMY_FLEET (battle (main s))
  = ENEMY_FLEET (initialize_fleet_structure Battle_globals) /\
  fortress_max_health (PLAYER_FORTRESS (battle (main s))) = 10%Q /\
  last_game_score (main s) = 0.

Lemma untouched_roster (b : Battle) :
  ENEMY_FLEET b = ENEMY_FLEET (initialize_fleet_structure Battle_globals) ->
  fortress_max_health (PLAYER_FORTRESS b) = 10%Q ->
  roster b.
Proof. intros Hf Hm. split; [by rewrite Hf|done]. Qed.

Lemma process_event_scoreless (m : Main) (e : GameEvent) :
  scoreless e ->
  ENEMY_FLEET (battle (process_event m e)) = ENEMY_FLEET (battle m) /\
  fortress_max_health (PLAYER_FORTRESS (battle (process_event m e)))
  = fortress_max_health (PLAYER_FORTRESS (battle m)) /\
  (last_game_score m = 0 -> last_game_score (process_event m e) = 0).
Proof.
  destruct e; cbn; try done.
  - intros _. destruct (get_current_target_ship _) as [i|]; [|done].
    by destruct (Py.gt _ 0).
  - intros ->. done.
Qed.

Lemma sys_step_untouched (strip : list HwCall) (p : list GameEvent)
      (s : System) (a : Action) :
  untouched strip p s ->
  let s1 := fst (sys_step ecodes world s a) in
  let got := match snd (sys_step ecodes world s a) with
             | Some e => [e] | None => [] end in
  untouched strip (p ++ got) s1.
Proof.
  intros (A & S & Q & L & F & M & G). destruct a; unfold sys_step.
  - pose proof (step_unavailable_scoreless (battle (main s)) (thread s) A S) as H.
    pose proof (step_is_available ecodes world (battle (main s)) (thread s)) as HA.
    pose proof (step_unavailable_strip (battle (main s)) (thread s) A) as HL.
    pose proof (step_battle ecodes world (battle (main s)) (thread s)) as HB.
    cbv zeta in H.
    destruct (step ecodes world (battle (main s), thread s)) as [b t].
    cbn [fst snd thread main battle set_battle] in *.
    destruct H as (S' & new & Hq & Hn).
    rewrite app_nil_r. unfold untouched. cbn [thread main battle set_battle].
    split; [congruence|]. split; [done|].
    split; [rewrite Hq, app_assoc; by apply Forall_app|].
    split; [congruence|]. subst b.
    destruct (_ && _); [|done].
    rewrite (roster_reset _ (untouched_roster _ F M)). done.
  - destruct (event_queue (thread s)) as [|e q] eqn:E; cbn [Queue.get_nowait];
      cbn [fst snd thread main]; rewrite ?app_nil_r.
    + unfold untouched. by rewrite E.
    + assert (scoreless e) as He.
      { apply Forall_app in Q as [_ Q]. by apply Forall_cons in Q as [Q _]. }
      destruct (process_event_scoreless (main s) e He) as (F' & M' & G').
      unfold untouched. cbn [thread main set_event_queue event_queue
        is_available score hw_log].
      rewrite <- app_assoc. cbn [app]. rewrite F', M'. by repeat split; auto.
  - cbn [fst snd thread main]. rewrite app_nil_r. unfold untouched.
    cbn [thread main]. rewrite check_win_loss_battle.
    repeat split; try done. unfold check_win_loss. by destruct (_ && _).
  - cbn [fst snd thread main]. rewrite app_nil_r. by repeat split.
  - cbn [fst snd thread main]. rewrite app_nil_r. unfold untouched.
    cbn [thread main].
    destruct (stop_clear_strip_spec (thread s)) as (_ & _ & _ & _ & _ & _ & ->);
      [done|]. by repeat split.
Qed.

Lemma sys_run_untouched (strip : list HwCall) (actions : list Action)
      (p : list GameEvent) (s : System) :
  untouched strip p s ->
  let s' := fst (sys_run ecodes world s actions) in
  let consumed := snd (sys_run ecodes world s actions) in
  untouched strip (p ++ consumed) s'.
Proof.
  revert p s. induction actions as [|a rest IH]; intros p s H.
  - cbn. by rewrite app_nil_r.
  - pose proof (sys_step_untouched strip p s a H) as S. cbv zeta in S.
    cbn [sys_run].
    destruct (sys_step ecodes world s a) as [s1 e] eqn:E1.
    cbn [fst snd] in S.
    specialize (IH _ s1 S). cbv zeta in IH.
    destruct (sys_run ecodes world s1 rest) as [s2 es] eqn:E2.
    cbn [fst snd] in *.
    destruct e as [e|]; cbn [app] in *.
    + rewrite <- !app_assoc in IH. exact IH.
    + by rewrite app_nil_r in IH.
Qed.

End Unavailable.

(** The program as started by [main], whatever the hardware setup met,
    under any schedule of the two threads and any input: the controller
    never becomes available, so no [PLAYER_HIT] and no [PLAYER_MISS] is
    ever put or consumed, the score stays 0 and so does the final score
    shown, no ship of the fleet is ever damaged, the victory banner is
    never drawn, and the light strip gets no call after the two of the
    setup. *)
Theorem started_controller_never_scores
        (ecodes : Ecodes) (world : World) (o : SetupOutcome) (actions : list Action) :
  let s' := fst (sys_run ecodes world (sys_init o) actions) in
  let consumed := snd (sys_run ecodes world (sys_init o) actions) in
  is_available (thread s') = false /\
  score (thread s') = 0%Q /\
  Forall scoreless (consumed ++ event_queue (thread s')) /\
  last_game_score (main s') = 0 /\
  ENEMY_FLEET (battle (main s'))
  = ENEMY_FLEET (initialize_fleet_structure Battle_globals) /\
  banner (main s') <> Some "VICTORY! ALL SHIPS SUNK!"%string /\
  strip_calls (hw_log (thread s')) = strip_calls (hw_log (thread (sys_init o))).
Proof.
  intros s' consumed.
  assert (untouched (strip_calls (hw_log (thread (sys_init o)))) [] (sys_init o)) as H.
  { by repeat split. }
  pose proof (sys_run_untouched ecodes world _ actions [] _ H) as H1.
  cbv zeta in H1. fold s' consumed in H1. cbn [app] in H1.
  destruct H1 as (A & S & Q & L & F & M & G).
  repeat split; try done.
  unfold banner. rewrite F.
  destruct (game_over (main s')); [|by destruct (negb _)].
  destruct (Py.le _ 0); [done|]. done.
Qed.

(** C9, where the code parts from it.  The program as started by
    [main], whatever the hardware setup met, whatever the device
    delivers (five presses of the lit mole's key among it) and however
    the two threads interleave: the inner loop never reads a press, so
    the controller score is 0, not 5, no [PLAYER_HIT] is put or
    consumed, and the first ship, the one of 5 points, keeps its 5 points
    and is not destroyed. *)
Theorem C9_five_presses_from_start_up
        (ecodes : Ecodes) (world : World) (o : SetupOutcome) (actions : list Action) :
  let s' := fst (sys_run ecodes world (sys_init o) actions) in
  let consumed := snd (sys_run ecodes world (sys_init o) actions) in
  score (thread s') = 0%Q /\
  Forall (fun e => forall q, e <> PLAYER_HIT q)
         (consumed ++ event_queue (thread s')) /\
  exists ship rest,
    ENEMY_FLEET (battle (main s')) = ship :: rest /\
    max_health ship = 5 /\ current_health ship = 5 /\ is_destroyed ship = false.
Proof.
  intros s' consumed.
  assert (untouched (strip_calls (hw_log (thread (sys_init o)))) [] (sys_init o)) as H.
  { by repeat split. }
  pose proof (sys_run_untouched ecodes world _ actions [] _ H) as H1.
  cbv zeta in H1. fold s' consumed in H1. cbn [app] in H1.
  destruct H1 as (_ & S & Q & _ & F & _).
  split; [exact S|]. split.
  - eapply Forall_impl; [exact Q|]. intros e He q ->. exact He.
  - rewrite F. by eexists _, _.
Qed.

(** * The effect sprites *)

(** [Effect], the sprite class of the cannonballs and explosions, and the
    group [all_sprites] that [main] updates once per frame.  The fields
    kept are those [update] decides on; the position and the image are
    drawing state and are left out.  [total_distance] is the length of
    the flight as [Vector2.length] gave it when the sprite was built. *)
Module EffectSprite.

Inductive EffectType := HIT | MISS | EXPLOSION.

#[global] Instance EffectType_eq_dec : EqDecision EffectType.
Proof. solve_decision. Defined.

Record t := mk {
  effect_type : EffectType;
  total_distance : Q;
  progress : Q;
  is_moving : bool;
  lifetime : Z      (* set for explosions only *)
}.

Definition speed : Q := 10.

(** [Effect.__init__]; [duration if duration else 15] takes 15 for
    [None] and for 0. *)
Definition init (effect_type : EffectType) (total_distance : Q)
           (duration : option Z) : t :=
  match effect_type with
  | HIT | MISS =>
      {| effect_type := effect_type; total_distance := total_distance;
         progress := 0; is_moving := true; lifetime := 0 |}
  | EXPLOSION =>
      {| effect_type := effect_type; total_distance := total_distance;
         progress := 0; is_moving := false;
         lifetime := match duration with
                     | Some d => if d =? 0 then 15 else d
                     | None => 15
                     end |}
  end.

(** [Effect.update]: the sprite after the call, whether it called
    [kill], and the sprites it added to [all_sprites].  The explosion of
    a landed hit starts and ends at the landing point. *)
Definition update (s : t) : t * bool * list t :=
  match effect_type s with
  | EXPLOSION =>
      let s := {| effect_type := effect_type s; total_distance := total_distance s;
                  progress := progress s; is_moving := is_moving s;
                  lifetime := lifetime s - 1 |} in
      (s, lifetime s <=? 0, [])
  | kind =>
      if is_moving s then
        let s := {| effect_type := effect_type s; total_distance := total_distance s;
                    progress := (progress s + speed)%Q; is_moving := is_moving s;
                    lifetime := lifetime s |} in
        if Py.ge (progress s) (total_distance s) then
          (s, true,
           match kind with
           | HIT => [init EXPLOSION 0 None]
           | _ => []
           end)
        else (s, false, [])
      else (s, false, [])
  end.

(** [all_sprites.update()]: every sprite that is in the group when the
    call starts is updated once; the killed ones leave the group, the
    added ones join it at the end. *)
Definition group_update (g : list t) : list t :=
  let results := map update g in
  omap (fun r : t * bool * list t =>
          if snd (fst r) then None else Some (fst (fst r))) results
  ++ concat (map snd results).

End EffectSprite.

Lemma group_update_iter_nil (n : nat) :
  Nat.iter n EffectSprite.group_update [] = [].
Proof. induction n as [|n IH]; [done|]. by rewrite Nat.iter_succ, IH. Qed.

(** An explosion stays in the group while fewer updates were made than
    its lifetime, one update at the least. *)
Lemma explosion_iter (d p : Q) (L : Z) (n : nat) :
  Nat.iter n EffectSprite.group_update
           [EffectSprite.mk EffectSprite.EXPLOSION d p false L]
  = if Z.of_nat n <? Z.max 1 L
    then [EffectSprite.mk EffectSprite.EXPLOSION d p false (L - Z.of_nat n)]
    else [].
Proof.
  induction n as [|n IH].
  - cbn [Nat.iter]. destruct (Z.ltb_spec (Z.of_nat 0) (Z.max 1 L)); [|lia].
    by rewrite Z.sub_0_r.
  - rewrite Nat.iter_succ, IH.
    destruct (Z.ltb_spec (Z.of_nat n) (Z.max 1 L)) as [Hn|Hn].
    + unfold EffectSprite.group_update, EffectSprite.update. cbn.
      destruct (Z.leb_spec (L - Z.of_nat n - 1) 0) as [Hk|Hk];
        destruct (Z.ltb_spec (Z.of_nat (S n)) (Z.max 1 L)) as [Hs|Hs];
        try lia; cbn; [done|].
      do 2 f_equal. lia.
    + destruct (Z.ltb_spec (Z.of_nat (S n)) (Z.max 1 L)); [lia|done].
Qed.

(** A cannonball that has made [m] updates without landing. *)
Definition in_flight (kind : EffectSprite.EffectType) (d : Q) (m : nat)
           (s : EffectSprite.t) : Prop :=
  EffectSprite.effect_type s = kind /\ EffectSprite.total_distance s = d /\
  EffectSprite.is_moving s = true /\
  (EffectSprite.progress s == 10 * inject_Z (Z.of_nat m))%Q.

Lemma cannonball_flight (kind : EffectSprite.EffectType) (d : Q) (k : nat) :
  kind <> EffectSprite.EXPLOSION ->
  ((0 < k)%nat -> (10 * inject_Z (Z.of_nat k) < d)%Q) ->
  forall n, (n <= k)%nat ->
  exists s, Nat.iter n EffectSprite.group_update [EffectSprite.init kind d None] = [s] /\
            in_flight kind d n s.
Proof.
  intros Hk Hd n. induction n as [|n IH]; intros Hn.
  - eexists. split; [reflexivity|]. by destruct kind.
  - destruct IH as (s & Hs & Hkind & Hdist & Hmov & Hprog); [lia|].
    rewrite Nat.iter_succ, Hs.
    assert (inject_Z (Z.of_nat (S n)) == inject_Z (Z.of_nat n) + 1)%Q as E1.
    { rewrite Nat2Z.inj_succ, <- Z.add_1_r, inject_Z_plus. reflexivity. }
    assert (inject_Z (Z.of_nat (S n)) <= inject_Z (Z.of_nat k))%Q as E2.
    { rewrite <- Zle_Qle. lia. }
    assert (10 * inject_Z (Z.of_nat k) < d)%Q as E3 by (apply Hd; lia).
    destruct s as [ty dist prog mov life]. cbn in Hkind, Hdist, Hmov, Hprog.
    subst ty dist mov.
    unfold EffectSprite.group_update, EffectSprite.update.
    cbn [map EffectSprite.effect_type EffectSprite.is_moving
         EffectSprite.progress EffectSprite.total_distance EffectSprite.lifetime].
    assert (Py.ge (prog + EffectSprite.speed) d = false) as ->.
    { apply not_true_iff_false. rewrite Py.ge_true.
      unfold EffectSprite.speed. lra. }
    destruct kind; [| |done]; cbn; (eexists; split; [reflexivity|]);
      (repeat split; cbn; unfold EffectSprite.speed; lra).
Qed.

Lemma cannonball_landing (kind : EffectSprite.EffectType) (d : Q) (k : nat) :
  kind <> EffectSprite.EXPLOSION ->
  ((0 < k)%nat -> (10 * inject_Z (Z.of_nat k) < d)%Q) ->
  (d <= 10 * inject_Z (Z.of_nat (k + 1)))%Q ->
  Nat.iter (S k) EffectSprite.group_update [EffectSprite.init kind d None]
  = match kind with
    | EffectSprite.HIT => [EffectSprite.init EffectSprite.EXPLOSION 0 None]
    | _ => []
    end.
Proof.
  intros Hk Hd Hl.
  destruct (cannonball_flight kind d k Hk Hd k)
    as (s & Hs & Hkind & Hdist & Hmov & Hprog); [lia|].
  rewrite Nat.iter_succ, Hs.
  assert (inject_Z (Z.of_nat (k + 1)) == inject_Z (Z.of_nat k) + 1)%Q as E1.
  { rewrite Nat2Z.inj_add, inject_Z_plus. reflexivity. }
  destruct s as [ty dist prog mov life]. cbn in Hkind, Hdist, Hmov, Hprog.
  subst ty dist mov.
  unfold EffectSprite.group_update, EffectSprite.update.
  cbn [map EffectSprite.effect_type EffectSprite.is_moving
       EffectSprite.progress EffectSprite.total_distance EffectSprite.lifetime].
  assert (Py.ge (prog + EffectSprite.speed) d = true) as ->.
  { rewrite Py.ge_true. unfold EffectSprite.speed. lra. }
  by destruct kind.
Qed.

(** A cannonball lands at the first update that brings its progress, 10
    per update, to the length of its flight or beyond: with [k] updates
    short of it, the cannonball is in the group after each of the first
    [k] updates and leaves it at update [k + 1], the first one when the
    flight has length 0.  A hit then puts one explosion in its place, which
    stays for the updates [k + 1] to [k + 15] and is gone after update
    [k + 16]; a miss leaves nothing behind. *)
Theorem cannonball_lands_then_explodes
        (kind : EffectSprite.EffectType) (d : Q) (k n : nat) :
  kind <> EffectSprite.EXPLOSION ->
  ((0 < k)%nat -> (10 * inject_Z (Z.of_nat k) < d)%Q) ->
  (d <= 10 * inject_Z (Z.of_nat (k + 1)))%Q ->
  map EffectSprite.effect_type
      (Nat.iter n EffectSprite.group_update [EffectSprite.init kind d None])
  = if (n <=? k)%nat then [kind]
    else if bool_decide (kind = EffectSprite.HIT) && (n <=? k + 15)%nat
         then [EffectSprite.EXPLOSION]
         else [].
Proof.
  intros Hk Hd Hl. destruct (Nat.leb_spec n k) as [Hn|Hn].
  - destruct (cannonball_flight kind d k Hk Hd n Hn) as (s & -> & Hkind & _).
    cbn. by rewrite Hkind.
  - assert (exists j, n = (j + S k)%nat) as [j ->] by (exists (n - S k)%nat; lia).
    rewrite Nat.iter_add, (cannonball_landing kind d k Hk Hd Hl).
    destruct kind; [| |done].
    + rewrite bool_decide_eq_true_2 by done. cbn [andb].
      unfold EffectSprite.init. rewrite explosion_iter.
      destruct (Z.ltb_spec (Z.of_nat j) (Z.max 1 15));
        destruct (Nat.leb_spec (j + S k) (k + 15)); try lia; done.
    + rewrite bool_decide_eq_false_2 by done. cbn [andb].
      by rewrite group_update_iter_nil.
Qed.

(** An explosion built with a duration leaves the group at the update
    of that number; a duration of 0 counts as none given and makes 15
    updates, and a negative one ends at the first update. *)
Theorem explosion_leaves_after_its_duration (duration : option Z) (n : nat) :
  let frames := match duration with
                | None | Some 0 => 15
                | Some d => Z.max 1 d
                end in
  Nat.iter n EffectSprite.group_update
           [EffectSprite.init EffectSprite.EXPLOSION 0 duration] = []
  <-> frames <= Z.of_nat n.
Proof.
  intros frames. unfold EffectSprite.init. rewrite explosion_iter.
  assert (Z.max 1 (match duration with
                   | Some d => if d =? 0 then 15 else d
                   | None => 15
                   end) = frames) as ->.
  { subst frames. destruct duration as [[|d|d]|]; cbn; lia. }
  destruct (Z.ltb_spec (Z.of_nat n) frames); split; try done; lia.
Qed.

(* ------------------------------------------------------------------ *)
(** * More worked instances *)

(** The Sloop goes down at its fifth hit. *)
Lemma take_damage_sinks_after_max_health_witness :
  0 < 5 /\
  is_destroyed (take_damage_times 5 (EnemyShip_init "Sloop" 5)) = true.
Proof.
  split; [lia|].
  destruct (take_damage_sinks_after_max_health "Sloop" 5 5) as [_ H]; [lia|].
  destruct H as (_ & H & _); [cbn; lia | exact H].
Defined.

(** A new Sloop shows the full sprite. *)
Lemma get_current_sprite_thresholds_witness :
  (name (EnemyShip_init "Sloop" 5), max_health (EnemyShip_init "Sloop" 5))
    ∈ SHIP_DATA /\
  get_current_sprite (EnemyShip_init "Sloop" 5) = full.
Proof.
  assert ((name (EnemyShip_init "Sloop" 5), max_health (EnemyShip_init "Sloop" 5))
            ∈ SHIP_DATA) as H by apply list_elem_of_here.
  split; [exact H|].
  apply (get_current_sprite_thresholds _ H). split; [reflexivity | cbn; lia].
Defined.

(** The Sloop at its last point. *)
Definition sloop_last_point : EnemyShip :=
  {| name := "Sloop"; max_health := 5; current_health := 1;
     is_destroyed := false; image := half |}.

Lemma take_damage_sinking_image_witness :
  0 < max_health sloop_last_point /\ is_destroyed sloop_last_point = false /\
  current_health sloop_last_point <= 1 /\
  image (fst (take_damage sloop_last_point)) = half /\
  get_current_sprite (fst (take_damage sloop_last_point)) = destroyed.
Proof.
  assert (0 < max_health sloop_last_point) as H1 by (cbn; lia).
  assert (current_health sloop_last_point <= 1) as H2 by (cbn; lia).
  split; [exact H1|]. split; [reflexivity|]. split; [exact H2|].
  destruct (take_damage_sinking_image sloop_last_point H1 eq_refl H2)
    as (_ & H3 & H4).
  split; [exact H3 | exact H4].
Defined.

(** Two escapes and a miss take the fortress from 10 to 7. *)
Lemma misses_wear_the_fortress_down_witness :
  (health (PLAYER_FORTRESS (battle
     (process_events (Main_init fresh_battle)
                     [MOLE_ESCAPED; PLAYER_MISS 0; MOLE_ESCAPED]))) == 7)%Q.
Proof.
  destruct (misses_wear_the_fortress_down
              [MOLE_ESCAPED; PLAYER_MISS 0; MOLE_ESCAPED] (Main_init fresh_battle))
    as (_ & _ & H).
  - repeat constructor.
  - discriminate.
  - cbn. lra.
  - rewrite H. reflexivity.
Defined.

(** A first loop iteration, one event consumed and one win/loss test. *)
Definition first_frame : list Action := [controller_step; consume; win_loss_check].

Lemma reset_restores_the_initial_battle_witness :
  battle (main (sys_init device_opened)) = fresh_battle /\
  reset_game_for_new_round
    (battle (main (fst (sys_run placeholder_ecodes (scripted_world 0 [])
                                (sys_init device_opened) first_frame))))
  = fresh_battle.
Proof.
  split; [reflexivity|].
  exact (reset_restores_the_initial_battle placeholder_ecodes (scripted_world 0 [])
           (sys_init device_opened) first_frame eq_refl).
Defined.

Lemma defeat_and_victory_exclude_each_other_witness :
  battle (main (sys_init device_opened)) = fresh_battle /\
  ~ ((health (PLAYER_FORTRESS (battle (main (fst
        (sys_run placeholder_ecodes (scripted_world 0 [])
                 (sys_init device_opened) first_frame))))) <= 0)%Q /\
     get_current_target_ship (ENEMY_FLEET (battle (main (fst
        (sys_run placeholder_ecodes (scripted_world 0 [])
                 (sys_init device_opened) first_frame))))) = None).
Proof.
  split; [reflexivity|].
  exact (proj1 (defeat_and_victory_exclude_each_other placeholder_ecodes
                  (scripted_world 0 []) (sys_init device_opened) first_frame
                  eq_refl)).
Defined.

(** The fortress at 3 of 10: an orange bar. *)
Definition fortress_at_3 : Fortress := {| health := 3; fortress_max_health := 10 |}.

Lemma health_bar_stays_in_its_border_witness :
  fortress_in_bounds fortress_at_3 /\
  (0 < fortress_max_health fortress_at_3)%Q /\
  color (draw_health_bar fortress_at_3) = ORANGE.
Proof.
  assert (fortress_in_bounds fortress_at_3) as H1 by (split; cbn; lra).
  assert (0 < fortress_max_health fortress_at_3)%Q as H2 by (cbn; lra).
  split; [exact H1|]. split; [exact H2|].
  destruct (health_bar_stays_in_its_border fortress_at_3 H1 H2)
    as (_ & _ & _ & _ & H & _).
  apply H. split; vm_compute; discriminate || reflexivity.
Defined.

Lemma ship_bar_stays_on_its_background_witness :
  battle (main (sys_init device_opened)) = fresh_battle /\ 0 < 100 /\
  (draw_ship_health 100 (EnemyShip_init "Sloop" 5) <= inject_Z 100)%Q.
Proof.
  split; [reflexivity|]. split; [lia|].
  destruct (ship_bar_stays_on_its_background placeholder_ecodes
              (scripted_world 0 []) (sys_init device_opened) [] 100 0%nat
              (EnemyShip_init "Sloop" 5) eq_refl) as (_ & H & _).
  - lia.
  - reflexivity.
  - reflexivity.
  - exact H.
Defined.

Lemma player_ship_shows_the_fortress_health_witness :
  (0 < player_max_health (PlayerShip_init fortress_at_3))%Q /\
  player_image (PlayerShip_update (PlayerShip_init fortress_at_3) fortress_at_3)
  = half.
Proof.
  assert (0 < player_max_health (PlayerShip_init fortress_at_3))%Q as H
    by (cbn; lra).
  split; [exact H|].
  destruct (player_ship_shows_the_fortress_health
              (PlayerShip_init fortress_at_3) fortress_at_3 H) as (_ & H1 & _).
  apply H1. split; vm_compute; discriminate || reflexivity.
Defined.

Lemma key_to_light_index_lookup_witness :
  NoDup (key_codes placeholder_ecodes) /\
  KEY_TO_LIGHT_INDEX placeholder_ecodes !! 10 = None.
Proof.
  assert (NoDup (key_codes placeholder_ecodes)) as H
    by (apply (bool_decide_unpack _); vm_compute; exact I).
  split; [exact H|].
  destruct (key_to_light_index_lookup placeholder_ecodes H) as (_ & H1 & _).
  apply H1. apply (bool_decide_unpack _). vm_compute. exact I.
Defined.

Lemma rounds_follow_the_protocol_witness :
  pc (thread (sys_init device_opened)) = RoundSetup /\
  event_queue (thread (sys_init device_opened)) = [] /\
  exists st,
    protocol_run BetweenRounds
      (snd (sys_run placeholder_ecodes (scripted_world 0 [])
                    (sys_init device_opened) first_frame)) = Some st.
Proof.
  split; [reflexivity|]. split; [reflexivity|].
  exact (proj1 (rounds_follow_the_protocol placeholder_ecodes (scripted_world 0 [])
                  (sys_init device_opened) first_frame eq_refl eq_refl)).
Defined.

(** A hit over a flight of length 25 lands at the third update. *)
Lemma cannonball_lands_then_explodes_witness :
  map EffectSprite.effect_type
      (Nat.iter 3 EffectSprite.group_update
                [EffectSprite.init EffectSprite.HIT 25 None])
  = [EffectSprite.EXPLOSION].
Proof.
  apply (cannonball_lands_then_explodes EffectSprite.HIT 25 2 3).
  - discriminate.
  - intros _. vm_compute. reflexivity.
  - vm_compute. discriminate.
Defined.

(** The device of a player who presses key 5 and then, five times, the
    key of the lit mole. *)
Definition five_presses : World :=
  scripted_world 0 [Events [key_down 5]; Events (replicate 5 (key_down 1))].

(** The five presses at start-up with the device open: the round
    starts, the second batch is never read, nothing is scored and the
    Sloop keeps its 5 points.  The same presses on a controller that is
    available score 5 and sink the Sloop. *)
Example five_presses_at_start_up :
  has_dev five_presses = dev_assigned device_opened /\
  pc (thread (fst (sys_run placeholder_ecodes five_presses (sys_init device_opened)
                           (replicate 6 controller_step ++ replicate 3 consume))))
    = Active /\
  polls (thread (fst (sys_run placeholder_ecodes five_presses (sys_init device_opened)
                              (replicate 6 controller_step ++ replicate 3 consume))))
    = 1%nat /\
  snd (sys_run placeholder_ecodes five_presses (sys_init device_opened)
               (replicate 6 controller_step ++ replicate 3 consume))
    = [START_SCREEN; COUNTDOWN_FINISHED; MOLE_SPAWN 0] /\
  (score (thread (fst (sys_run placeholder_ecodes five_presses
                               (sys_init device_opened)
                               (replicate 6 controller_step ++ replicate 3 consume))))
     == 0)%Q /\
  (score (thread (fst (sys_run placeholder_ecodes five_presses
                               {| main := Main_init fresh_battle;
                                  thread := at_round_start true |}
                               (replicate 3 controller_step ++ replicate 13 consume))))
     == 5)%Q /\
  get_current_target_ship
    (ENEMY_FLEET (battle (main (fst (sys_run placeholder_ecodes five_presses
                               {| main := Main_init fresh_battle;
                                  thread := at_round_start true |}
                               (replicate 3 controller_step ++ replicate 13 consume))))))
    = Some 1%nat.
Proof. vm_compute. repeat split; reflexivity. Qed.
